(** * A Vision Transformer forward pass, embedded from [ViT.py]

    The development follows the Python source class by class:
    [PatchEmbedding], [Attention], [MLP], [Block] and [VisionTransformer],
    each with its constructor ([_init]) and its [forward] method.

    - Tensors are a shape together with the row-major list of their
      elements, as a contiguous torch tensor stores them.
    - Python integers are [Z]; tensor sizes are [nat].
    - Floating-point arithmetic is not interpreted: the element type and its
      operations are the fields of the class [Numerics], and every theorem
      holds for every instance of it.
    - Exceptions and the random generator that [torch.randn], the default
      initialisers and [nn.Dropout] draw from are the effects of the
      program; they are threaded through the monad [M].
    - The torch operators are modelled after their documented behaviour;
      allocation limits are not modelled. *)

From Stdlib Require Import List ZArith QArith Qround Lia Bool Arith.
Import ListNotations.

Set Implicit Arguments.
Close Scope Q_scope.
Open Scope nat_scope.

(** ** Exceptions and numerics *)

Inductive exn : Type :=
| ValueError
| RuntimeError
| ZeroDivisionError
| IndexError.

(** The distributions the constructors draw parameters from:
    [torch.randn], and the default initialisers of [nn.Linear] and
    [nn.Conv2d], which depend on the fan-in. *)
Inductive init_kind : Type :=
| Randn
| WeightInit (fan_in : nat)
| BiasInit (fan_in : nat).

Class Numerics : Type := {
  scalar : Type;
  f0 : scalar;
  f1 : scalar;
  fadd : scalar -> scalar -> scalar;
  fsub : scalar -> scalar -> scalar;
  fmul : scalar -> scalar -> scalar;
  fdiv : scalar -> scalar -> scalar;
  fmax : scalar -> scalar -> scalar;
  fexp : scalar -> scalar;
  fsqrt : scalar -> scalar;
  fgelu : scalar -> scalar;
  of_nat : nat -> scalar;
  of_Q : Q -> scalar;
  (** the [eps] of [nn.LayerNorm] *)
  ln_eps : scalar;
  (** [n ** -0.5] for a positive Python integer [n] *)
  py_pow_neg_half : Z -> scalar;
  (** [int(n * r)] for a Python integer [n] and a float [r] *)
  py_int_mul : Z -> Q -> Z;
  (** the state of torch's global random generator *)
  RNG : Type;
  rng_sample : init_kind -> RNG -> scalar * RNG;
  (** one Bernoulli draw with the given probability of [true] *)
  rng_bernoulli : Q -> RNG -> bool * RNG
}.

(** ** The effect monad: exceptions over the generator state *)

Section Monad.
Context {NM : Numerics}.

Definition M (A : Type) : Type := RNG -> (exn + A) * RNG.

Definition ret {A : Type} (a : A) : M A := fun g => (inr a, g).

Definition raise {A : Type} (e : exn) : M A := fun g => (inl e, g).

Definition bind {A B : Type} (m : M A) (k : A -> M B) : M B :=
  fun g =>
    match m g with
    | (inl e, g') => (inl e, g')
    | (inr a, g') => k a g'
    end.

End Monad.

Declare Scope monad_scope.
Delimit Scope monad_scope with monad.
Notation "x <- c1 ;; c2" := (bind c1 (fun x => c2))
  (at level 100, c1 at next level, right associativity) : monad_scope.
Open Scope monad_scope.

(** ** Tensors *)

Section Tensor.
Context {NM : Numerics}.

Record tensor : Type := mkTensor { shape : list nat; data : list scalar }.

Definition numel (sh : list nat) : nat := fold_right Nat.mul 1 sh.

(** A tensor holds exactly as many elements as its shape says. *)
Definition wf (t : tensor) : Prop := length (data t) = numel (shape t).

(** Row-major offset of a multi-index, and its inverse. *)
Fixpoint ravel (sh idx : list nat) : nat :=
  match sh, idx with
  | _ :: sh', i :: idx' => i * numel sh' + ravel sh' idx'
  | _, _ => 0
  end.

Fixpoint unravel (sh : list nat) (n : nat) : list nat :=
  match sh with
  | [] => []
  | _ :: sh' => (n / numel sh') :: unravel sh' (n mod numel sh')
  end.

Definition in_bounds (sh idx : list nat) : Prop := Forall2 lt idx sh.

Definition get (t : tensor) (idx : list nat) : scalar :=
  nth (ravel (shape t) idx) (data t) f0.

Definition tabulate (sh : list nat) (f : list nat -> scalar) : tensor :=
  mkTensor sh (map (fun n => f (unravel sh n)) (seq 0 (numel sh))).

(** A sum of floats, added from left to right.  torch fixes no order of
    accumulation: its kernels choose one from the shapes of the operands.
    The sums of the model stand for those of torch up to that order, and
    results are compared between runs on operands of one shape only. *)
Definition fsum (l : list scalar) : scalar := fold_left fadd l f0.


Definition rank (t : tensor) : nat := length (shape t).

(** A dimension argument that may count from the end, as torch wraps it. *)
Definition normalize_dim (r : nat) (d : Z) : option nat :=
  if ((- Z.of_nat r <=? d) && (d <? Z.of_nat r))%Z
  then Some (Z.to_nat (d mod Z.of_nat r))
  else None.

Fixpoint shape_eqb (a b : list nat) : bool :=
  match a, b with
  | [], [] => true
  | x :: a', y :: b' => (x =? y) && shape_eqb a' b'
  | _, _ => false
  end.

Definition insert_at (k v : nat) (l : list nat) : list nat :=
  firstn k l ++ v :: skipn k l.

Definition remove_at (k : nat) (l : list nat) : list nat :=
  firstn k l ++ skipn (S k) l.

Definition set_at (k v : nat) (l : list nat) : list nat :=
  firstn k l ++ v :: skipn (S k) l.

Definition swap (i j : nat) (l : list nat) : list nat :=
  map (fun k => nth (if k =? i then j else if k =? j then i else k) l 0)
      (seq 0 (length l)).

Fixpoint index_of (d : nat) (l : list nat) : nat :=
  match l with
  | [] => 0
  | x :: l' => if x =? d then 0 else S (index_of d l')
  end.

(** ** torch operators *)

(** [Tensor.reshape]: the target sizes are Python integers; one of them may
    be [-1] and is then inferred.  The elements keep their row-major order. *)
Definition infer_shape (n : nat) (target : list Z) : option (list nat) :=
  if existsb (fun d => (d <? -1)%Z) target then None
  else
    match count_occ Z.eq_dec target (-1)%Z with
    | 0 =>
        let sh := map Z.to_nat target in
        if numel sh =? n then Some sh else None
    | 1 =>
        let p := numel (map Z.to_nat (remove Z.eq_dec (-1)%Z target)) in
        if p =? 0 then None
        else if n mod p =? 0
             then Some (map (fun d => if (d =? -1)%Z then n / p else Z.to_nat d) target)
             else None
    | _ => None
    end.

Definition reshape (x : tensor) (target : list Z) : M tensor :=
  match infer_shape (numel (shape x)) target with
  | Some sh => ret (mkTensor sh (data x))
  | None => raise RuntimeError
  end.

(** [Tensor.permute]: output dimension [k] is input dimension [perm[k]]. *)
Definition is_perm (r : nat) (perm : list nat) : bool :=
  (length perm =? r) && forallb (fun d => existsb (Nat.eqb d) perm) (seq 0 r).

Definition permute (x : tensor) (perm : list nat) : M tensor :=
  if is_perm (rank x) perm
  then ret (tabulate (map (fun p => nth p (shape x) 0) perm)
              (fun idx => get x (map (fun d => nth (index_of d perm) idx 0)
                                     (seq 0 (rank x)))))
  else raise RuntimeError.

(** [Tensor.transpose(dim0, dim1)]. *)
Definition transpose (x : tensor) (dim0 dim1 : Z) : M tensor :=
  match normalize_dim (rank x) dim0, normalize_dim (rank x) dim1 with
  | Some i, Some j =>
      ret (tabulate (swap i j (shape x)) (fun idx => get x (swap i j idx)))
  | _, _ => raise IndexError
  end.

(** [Tensor.flatten(start_dim)]: the dimensions from [start_dim] on become
    one. *)
Definition flatten (x : tensor) (start_dim : nat) : M tensor :=
  if start_dim <? rank x
  then ret (mkTensor (firstn start_dim (shape x) ++ [numel (skipn start_dim (shape x))])
                     (data x))
  else raise IndexError.

(** Indexing with one integer at dimension [dim] and full slices before it:
    [x[i]] is [select x 0 i], [x[:, i]] is [select x 1 i]. *)
Definition select (x : tensor) (dim i : nat) : M tensor :=
  if (dim <? rank x) && (i <? nth dim (shape x) 0)
  then ret (tabulate (remove_at dim (shape x)) (fun idx => get x (insert_at dim i idx)))
  else raise IndexError.

(** [torch.cat((a, b), dim)]. *)
Definition cat (a b : tensor) (dim : nat) : M tensor :=
  if negb (rank a =? rank b) then raise RuntimeError
  else if negb (dim <? rank a) then raise IndexError
  else if negb (shape_eqb (remove_at dim (shape a)) (remove_at dim (shape b)))
       then raise RuntimeError
  else
    let da := nth dim (shape a) 0 in
    let db := nth dim (shape b) 0 in
    ret (tabulate (set_at dim (da + db) (shape a))
           (fun idx =>
              let i := nth dim idx 0 in
              if i <? da then get a idx else get b (set_at dim (i - da) idx))).

(** Broadcasting.  Shapes are aligned at their last dimension; [bindex]
    maps an index of the broadcast result to the index of an operand. *)
Fixpoint broadcast_rev (a b : list nat) : option (list nat) :=
  match a, b with
  | [], _ => Some b
  | _, [] => Some a
  | x :: a', y :: b' =>
      if x =? y then option_map (cons x) (broadcast_rev a' b')
      else if x =? 1 then option_map (cons y) (broadcast_rev a' b')
      else if y =? 1 then option_map (cons x) (broadcast_rev a' b')
      else None
  end.

Definition broadcast_shapes (a b : list nat) : option (list nat) :=
  option_map (@rev nat) (broadcast_rev (rev a) (rev b)).

Definition bindex (sa idx : list nat) : list nat :=
  map (fun di => if fst di =? 1 then 0 else snd di)
      (combine sa (skipn (length idx - length sa) idx)).

(** [Tensor.expand]: [-1] keeps a size, a size-one dimension may grow,
    and new leading dimensions may be added. *)
Fixpoint expand_rev (sh : list nat) (target : list Z) : option (list nat) :=
  match target with
  | [] => match sh with [] => Some [] | _ :: _ => None end
  | t :: target' =>
      match sh with
      | [] =>
          if (t <? 0)%Z then None
          else option_map (cons (Z.to_nat t)) (expand_rev [] target')
      | d :: sh' =>
          if (t =? -1)%Z then option_map (cons d) (expand_rev sh' target')
          else if (t <? 0)%Z then None
          else if (Z.of_nat d =? t)%Z || (d =? 1)
               then option_map (cons (Z.to_nat t)) (expand_rev sh' target')
               else None
      end
  end.

Definition expand (x : tensor) (sizes : list Z) : M tensor :=
  match expand_rev (rev (shape x)) (rev sizes) with
  | Some r => ret (tabulate (rev r) (fun idx => get x (bindex (shape x) idx)))
  | None => raise RuntimeError
  end.

(** [a + b] on tensors. *)
Definition tadd (a b : tensor) : M tensor :=
  match broadcast_shapes (shape a) (shape b) with
  | Some sh =>
      ret (tabulate sh (fun idx =>
             fadd (get a (bindex (shape a) idx)) (get b (bindex (shape b) idx))))
  | None => raise RuntimeError
  end.

(** [x * s] for a Python number [s]. *)
Definition mul_scalar (x : tensor) (s : scalar) : tensor :=
  mkTensor (shape x) (map (fun v => fmul v s) (data x)).

(** [a @ b] ([torch.matmul]).  A one-dimensional operand is given a unit
    dimension that is removed from the result; batch dimensions broadcast. *)
Definition matmul (a b : tensor) : M tensor :=
  match shape a, shape b with
  | [], _ | _, [] => raise RuntimeError
  | _ :: _, _ :: _ =>
      let veca := rank a =? 1 in
      let vecb := rank b =? 1 in
      let sa := if veca then 1 :: shape a else shape a in
      let sb := if vecb then shape b ++ [1] else shape b in
      let a' := mkTensor sa (data a) in
      let b' := mkTensor sb (data b) in
      let ra := length sa - 2 in
      let rb := length sb - 2 in
      let n := nth ra sa 0 in
      let m := nth (S ra) sa 0 in
      let m' := nth rb sb 0 in
      let p := nth (S rb) sb 0 in
      if negb (m =? m') then raise RuntimeError
      else
        match broadcast_shapes (firstn ra sa) (firstn rb sb) with
        | None => raise RuntimeError
        | Some batch =>
            let r := length batch in
            let core :=
              tabulate (batch ++ [n; p])
                (fun idx =>
                   let bi := firstn r idx in
                   let i := nth r idx 0 in
                   let j := nth (S r) idx 0 in
                   fsum (map (fun k =>
                                fmul (get a' (bindex (firstn ra sa) bi ++ [i; k]))
                                     (get b' (bindex (firstn rb sb) bi ++ [k; j])))
                             (seq 0 m))) in
            ret (mkTensor (batch ++ (if veca then [] else [n])
                                 ++ (if vecb then [] else [p]))
                          (data core))
        end
  end.

(** [Tensor.softmax(dim=-1)], computed as torch does: the maximum of the row
    is subtracted before exponentiating. *)
Definition softmax_row (row : list scalar) : list scalar :=
  match row with
  | [] => []
  | v :: rest =>
      let m := fold_left fmax rest v in
      let e := map (fun u => fexp (fsub u m)) row in
      let s := fsum e in
      map (fun u => fdiv u s) e
  end.

Definition row_of (x : tensor) (idx : list nat) : list scalar :=
  map (fun j => get x (removelast idx ++ [j])) (seq 0 (last (shape x) 1)).

Definition softmax_last (x : tensor) : tensor :=
  tabulate (shape x) (fun idx => nth (last idx 0) (softmax_row (row_of x idx)) f0).

(** [nn.GELU]. *)
Definition gelu (x : tensor) : tensor :=
  mkTensor (shape x) (map fgelu (data x)).

(** ** Drawing from the generator *)

Definition sample (k : init_kind) : M scalar :=
  fun g => let (v, g') := rng_sample k g in (inr v, g').

Definition bernoulli (q : Q) : M bool :=
  fun g => let (b, g') := rng_bernoulli q g in (inr b, g').

Fixpoint replicateM {A : Type} (n : nat) (m : M A) : M (list A) :=
  match n with
  | 0 => ret []
  | S n' => a <- m ;; l <- replicateM n' m ;; ret (a :: l)
  end.

(** A freshly allocated and initialised parameter; a negative size is
    refused by the allocator. *)
Definition new_param (k : init_kind) (sizes : list Z) : M tensor :=
  if existsb (fun d => (d <? 0)%Z) sizes then raise RuntimeError
  else
    let sh := map Z.to_nat sizes in
    l <- replicateM (numel sh) (sample k) ;;
    ret (mkTensor sh l).

Definition full (sh : list nat) (v : scalar) : tensor :=
  tabulate sh (fun _ => v).

(** Values of Python arithmetic that are not integers: [head_dim ** -0.5] is
    a float for a positive base and a complex number for a negative one. *)
Inductive pynum : Type :=
| PyFloat (v : scalar)
| PyComplex.

(** [a or b] on an optional integer: [None] and [0] are falsy. *)
Definition py_or (a : option Z) (b : Z) : Z :=
  match a with
  | Some v => if (v =? 0)%Z then b else v
  | None => b
  end.

End Tensor.

Arguments tabulate : simpl never.
Arguments get : simpl never.

(** ** [torch.nn] layers used by the model *)

Module Dropout.
Section Dropout.
Context {NM : Numerics}.

Record t : Type := mk { p : Q; training : bool }.

(** [nn.Dropout(p)]; a new module is in training mode. *)
Definition init (p : Q) : M t :=
  if negb (Qle_bool 0 p) || negb (Qle_bool p 1) then raise ValueError
  else ret (mk p true).

Definition forward (self : t) (x : tensor) : M tensor :=
  if negb (Qle_bool 0 (p self)) || negb (Qle_bool (p self) 1) then raise ValueError
  else if negb (training self) || Qeq_bool (p self) 0 || (numel (shape x) =? 0)
       then ret x
  else if Qeq_bool (p self) 1 then ret (mul_scalar x f0)
  else
    mask <- replicateM (length (data x)) (bernoulli (1 - p self)%Q) ;;
    ret (mkTensor (shape x)
           (map (fun vk : scalar * bool => fmul (fst vk)
                             (fdiv (if snd vk then f1 else f0) (of_Q (1 - p self)%Q)))
                (combine (data x) mask))).

Definition train (mode : bool) (self : t) : t := mk (p self) mode.

End Dropout.
End Dropout.

Module Linear.
Section Linear.
Context {NM : Numerics}.

Record t : Type := mk { weight : tensor; bias : option tensor }.

(** [nn.Linear(in_features, out_features, bias)]. *)
Definition init (in_features out_features : Z) (with_bias : bool) : M t :=
  w <- new_param (WeightInit (Z.to_nat in_features)) [out_features; in_features] ;;
  if with_bias
  then b <- new_param (BiasInit (Z.to_nat in_features)) [out_features] ;;
       ret (mk w (Some b))
  else ret (mk w None).

(** [x @ weight.T + bias] over the last dimension. *)
Definition forward (self : t) (x : tensor) : M tensor :=
  match shape (weight self), rev (shape x) with
  | [out_f; in_f], d :: _ =>
      if negb (d =? in_f) then raise RuntimeError
      else if match bias self with
              | Some b => negb (shape_eqb (shape b) [out_f])
              | None => false
              end
           then raise RuntimeError
      else
        ret (tabulate (removelast (shape x) ++ [out_f])
               (fun idx =>
                  let pre := removelast idx in
                  let o := last idx 0 in
                  let acc :=
                    fsum (map (fun n => fmul (get x (pre ++ [n])) (get (weight self) [o; n]))
                              (seq 0 in_f)) in
                  match bias self with
                  | Some b => fadd acc (get b [o])
                  | None => acc
                  end))
  | _, _ => raise RuntimeError
  end.

End Linear.
End Linear.

Module LayerNorm.
Section LayerNorm.
Context {NM : Numerics}.

Record t : Type := mk { normalized_shape : Z; weight : tensor; bias : tensor }.

(** [nn.LayerNorm(dim)]: scale one, shift zero. *)
Definition init (dim : Z) : M t :=
  if (dim <? 0)%Z then raise RuntimeError
  else ret (mk dim (full [Z.to_nat dim] f1) (full [Z.to_nat dim] f0)).

Definition norm_row (row : list scalar) : list scalar :=
  let n := of_nat (length row) in
  let mean := fdiv (fsum row) n in
  let var := fdiv (fsum (map (fun v => fmul (fsub v mean) (fsub v mean)) row)) n in
  map (fun v => fdiv (fsub v mean) (fsqrt (fadd var ln_eps))) row.

Definition forward (self : t) (x : tensor) : M tensor :=
  match rev (shape x) with
  | d :: _ =>
      if negb (Z.of_nat d =? normalized_shape self)%Z
         || negb (shape_eqb (shape (weight self)) [d])
         || negb (shape_eqb (shape (bias self)) [d])
      then raise RuntimeError
      else
        ret (tabulate (shape x)
               (fun idx =>
                  let j := last idx 0 in
                  fadd (fmul (nth j (norm_row (row_of x idx)) f0) (get (weight self) [j]))
                       (get (bias self) [j])))
  | [] => raise RuntimeError
  end.

End LayerNorm.
End LayerNorm.

Module Conv2d.
Section Conv2d.
Context {NM : Numerics}.

Record t : Type := mk { weight : tensor; bias : tensor; stride : Z }.

(** [nn.Conv2d(in_channels, out_channels, kernel_size, stride)], square
    kernel, no padding, with bias.  The model follows torch for a kernel
    with at least one input and one output channel. *)
Definition init (in_channels out_channels kernel_size stride : Z) : M t :=
  let fan_in := Z.to_nat (in_channels * kernel_size * kernel_size) in
  w <- new_param (WeightInit fan_in)
         [out_channels; in_channels; kernel_size; kernel_size] ;;
  b <- new_param (BiasInit fan_in) [out_channels] ;;
  ret (mk w b stride).

(** One output element: the kernel of output channel [e] against the window
    of [x] whose corner is [(i * s, j * s)], summed over the flattened
    window, plus the bias. *)
Definition conv_at (x w b : tensor) (C kh kw s : nat) (bi e i j : nat) : scalar :=
  fadd (fsum (map (fun n =>
                     match unravel [C; kh; kw] n with
                     | [c; u; v] =>
                         fmul (get x [bi; c; i * s + u; j * s + v]) (get w [e; c; u; v])
                     | _ => f0
                     end)
                  (seq 0 (numel [C; kh; kw]))))
       (get b [e]).

Definition conv_batched (self : t) (x : tensor) : M tensor :=
  match shape (weight self), shape x with
  | [E; C; kh; kw], [B; C'; H; W] =>
      if (stride self <=? 0)%Z then raise RuntimeError
      else if negb (C' =? C) || (H <? kh) || (W <? kw)
              || negb (shape_eqb (shape (bias self)) [E])
           then raise RuntimeError
      else
        let s := Z.to_nat (stride self) in
        ret (tabulate [B; E; (H - kh) / s + 1; (W - kw) / s + 1]
               (fun idx =>
                  match idx with
                  | [bi; e; i; j] =>
                      conv_at x (weight self) (bias self) C kh kw s bi e i j
                  | _ => f0
                  end))
  | _, _ => raise RuntimeError
  end.

(** A three-dimensional input is one unbatched image. *)
Definition forward (self : t) (x : tensor) : M tensor :=
  match shape x with
  | [_; _; _; _] => conv_batched self x
  | [_; _; _] =>
      y <- conv_batched self (mkTensor (1 :: shape x) (data x)) ;;
      ret (mkTensor (tl (shape y)) (data y))
  | _ => raise RuntimeError
  end.

End Conv2d.
End Conv2d.

(** ** The classes of [ViT.py] *)

Module PatchEmbedding.
Section PatchEmbedding.
Context {NM : Numerics}.

Record t : Type := mk {
  img_size : Z;
  patch_size : Z;
  n_patches : Z;
  projection : Conv2d.t
}.

Definition init (img_size patch_size in_channels embed_dim : Z) : M t :=
  if (patch_size =? 0)%Z then raise ZeroDivisionError
  else
    let n_patches := ((img_size / patch_size) ^ 2)%Z in
    projection <- Conv2d.init in_channels embed_dim patch_size patch_size ;;
    ret (mk img_size patch_size n_patches projection).

Definition forward (self : t) (x : tensor) : M tensor :=
  x <- Conv2d.forward (projection self) x ;;
  x <- flatten x 2 ;;
  x <- transpose x 1 2 ;;
  ret x.

End PatchEmbedding.
End PatchEmbedding.

Module Attention.
Section Attention.
Context {NM : Numerics}.

Record t : Type := mk {
  n_heads : Z;
  dim : Z;
  head_dim : Z;
  scale : pynum;
  qkv : Linear.t;
  attn_drop : Dropout.t;
  proj : Linear.t;
  proj_drop : Dropout.t
}.

Definition init (dim n_heads : Z) (qkv_bias : bool) (attn_p proj_p : Q) : M t :=
  if (n_heads =? 0)%Z then raise ZeroDivisionError
  else
    let head_dim := (dim / n_heads)%Z in
    if (head_dim =? 0)%Z then raise ZeroDivisionError
    else
      let scale :=
        if (0 <? head_dim)%Z then PyFloat (py_pow_neg_half head_dim) else PyComplex in
      qkv <- Linear.init dim (dim * 3) qkv_bias ;;
      attn_drop <- Dropout.init attn_p ;;
      proj <- Linear.init dim dim true ;;
      proj_drop <- Dropout.init proj_p ;;
      ret (mk n_heads dim head_dim scale qkv attn_drop proj proj_drop).

Definition forward (self : t) (x : tensor) : M tensor :=
  match shape x with
  | [n_samples; n_tokens; dim_] =>
      if negb (Z.of_nat dim_ =? dim self)%Z then raise ValueError
      else
        qkv_ <- Linear.forward (qkv self) x ;;
        qkv_ <- reshape qkv_ [Z.of_nat n_samples; Z.of_nat n_tokens; 3%Z;
                              n_heads self; head_dim self] ;;
        qkv_ <- permute qkv_ [2; 0; 3; 1; 4] ;;
        q <- select qkv_ 0 0 ;;
        k <- select qkv_ 0 1 ;;
        v <- select qkv_ 0 2 ;;
        k_t <- transpose k (-2) (-1) ;;
        qk <- matmul q k_t ;;
        dp <- match scale self with
              | PyFloat s => ret (mul_scalar qk s)
              | PyComplex => raise RuntimeError
              end ;;
        attn <- ret (softmax_last dp) ;;
        attn <- Dropout.forward (attn_drop self) attn ;;
        weighted_avg <- matmul attn v ;;
        weighted_avg <- transpose weighted_avg 1 2 ;;
        weighted_avg <- reshape weighted_avg
                          [Z.of_nat n_samples; Z.of_nat n_tokens; Z.of_nat dim_] ;;
        x <- Linear.forward (proj self) weighted_avg ;;
        x <- Dropout.forward (proj_drop self) x ;;
        ret x
  | _ => raise ValueError
  end.

Definition train (mode : bool) (self : t) : t :=
  mk (n_heads self) (dim self) (head_dim self) (scale self) (qkv self)
     (Dropout.train mode (attn_drop self)) (proj self)
     (Dropout.train mode (proj_drop self)).

End Attention.
End Attention.

Module MLP.
Section MLP.
Context {NM : Numerics}.

Record t : Type := mk { fc1 : Linear.t; fc2 : Linear.t; drop : Dropout.t }.

Definition init (in_features : Z) (hidden_features out_features : option Z) (p : Q)
  : M t :=
  let out_features := py_or out_features in_features in
  let hidden_features := py_or hidden_features in_features in
  fc1 <- Linear.init in_features hidden_features true ;;
  fc2 <- Linear.init hidden_features out_features true ;;
  drop <- Dropout.init p ;;
  ret (mk fc1 fc2 drop).

Definition forward (self : t) (x : tensor) : M tensor :=
  x <- Linear.forward (fc1 self) x ;;
  x <- ret (gelu x) ;;
  x <- Dropout.forward (drop self) x ;;
  x <- Linear.forward (fc2 self) x ;;
  x <- Dropout.forward (drop self) x ;;
  ret x.

Definition train (mode : bool) (self : t) : t :=
  mk (fc1 self) (fc2 self) (Dropout.train mode (drop self)).

End MLP.
End MLP.

Module Block.
Section Block.
Context {NM : Numerics}.

Record t : Type := mk {
  norm1 : LayerNorm.t;
  attn : Attention.t;
  norm2 : LayerNorm.t;
  mlp : MLP.t
}.

(** The argument [p] is accepted and not passed on: the [MLP] is built with
    its default dropout probability [0]. *)
Definition init (dim n_heads : Z) (mlp_ratio : Q) (qkv_bias : bool)
                (p attn_p proj_p : Q) : M t :=
  norm1 <- LayerNorm.init dim ;;
  attn <- Attention.init dim n_heads qkv_bias attn_p proj_p ;;
  norm2 <- LayerNorm.init dim ;;
  let mlp_hidden_dim := py_int_mul dim mlp_ratio in
  mlp <- MLP.init dim (Some mlp_hidden_dim) (Some dim) 0 ;;
  ret (mk norm1 attn norm2 mlp).

Definition forward (self : t) (x : tensor) : M tensor :=
  n1 <- LayerNorm.forward (norm1 self) x ;;
  a <- Attention.forward (attn self) n1 ;;
  x <- tadd x a ;;
  n2 <- LayerNorm.forward (norm2 self) x ;;
  m <- MLP.forward (mlp self) n2 ;;
  x <- tadd x m ;;
  ret x.

Definition train (mode : bool) (self : t) : t :=
  mk (norm1 self) (Attention.train mode (attn self)) (norm2 self)
     (MLP.train mode (mlp self)).

End Block.
End Block.

Module VisionTransformer.
Section VisionTransformer.
Context {NM : Numerics}.

(** The constructor's arguments. *)
Record config : Type := mkConfig {
  img_size : Z;
  patch_size : Z;
  in_channels : Z;
  n_classes : Z;
  embed_dim : Z;
  depth : Z;
  n_heads : Z;
  mlp_ratio : Q;
  qkv_bias : bool;
  p : Q;
  attn_p : Q;
  proj_p : Q
}.

Definition default_config : config :=
  mkConfig 224 16 3 1000 768 12 12 4 true 0 0 0.

Record t : Type := mk {
  patch_embed : PatchEmbedding.t;
  cls_token : tensor;
  pos_embed : tensor;
  pos_drop : Dropout.t;
  blocks : list Block.t;
  norm : LayerNorm.t;
  head : Linear.t
}.

Definition init (c : config) : M t :=
  patch_embed <- PatchEmbedding.init (img_size c) (patch_size c) (in_channels c)
                   (embed_dim c) ;;
  cls_token <- new_param Randn [1; 1; embed_dim c]%Z ;;
  pos_embed <- new_param Randn
                 [1; (img_size c / patch_size c) ^ 2 + 1; embed_dim c]%Z ;;
  pos_drop <- Dropout.init (p c) ;;
  blocks <- replicateM (Z.to_nat (depth c))
              (Block.init (embed_dim c) (n_heads c) (mlp_ratio c) (qkv_bias c)
                          (p c) (attn_p c) (proj_p c)) ;;
  norm <- LayerNorm.init (embed_dim c) ;;
  head <- Linear.init (embed_dim c) (n_classes c) true ;;
  ret (mk patch_embed cls_token pos_embed pos_drop blocks norm head).

(** [for block in self.blocks: x = block(x)]. *)
Fixpoint run_blocks (bs : list Block.t) (x : tensor) : M tensor :=
  match bs with
  | [] => ret x
  | b :: bs' => x <- Block.forward b x ;; run_blocks bs' x
  end.

Definition forward (self : t) (x : tensor) : M tensor :=
  n_samples <- match shape x with
               | n :: _ => ret n
               | [] => raise IndexError
               end ;;
  x <- PatchEmbedding.forward (patch_embed self) x ;;
  cls_token_ <- expand (cls_token self) [Z.of_nat n_samples; -1; -1]%Z ;;
  x <- cat cls_token_ x 1 ;;
  x <- tadd x (pos_embed self) ;;
  x <- Dropout.forward (pos_drop self) x ;;
  x <- run_blocks (blocks self) x ;;
  x <- LayerNorm.forward (norm self) x ;;
  x <- select x 1 0 ;;
  x <- Linear.forward (head self) x ;;
  ret x.

(** [nn.Module.train(mode)]; [eval()] is [train false]. *)
Definition train (mode : bool) (self : t) : t :=
  mk (patch_embed self) (cls_token self) (pos_embed self)
     (Dropout.train mode (pos_drop self))
     (map (Block.train mode) (blocks self)) (norm self) (head self).

Definition eval (self : t) : t := train false self.

End VisionTransformer.
End VisionTransformer.

(** * Vocabulary of the statements *)

Section Vocabulary.
Context {NM : Numerics}.

(** [returns m P]: from every generator state, [m] returns normally with a
    value satisfying [P]. *)
Definition returns {A : Type} (m : M A) (P : A -> Prop) : Prop :=
  forall g, exists a g', m g = (inr a, g') /\ P a.

(** [fails m e]: from every generator state, [m] raises [e] and leaves the
    generator as it found it. *)
Definition fails {A : Type} (m : M A) (e : exn) : Prop :=
  forall g, m g = (inl e, g).

(** [pure_comp m]: the outcome of [m] does not depend on the generator, and
    [m] does not advance it. *)
Definition pure_comp {A : Type} (m : M A) : Prop :=
  exists r, forall g, m g = (r, g).

(** [raises m e]: from every generator state, [m] raises [e]. *)
Definition raises {A : Type} (m : M A) (e : exn) : Prop :=
  forall g, exists g', m g = (inl e, g').

(** [avoids m e]: whatever else happens, [m] does not raise [e]. *)
Definition avoids {A : Type} (m : M A) (e : exn) : Prop :=
  forall g r g', m g = (r, g') -> r <> inl e.

(** A tensor of a given shape holding that many elements. *)
Definition shaped (sh : list nat) (t : tensor) : Prop :=
  shape t = sh /\ wf t.

(** ** Invariants of the modules the constructors build *)

(** A dropout probability that [nn.Dropout] accepts. *)
Definition prob (q : Q) : Prop := Qle_bool 0 q = true /\ Qle_bool q 1 = true.

Definition Dropout_ok (d : Dropout.t) : Prop :=
  Qle_bool 0 (Dropout.p d) = true /\ Qle_bool (Dropout.p d) 1 = true.

(** A dropout that cannot alter its input: evaluation mode, or [p == 0]. *)
Definition Dropout_inert (d : Dropout.t) : Prop :=
  Dropout.training d = false \/ Qeq_bool (Dropout.p d) 0 = true.

Definition Linear_ok (i o : nat) (l : Linear.t) : Prop :=
  shaped [o; i] (Linear.weight l) /\
  match Linear.bias l with
  | Some b => shaped [o] b
  | None => True
  end.

Definition LayerNorm_ok (d : nat) (n : LayerNorm.t) : Prop :=
  LayerNorm.normalized_shape n = Z.of_nat d /\
  shaped [d] (LayerNorm.weight n) /\
  shaped [d] (LayerNorm.bias n).

Definition Conv2d_ok (C E k : nat) (c : Conv2d.t) : Prop :=
  shaped [E; C; k; k] (Conv2d.weight c) /\
  shaped [E] (Conv2d.bias c) /\
  Conv2d.stride c = Z.of_nat k.

Definition PatchEmbedding_ok (C E k : nat) (pe : PatchEmbedding.t) : Prop :=
  Conv2d_ok C E k (PatchEmbedding.projection pe).

(** An attention module of width [D] with [H] heads; [head_dim] is the
    integer quotient, whether or not [H] divides [D]. *)
Definition Attention_ok (D H : nat) (a : Attention.t) : Prop :=
  Attention.dim a = Z.of_nat D /\
  Attention.n_heads a = Z.of_nat H /\
  Attention.head_dim a = Z.of_nat (D / H) /\
  (exists s, Attention.scale a = PyFloat s) /\
  Linear_ok D (D * 3) (Attention.qkv a) /\
  Dropout_ok (Attention.attn_drop a) /\
  Linear_ok D D (Attention.proj a) /\
  Dropout_ok (Attention.proj_drop a).

Definition MLP_ok (D Hd : nat) (m : MLP.t) : Prop :=
  Linear_ok D Hd (MLP.fc1 m) /\
  Linear_ok Hd D (MLP.fc2 m) /\
  Dropout_ok (MLP.drop m).

Definition Block_ok (D H : nat) (b : Block.t) : Prop :=
  LayerNorm_ok D (Block.norm1 b) /\
  Attention_ok D H (Block.attn b) /\
  LayerNorm_ok D (Block.norm2 b) /\
  exists Hd, MLP_ok D Hd (Block.mlp b).

(** A model for [C] input channels, width [E], patch size [k], [T] tokens,
    [H] heads and [NC] classes. *)
Definition VisionTransformer_ok (C E k T H NC : nat) (m : VisionTransformer.t)
  : Prop :=
  PatchEmbedding_ok C E k (VisionTransformer.patch_embed m) /\
  shaped [1; 1; E] (VisionTransformer.cls_token m) /\
  shaped [1; T; E] (VisionTransformer.pos_embed m) /\
  Dropout_ok (VisionTransformer.pos_drop m) /\
  Forall (Block_ok E H) (VisionTransformer.blocks m) /\
  LayerNorm_ok E (VisionTransformer.norm m) /\
  Linear_ok E NC (VisionTransformer.head m).

(** ** Patches as the specification describes them *)

(** The [k] by [k] tile of image [b] in row [i] and column [j] of the patch
    grid, over all [C] channels, flattened in (channel, row, column) order. *)
Definition tile (x : tensor) (C k b i j : nat) : tensor :=
  tabulate [C * k * k]
    (fun idx =>
       match unravel [C; k; k] (hd 0 idx) with
       | [c; u; v] => get x [b; c; i * k + u; j * k + v]
       | _ => f0
       end).

(** The convolution kernel read as the matrix of one linear layer from the
    [C * k * k] values of a tile to [E] features, with the same bias. *)
Definition projection_matrix (c : Conv2d.t) (E C k : nat) : Linear.t :=
  Linear.mk (mkTensor [E; C * k * k] (data (Conv2d.weight c)))
            (Some (Conv2d.bias c)).

(** ** The forward pass as the specification describes it *)

(** The classification token at position 0 of every sequence, the [N]
    patch embeddings after it. *)
Definition spec_tokens (cls patches : tensor) (B N E : nat) : tensor :=
  tabulate [B; 1 + N; E]
    (fun idx =>
       match idx with
       | [_; 0; e] => get cls [0; 0; e]
       | [b; S t; e] => get patches [b; t; e]
       | _ => f0
       end).

(** The positional embedding added to every sequence of the batch. *)
Definition spec_add_pos (pos tokens : tensor) (B T E : nat) : tensor :=
  tabulate [B; T; E]
    (fun idx =>
       match idx with
       | [b; t; e] => fadd (get tokens [b; t; e]) (get pos [0; t; e])
       | _ => f0
       end).

(** The token at position 0 of every sequence. *)
Definition spec_select_cls (x : tensor) (B E : nat) : tensor :=
  tabulate [B; E]
    (fun idx =>
       match idx with
       | [b; e] => get x [b; 0; e]
       | _ => f0
       end).

(** Patch embedding, classification token, positional embedding, dropout,
    the encoder blocks in list order, final normalisation, selection of the
    classification token, linear head. *)
Definition spec_forward (m : VisionTransformer.t) (x : tensor) (B N E : nat)
  : M tensor :=
  patches <- PatchEmbedding.forward (VisionTransformer.patch_embed m) x ;;
  embedded <- ret (spec_add_pos (VisionTransformer.pos_embed m)
                     (spec_tokens (VisionTransformer.cls_token m) patches B N E)
                     B (1 + N) E) ;;
  dropped <- Dropout.forward (VisionTransformer.pos_drop m) embedded ;;
  encoded <- fold_left (fun acc b => t <- acc ;; Block.forward b t)
               (VisionTransformer.blocks m) (ret dropped) ;;
  normed <- LayerNorm.forward (VisionTransformer.norm m) encoded ;;
  Linear.forward (VisionTransformer.head m) (spec_select_cls normed B E).

(** ** Inference mode *)

Definition Attention_inert (a : Attention.t) : Prop :=
  Dropout_inert (Attention.attn_drop a) /\ Dropout_inert (Attention.proj_drop a).

Definition Block_inert (b : Block.t) : Prop :=
  Attention_inert (Block.attn b) /\ Dropout_inert (MLP.drop (Block.mlp b)).

(** Every dropout layer of the model is inactive. *)
Definition inference_mode (m : VisionTransformer.t) : Prop :=
  Dropout_inert (VisionTransformer.pos_drop m) /\
  Forall Block_inert (VisionTransformer.blocks m).

(** ** Configurations *)

(** What the constructor needs to succeed on positive sizes: at most as many
    heads as features, a non-negative hidden width and admissible dropout
    probabilities.  Divisibility is not among it. *)
Definition sane_config (c : VisionTransformer.config) : Prop :=
  (0 < VisionTransformer.patch_size c)%Z /\
  (0 < VisionTransformer.img_size c)%Z /\
  (0 < VisionTransformer.in_channels c)%Z /\
  (0 < VisionTransformer.n_classes c)%Z /\
  (0 < VisionTransformer.n_heads c <= VisionTransformer.embed_dim c)%Z /\
  (0 <= py_int_mul (VisionTransformer.embed_dim c) (VisionTransformer.mlp_ratio c))%Z /\
  prob (VisionTransformer.p c) /\
  prob (VisionTransformer.attn_p c) /\
  prob (VisionTransformer.proj_p c).

(** A valid configuration: positive sizes, a patch size that divides the
    image size, a number of heads that divides the width, a non-negative
    hidden width and admissible dropout probabilities. *)
Definition valid_config (c : VisionTransformer.config) : Prop :=
  (0 < VisionTransformer.img_size c)%Z /\
  (0 < VisionTransformer.patch_size c)%Z /\
  (VisionTransformer.img_size c mod VisionTransformer.patch_size c = 0)%Z /\
  (0 < VisionTransformer.embed_dim c)%Z /\
  (0 < VisionTransformer.n_heads c)%Z /\
  (VisionTransformer.embed_dim c mod VisionTransformer.n_heads c = 0)%Z /\
  (0 < VisionTransformer.in_channels c)%Z /\
  (0 < VisionTransformer.n_classes c)%Z /\
  (0 <= py_int_mul (VisionTransformer.embed_dim c) (VisionTransformer.mlp_ratio c))%Z /\
  prob (VisionTransformer.p c) /\
  prob (VisionTransformer.attn_p c) /\
  prob (VisionTransformer.proj_p c).

(** The invariant of the model built from configuration [c]. *)
Definition built_from (c : VisionTransformer.config) (m : VisionTransformer.t)
  : Prop :=
  VisionTransformer_ok
    (Z.to_nat (VisionTransformer.in_channels c))
    (Z.to_nat (VisionTransformer.embed_dim c))
    (Z.to_nat (VisionTransformer.patch_size c))
    (Z.to_nat ((VisionTransformer.img_size c / VisionTransformer.patch_size c) ^ 2 + 1))
    (Z.to_nat (VisionTransformer.n_heads c))
    (Z.to_nat (VisionTransformer.n_classes c))
    m.

End Vocabulary.

(** * The model inside a process *)

Section Process.
Context {NM : Numerics}.

(** What a forward call can read and write: the module object with its
    parameters, and the generator. *)
Record process : Type := mkProcess {
  model : VisionTransformer.t;
  generator : RNG
}.

(** [model(x)].  The bodies of the [forward] methods assign to no attribute
    of [self] and use no in-place tensor operation, so the module object
    comes back as it went in; the generator is whatever the layers left. *)
Definition call (x : tensor) (w : process) : (exn + tensor) * process :=
  let (r, g') := VisionTransformer.forward (model w) x (generator w) in
  (r, mkProcess (model w) g').

End Process.

(** * An exact instance

    Integers for scalars and a counter for the generator: enough to run the
    constructors and [forward] on small inputs. *)

Definition ZNumerics : Numerics := {|
  scalar := Z;
  f0 := 0%Z;
  f1 := 1%Z;
  fadd := Z.add;
  fsub := Z.sub;
  fmul := Z.mul;
  fdiv := Z.div;
  fmax := Z.max;
  fexp := fun v => v;
  fsqrt := Z.sqrt;
  fgelu := fun v => v;
  of_nat := Z.of_nat;
  of_Q := Qfloor;
  ln_eps := 1%Z;
  py_pow_neg_half := fun _ => 1%Z;
  py_int_mul := fun n r => Qfloor (inject_Z n * r)%Q;
  RNG := nat;
  rng_sample := fun _ g => (Z.of_nat g, S g);
  rng_bernoulli := fun _ g => (Nat.even g, S g)
|}.

(** Scenario B of the specification. *)
Definition scenario_B : VisionTransformer.config :=
  VisionTransformer.mkConfig 32 8 3 10 64 2 4 4 true 0 0 0.

(** A small configuration with active dropout. *)
Definition small_config : VisionTransformer.config :=
  VisionTransformer.mkConfig 4 2 1 3 4 1 2 2 true (1 # 2) (1 # 4) (1 # 8).

(** Three heads for a width of ten. *)
Definition indivisible_config : VisionTransformer.config :=
  VisionTransformer.mkConfig 4 2 1 3 10 1 3 2 true 0 0 0.

(** A patch larger than the image. *)
Definition oversized_patch_config : VisionTransformer.config :=
  VisionTransformer.mkConfig 1 2 1 3 4 1 2 2 true 0 0 0.

(** A patch size that does not divide the image size. *)
Definition truncating_config : VisionTransformer.config :=
  VisionTransformer.mkConfig 5 2 1 3 4 1 2 2 true 0 0 0.
(** * The script

    [ViT.py] run as a program builds the model with its default arguments,
    draws one image of side 224 with three channels from [torch.randn] and
    prints the shape of what the model returns for it.  ([print(model)]
    writes the module tree and changes nothing.)  [main] is that run; its
    result is the shape printed last. *)

Section Script.
Context {NM : Numerics}.

Definition main : M (list nat) :=
  model <- VisionTransformer.init VisionTransformer.default_config ;;
  x <- new_param Randn [1; 3; 224; 224]%Z ;;
  y <- VisionTransformer.forward model x ;;
  ret (shape y).

End Script.

(** * More vocabulary *)

Section Samples.
Context {NM : Numerics}.

(** What [VisionTransformer.__init__] needs in order to return: sizes the
    allocator accepts, a patch size and, when a block is built, a number of
    heads by which [//] and [** -0.5] are defined, and dropout
    probabilities in range. *)
Definition constructible (c : VisionTransformer.config) : Prop :=
  (0 < VisionTransformer.patch_size c)%Z /\
  (0 <= VisionTransformer.in_channels c)%Z /\
  (0 <= VisionTransformer.embed_dim c)%Z /\
  (0 <= VisionTransformer.n_classes c)%Z /\
  prob (VisionTransformer.p c) /\
  ((0 < VisionTransformer.depth c)%Z ->
   VisionTransformer.n_heads c <> 0%Z /\
   (VisionTransformer.embed_dim c / VisionTransformer.n_heads c)%Z <> 0%Z /\
   prob (VisionTransformer.attn_p c) /\
   prob (VisionTransformer.proj_p c) /\
   (0 <= py_or (Some (py_int_mul (VisionTransformer.embed_dim c)
                                 (VisionTransformer.mlp_ratio c)))
               (VisionTransformer.embed_dim c))%Z).

(** Two tensors hold the same [d] elements in the row at position [p]. *)
Definition same_row (d : nat) (p : list nat) (x x' : tensor) : Prop :=
  forall n, n < d -> get x (p ++ [n]) = get x' (p ++ [n]).

(** Two batches hold the same elements in sample [b], a tensor of shape
    [sh]. *)
Definition same_sample (sh : list nat) (b : nat) (x x' : tensor) : Prop :=
  forall idx, in_bounds sh idx -> get x (b :: idx) = get x' (b :: idx).

(** Two runs of one computation, both on a batch of [B] samples: both
    return, whatever the generator, and the two results agree in sample
    [b]. *)
Definition sample_wise (B b : nat) (sh : list nat) (m m' : M tensor) : Prop :=
  exists y y',
    m = ret y /\ m' = ret y' /\
    shaped (B :: sh) y /\ shaped (B :: sh) y' /\
    same_sample sh b y y'.

End Samples.


(** * Facts about indexing *)

Section TensorFacts.
Context {NM : Numerics}.

Lemma numel_cons (d : nat) (sh : list nat) : numel (d :: sh) = d * numel sh.
Proof. reflexivity. Qed.

Lemma numel_app (a b : list nat) : numel (a ++ b) = numel a * numel b.
Proof.
  induction a as [|d a IH]; simpl.
  - lia.
  - rewrite IH. lia.
Qed.

Lemma ravel_lt (sh idx : list nat) :
  in_bounds sh idx -> ravel sh idx < numel sh.
Proof.
  intros H. induction H as [|i d idx sh Hi _ IH]; simpl.
  - lia.
  - nia.
Qed.

Lemma unravel_in_bounds (sh : list nat) (n : nat) :
  n < numel sh -> in_bounds sh (unravel sh n).
Proof.
  revert n. induction sh as [|d sh IH]; intros n Hn; simpl.
  - constructor.
  - rewrite numel_cons in Hn.
    assert (Hm : numel sh <> 0) by (intros E; rewrite E in Hn; lia).
    constructor.
    + apply Nat.Div0.div_lt_upper_bound. lia.
    + apply IH. apply Nat.mod_upper_bound. exact Hm.
Qed.

Lemma ravel_unravel (sh : list nat) (n : nat) :
  n < numel sh -> ravel sh (unravel sh n) = n.
Proof.
  revert n. induction sh as [|d sh IH]; intros n Hn; simpl in *.
  - lia.
  - assert (Hm : numel sh <> 0) by (intros E; rewrite E in Hn; lia).
    rewrite IH by (apply Nat.mod_upper_bound; exact Hm).
    pose proof (Nat.div_mod_eq n (numel sh)). lia.
Qed.

Lemma unravel_ravel (sh idx : list nat) :
  in_bounds sh idx -> unravel sh (ravel sh idx) = idx.
Proof.
  intros H. induction H as [|i d idx sh Hi Hrest IH]; simpl.
  - reflexivity.
  - pose proof (ravel_lt Hrest) as Hr.
    assert (Hm : numel sh <> 0) by lia.
    f_equal.
    + rewrite Nat.div_add_l by exact Hm.
      rewrite Nat.div_small by exact Hr. lia.
    + rewrite Nat.add_comm, Nat.Div0.mod_add.
      rewrite Nat.mod_small by exact Hr. exact IH.
Qed.

Lemma shape_tabulate (sh : list nat) (f : list nat -> scalar) :
  shape (tabulate sh f) = sh.
Proof. reflexivity. Qed.

Lemma wf_tabulate (sh : list nat) (f : list nat -> scalar) :
  wf (tabulate sh f).
Proof. unfold wf, tabulate; simpl. now rewrite length_map, length_seq. Qed.

Lemma get_tabulate (sh : list nat) (f : list nat -> scalar) (idx : list nat) :
  in_bounds sh idx -> get (tabulate sh f) idx = f idx.
Proof.
  intros H. unfold get, tabulate; simpl.
  pose proof (ravel_lt H) as Hr.
  rewrite nth_indep with (d' := f (unravel sh 0))
    by now rewrite length_map, length_seq.
  rewrite map_nth with (f := fun n => f (unravel sh n)).
  rewrite seq_nth by exact Hr. simpl.
  now rewrite unravel_ravel.
Qed.

End TensorFacts.

(** * Reasoning about computations in [M] *)

Section MonadFacts.
Context {NM : Numerics}.

Lemma returns_ret {A : Type} (a : A) (P : A -> Prop) :
  P a -> returns (ret a) P.
Proof. intros H g. exists a, g. split; [reflexivity | exact H]. Qed.

Lemma returns_bind {A B : Type} (m : M A) (k : A -> M B)
      (P : A -> Prop) (Q : B -> Prop) :
  returns m P -> (forall a, P a -> returns (k a) Q) -> returns (bind m k) Q.
Proof.
  intros Hm Hk g. destruct (Hm g) as (a & g1 & E & Ha).
  destruct (Hk a Ha g1) as (b & g2 & E2 & Hb).
  exists b, g2. unfold bind. rewrite E. split; assumption.
Qed.

Lemma bind_ret_l {A B : Type} (a : A) (k : A -> M B) : bind (ret a) k = k a.
Proof. reflexivity. Qed.

Lemma returns_inv {A : Type} (m : M A) (P : A -> Prop) (g g' : RNG) (a : A) :
  returns m P -> m g = (inr a, g') -> P a.
Proof.
  intros Hm E. destruct (Hm g) as (a' & g1 & E' & Ha).
  rewrite E in E'. inversion E'. now subst.
Qed.

Lemma fails_raise {A : Type} (e : exn) : fails (@raise _ A e) e.
Proof. intros g. reflexivity. Qed.

Lemma fails_raises {A : Type} (m : M A) (e : exn) : fails m e -> raises m e.
Proof. intros H g. exists g. apply H. Qed.

Lemma raises_bind {A B : Type} (m : M A) (k : A -> M B) (P : A -> Prop) (e : exn) :
  returns m P -> (forall a, P a -> raises (k a) e) -> raises (bind m k) e.
Proof.
  intros Hm Hk g. destruct (Hm g) as (a & g1 & E & Ha).
  destruct (Hk a Ha g1) as (g2 & E2).
  exists g2. unfold bind. now rewrite E.
Qed.

Lemma raises_bind_left {A B : Type} (m : M A) (k : A -> M B) (e : exn) :
  raises m e -> raises (bind m k) e.
Proof.
  intros Hm g. destruct (Hm g) as (g1 & E). exists g1.
  unfold bind. now rewrite E.
Qed.

Lemma bind_inv {A B : Type} (m : M A) (k : A -> M B) (g g2 : RNG) (b : B) :
  bind m k g = (inr b, g2) ->
  exists a g1, m g = (inr a, g1) /\ k a g1 = (inr b, g2).
Proof.
  unfold bind. destruct (m g) as [[e | a] g1]; intros E.
  - discriminate.
  - exists a, g1. split; [reflexivity | exact E].
Qed.

Lemma ret_inv {A : Type} (a b : A) (g g' : RNG) :
  ret a g = (inr b, g') -> a = b /\ g = g'.
Proof. unfold ret. intros E. inversion E. split; reflexivity. Qed.

Lemma pure_ret {A : Type} (a : A) : pure_comp (ret a).
Proof. exists (inr a). reflexivity. Qed.

Lemma pure_raise {A : Type} (e : exn) : pure_comp (@raise _ A e).
Proof. exists (inl e). reflexivity. Qed.

Lemma pure_bind {A B : Type} (m : M A) (k : A -> M B) :
  pure_comp m -> (forall a, pure_comp (k a)) -> pure_comp (bind m k).
Proof.
  intros [r Hm] Hk. destruct r as [e | a].
  - exists (inl e). intros g. unfold bind. now rewrite Hm.
  - destruct (Hk a) as [r' Hr']. exists r'. intros g.
    unfold bind. rewrite Hm. apply Hr'.
Qed.

Lemma replicateM_length {A : Type} (n : nat) (m : M A) :
  returns m (fun _ => True) ->
  returns (replicateM n m) (fun l => length l = n).
Proof.
  intros Hm. induction n as [|n IH]; simpl.
  - now apply returns_ret.
  - eapply returns_bind; [exact Hm | intros a _].
    eapply returns_bind; [exact IH | intros l Hl].
    apply returns_ret. simpl. now rewrite Hl.
Qed.

Lemma replicateM_Forall {A : Type} (n : nat) (m : M A) (P : A -> Prop) :
  returns m P ->
  returns (replicateM n m) (fun l => length l = n /\ Forall P l).
Proof.
  intros Hm. induction n as [|n IH]; simpl.
  - apply returns_ret. split; [reflexivity | constructor].
  - eapply returns_bind; [exact Hm | intros a Ha].
    eapply returns_bind; [exact IH | intros l [Hl HP]].
    apply returns_ret. split; [simpl; now rewrite Hl | now constructor].
Qed.

Lemma replicateM_inv {A : Type} (n : nat) (m : M A) (P : A -> Prop) :
  (forall g a g', m g = (inr a, g') -> P a) ->
  forall g l g', replicateM n m g = (inr l, g') -> length l = n /\ Forall P l.
Proof.
  intros Hm. induction n as [|n IH]; simpl; intros g l g' E.
  - apply ret_inv in E as [<- _]. split; [reflexivity | constructor].
  - apply bind_inv in E as (a & g1 & Ea & E).
    apply bind_inv in E as (l' & g2 & El & E).
    apply ret_inv in E as [<- _].
    destruct (IH _ _ _ El) as [Hlen HP].
    split; [simpl; now rewrite Hlen | constructor; eauto].
Qed.

Lemma sample_returns (k : init_kind) : returns (sample k) (fun _ => True).
Proof.
  intros g. unfold sample. destruct (rng_sample k g) as [v g'].
  exists v, g'. split; [reflexivity | exact I].
Qed.

Lemma bernoulli_returns (q : Q) : returns (bernoulli q) (fun _ => True).
Proof.
  intros g. unfold bernoulli. destruct (rng_bernoulli q g) as [v g'].
  exists v, g'. split; [reflexivity | exact I].
Qed.

End MonadFacts.

(** * The torch operators: shapes of results, and failures *)

Section OpFacts.
Context {NM : Numerics}.

Lemma shaped_tabulate (sh : list nat) (f : list nat -> scalar) :
  shaped sh (tabulate sh f).
Proof. split; [reflexivity | apply wf_tabulate]. Qed.

Lemma length_data_tabulate (sh : list nat) (f : list nat -> scalar) :
  length (data (tabulate sh f)) = numel sh.
Proof. exact (wf_tabulate sh f). Qed.

Lemma shaped_mk (sh : list nat) (l : list scalar) :
  length l = numel sh -> shaped sh (mkTensor sh l).
Proof. intros H. split; [reflexivity | exact H]. Qed.

Lemma shaped_length (sh : list nat) (x : tensor) :
  shaped sh x -> length (data x) = numel sh.
Proof. intros [Hs Hw]. unfold wf in Hw. now rewrite Hs in Hw. Qed.

Lemma shape_eqb_refl (l : list nat) : shape_eqb l l = true.
Proof.
  induction l as [|d l IH]; simpl; [reflexivity|].
  now rewrite Nat.eqb_refl, IH.
Qed.

(** ** [reshape] *)

Lemma infer_shape_nonneg (n : nat) (target : list Z) :
  Forall (fun d => (0 <= d)%Z) target ->
  infer_shape n target =
    if numel (map Z.to_nat target) =? n then Some (map Z.to_nat target) else None.
Proof.
  intros H. unfold infer_shape.
  assert (E1 : existsb (fun d => (d <? -1)%Z) target = false).
  { induction H as [|d l Hd _ IH]; simpl; [reflexivity|].
    rewrite IH. replace (d <? -1)%Z with false; [reflexivity|].
    symmetry. apply Z.ltb_ge. lia. }
  assert (E2 : count_occ Z.eq_dec target (-1)%Z = 0).
  { apply count_occ_not_In. intros Hin.
    rewrite Forall_forall in H. apply H in Hin. lia. }
  now rewrite E1, E2.
Qed.

Lemma reshape_returns (x : tensor) (sh : list nat) (target : list Z) :
  shaped sh x ->
  Forall (fun d => (0 <= d)%Z) target ->
  numel (map Z.to_nat target) = numel sh ->
  returns (reshape x target) (shaped (map Z.to_nat target)).
Proof.
  intros Hx Hnn Hn. unfold reshape.
  destruct Hx as [Hs Hw]. rewrite Hs.
  rewrite infer_shape_nonneg by exact Hnn.
  rewrite Hn, Nat.eqb_refl.
  apply returns_ret, shaped_mk. unfold wf in Hw. now rewrite Hw, Hs.
Qed.

Lemma reshape_fails (x : tensor) (target : list Z) :
  Forall (fun d => (0 <= d)%Z) target ->
  numel (map Z.to_nat target) <> numel (shape x) ->
  fails (reshape x target) RuntimeError.
Proof.
  intros Hnn Hn. unfold reshape.
  rewrite infer_shape_nonneg by exact Hnn.
  apply Nat.eqb_neq in Hn. rewrite Hn. apply fails_raise.
Qed.

(** ** [permute], [transpose], [flatten], [select] *)

Lemma permute_returns (x : tensor) (sh perm : list nat) :
  shape x = sh ->
  is_perm (length sh) perm = true ->
  returns (permute x perm) (shaped (map (fun p => nth p sh 0) perm)).
Proof.
  intros Hs Hp. unfold permute, rank. rewrite Hs, Hp.
  apply returns_ret, shaped_tabulate.
Qed.

Lemma transpose_returns (x : tensor) (sh : list nat) (d0 d1 : Z) (i j : nat) :
  shape x = sh ->
  normalize_dim (length sh) d0 = Some i ->
  normalize_dim (length sh) d1 = Some j ->
  returns (transpose x d0 d1) (shaped (swap i j sh)).
Proof.
  intros Hs H0 H1. unfold transpose, rank. rewrite Hs, H0, H1.
  apply returns_ret, shaped_tabulate.
Qed.

Lemma flatten_returns (x : tensor) (sh : list nat) (start : nat) :
  shaped sh x ->
  start < length sh ->
  returns (flatten x start)
          (shaped (firstn start sh ++ [numel (skipn start sh)])).
Proof.
  intros Hx Hlt. unfold flatten, rank.
  pose proof (shaped_length Hx) as Hlen. destruct Hx as [Hs _]. rewrite Hs.
  apply Nat.ltb_lt in Hlt. rewrite Hlt.
  apply returns_ret, shaped_mk.
  rewrite numel_app. simpl. rewrite Nat.mul_1_r, <- numel_app, firstn_skipn.
  exact Hlen.
Qed.

Lemma select_returns (x : tensor) (sh : list nat) (dim i : nat) :
  shape x = sh ->
  dim < length sh ->
  i < nth dim sh 0 ->
  returns (select x dim i) (shaped (remove_at dim sh)).
Proof.
  intros Hs Hd Hi. unfold select, rank. rewrite Hs.
  apply Nat.ltb_lt in Hd, Hi. rewrite Hd, Hi. simpl.
  apply returns_ret, shaped_tabulate.
Qed.

(** ** [cat] and [expand], as the model uses them *)

Lemma cat_returns_dim1 (a b : tensor) (n ta tb e : nat) :
  shape a = [n; ta; e] ->
  shape b = [n; tb; e] ->
  returns (cat a b 1) (shaped [n; ta + tb; e]).
Proof.
  intros Ha Hb. unfold cat, rank. rewrite Ha, Hb. simpl.
  rewrite !Nat.eqb_refl. simpl.
  apply returns_ret, shaped_tabulate.
Qed.

Lemma expand_batch_returns (x : tensor) (e n : nat) :
  shape x = [1; 1; e] ->
  returns (expand x [Z.of_nat n; -1; -1]%Z) (shaped [n; 1; e]).
Proof.
  intros Hs. unfold expand. rewrite Hs. simpl.
  replace (Z.of_nat n =? -1)%Z with false by (symmetry; apply Z.eqb_neq; lia).
  replace (Z.of_nat n <? 0)%Z with false by (symmetry; apply Z.ltb_ge; lia).
  rewrite orb_true_r. simpl. rewrite Nat2Z.id.
  apply returns_ret, shaped_tabulate.
Qed.

(** ** Broadcasting and [tadd] *)

Lemma broadcast_rev_same (l : list nat) : broadcast_rev l l = Some l.
Proof.
  induction l as [|d l IH]; simpl; [reflexivity|].
  now rewrite Nat.eqb_refl, IH.
Qed.

Lemma broadcast_shapes_same (sh : list nat) : broadcast_shapes sh sh = Some sh.
Proof.
  unfold broadcast_shapes. rewrite broadcast_rev_same. simpl.
  now rewrite rev_involutive.
Qed.

Lemma broadcast_rev_batch (l : list nat) (n : nat) :
  broadcast_rev (l ++ [n]) (l ++ [1]) = Some (l ++ [n]).
Proof.
  induction l as [|d l IH]; simpl.
  - destruct (n =? 1) eqn:E; [|reflexivity].
    apply Nat.eqb_eq in E. now subst.
  - now rewrite Nat.eqb_refl, IH.
Qed.

Lemma broadcast_shapes_batch (n : nat) (sh : list nat) :
  broadcast_shapes (n :: sh) (1 :: sh) = Some (n :: sh).
Proof.
  unfold broadcast_shapes. simpl. rewrite broadcast_rev_batch. simpl.
  now rewrite rev_app_distr, rev_involutive.
Qed.

Lemma tadd_returns (a b : tensor) (sh : list nat) :
  shape a = sh -> shape b = sh -> returns (tadd a b) (shaped sh).
Proof.
  intros Ha Hb. unfold tadd. rewrite Ha, Hb, broadcast_shapes_same.
  apply returns_ret, shaped_tabulate.
Qed.

Lemma tadd_batch_returns (a b : tensor) (n : nat) (sh : list nat) :
  shape a = n :: sh -> shape b = 1 :: sh -> returns (tadd a b) (shaped (n :: sh)).
Proof.
  intros Ha Hb. unfold tadd. rewrite Ha, Hb, broadcast_shapes_batch.
  apply returns_ret, shaped_tabulate.
Qed.

(** ** Element-wise operators *)

Lemma mul_scalar_shaped (x : tensor) (s : scalar) (sh : list nat) :
  shaped sh x -> shaped sh (mul_scalar x s).
Proof.
  intros Hx. pose proof (shaped_length Hx) as Hl. destruct Hx as [Hs _].
  unfold mul_scalar. rewrite Hs. apply shaped_mk. now rewrite length_map.
Qed.

Lemma gelu_shaped (x : tensor) (sh : list nat) :
  shaped sh x -> shaped sh (gelu x).
Proof.
  intros Hx. pose proof (shaped_length Hx) as Hl. destruct Hx as [Hs _].
  unfold gelu. rewrite Hs. apply shaped_mk. now rewrite length_map.
Qed.

Lemma softmax_last_shaped (x : tensor) (sh : list nat) :
  shape x = sh -> shaped sh (softmax_last x).
Proof. intros Hs. unfold softmax_last. rewrite Hs. apply shaped_tabulate. Qed.

(** ** [matmul] on operands with the same batch dimensions *)

Lemma matmul_returns (a b : tensor) (batch : list nat) (n m p : nat) :
  shape a = batch ++ [n; m] ->
  shape b = batch ++ [m; p] ->
  returns (matmul a b) (shaped (batch ++ [n; p])).
Proof.
  intros Ha Hb. unfold matmul, rank. rewrite Ha, Hb.
  destruct (batch ++ [n; m]) as [|a0 sa] eqn:Ea.
  { destruct batch; discriminate. }
  destruct (batch ++ [m; p]) as [|b0 sb] eqn:Eb.
  { destruct batch; discriminate. }
  rewrite <- Ea, <- Eb.
  assert (La : length (batch ++ [n; m]) = length batch + 2)
    by (rewrite length_app; reflexivity).
  assert (Lb : length (batch ++ [m; p]) = length batch + 2)
    by (rewrite length_app; reflexivity).
  replace (length (batch ++ [n; m]) =? 1) with false
    by (symmetry; apply Nat.eqb_neq; lia).
  replace (length (batch ++ [m; p]) =? 1) with false
    by (symmetry; apply Nat.eqb_neq; lia).
  cbv zeta.
  replace (length (batch ++ [n; m]) - 2) with (length batch) by lia.
  replace (length (batch ++ [m; p]) - 2) with (length batch) by lia.
  rewrite !firstn_app, !Nat.sub_diag, !firstn_all. simpl firstn.
  rewrite !app_nil_r.
  rewrite (app_nth2 batch [n; m] 0 (n := S (length batch))) by lia.
  rewrite (app_nth2 batch [m; p] 0 (n := length batch)) by lia.
  rewrite (app_nth2 batch [n; m] 0 (n := length batch)) by lia.
  rewrite (app_nth2 batch [m; p] 0 (n := S (length batch))) by lia.
  replace (S (length batch) - length batch) with 1 by lia.
  rewrite Nat.sub_diag. simpl nth.
  rewrite Nat.eqb_refl. simpl negb. cbv iota.
  rewrite broadcast_shapes_same.
  apply returns_ret. apply shaped_mk. simpl app.
  apply length_data_tabulate.
Qed.

End OpFacts.

(** * The [torch.nn] layers *)

Section LayerFacts.
Context {NM : Numerics}.

Lemma new_param_returns (k : init_kind) (sizes : list Z) :
  Forall (fun d => (0 <= d)%Z) sizes ->
  returns (new_param k sizes) (shaped (map Z.to_nat sizes)).
Proof.
  intros H. unfold new_param.
  assert (E : existsb (fun d => (d <? 0)%Z) sizes = false).
  { induction H as [|d l Hd _ IH]; simpl; [reflexivity|].
    rewrite IH. replace (d <? 0)%Z with false; [reflexivity|].
    symmetry. apply Z.ltb_ge. lia. }
  rewrite E.
  eapply returns_bind.
  - apply replicateM_length, sample_returns.
  - intros l Hl. apply returns_ret, shaped_mk. exact Hl.
Qed.

Lemma new_param_inv (k : init_kind) (sizes : list Z) (g g' : RNG) (t : tensor) :
  new_param k sizes g = (inr t, g') -> shaped (map Z.to_nat sizes) t.
Proof.
  unfold new_param. destruct (existsb _ sizes); [discriminate|].
  intros E. apply bind_inv in E as (l & g1 & El & E).
  apply ret_inv in E as [<- _].
  apply replicateM_inv with (P := fun _ : scalar => True) in El as [Hl _]; [|auto].
  now apply shaped_mk.
Qed.

(** ** [nn.Dropout] *)

Lemma Dropout_init_returns (p : Q) :
  Qle_bool 0 p = true -> Qle_bool p 1 = true ->
  returns (Dropout.init p)
          (fun d => Dropout_ok d /\ Dropout.p d = p /\ Dropout.training d = true).
Proof.
  intros H0 H1. unfold Dropout.init. rewrite H0, H1. simpl.
  apply returns_ret. repeat split; assumption.
Qed.

Lemma Dropout_init_inv (p : Q) (g g' : RNG) (d : Dropout.t) :
  Dropout.init p g = (inr d, g') ->
  Dropout_ok d /\ Dropout.p d = p /\ Dropout.training d = true.
Proof.
  unfold Dropout.init.
  destruct (Qle_bool 0 p) eqn:H0; destruct (Qle_bool p 1) eqn:H1; simpl;
    try discriminate.
  intros E. apply ret_inv in E as [<- _]. repeat split; assumption.
Qed.

Lemma Dropout_forward_returns (d : Dropout.t) (x : tensor) (sh : list nat) :
  Dropout_ok d -> shaped sh x ->
  returns (Dropout.forward d x) (shaped sh).
Proof.
  intros [H0 H1] Hx. unfold Dropout.forward. rewrite H0, H1. simpl.
  destruct (negb (Dropout.training d) || Qeq_bool (Dropout.p d) 0
            || (numel (shape x) =? 0)).
  - now apply returns_ret.
  - destruct (Qeq_bool (Dropout.p d) 1).
    + apply returns_ret. now apply mul_scalar_shaped.
    + eapply returns_bind.
      * apply replicateM_length, bernoulli_returns.
      * intros mask Hm. apply returns_ret.
        pose proof (shaped_length Hx) as Hl. destruct Hx as [Hs _].
        rewrite Hs. apply shaped_mk.
        rewrite length_map, length_combine, Hm, Nat.min_id. exact Hl.
Qed.

Lemma Dropout_forward_pure (d : Dropout.t) (x : tensor) :
  Dropout_inert d -> pure_comp (Dropout.forward d x).
Proof.
  intros Hi. unfold Dropout.forward.
  destruct (negb (Qle_bool 0 (Dropout.p d)) || negb (Qle_bool (Dropout.p d) 1)).
  - apply pure_raise.
  - replace (negb (Dropout.training d) || Qeq_bool (Dropout.p d) 0
             || (numel (shape x) =? 0)) with true.
    + apply pure_ret.
    + destruct Hi as [Ht | Hp]; [rewrite Ht | rewrite Hp]; simpl;
        now rewrite ?orb_true_r.
Qed.

(** With probability zero the layer returns its input, whatever the mode. *)
Lemma Dropout_forward_p0 (d : Dropout.t) (x : tensor) (g : RNG) :
  Dropout.p d = 0%Q -> Dropout.forward d x g = (inr x, g).
Proof.
  intros Hp. unfold Dropout.forward. rewrite Hp. simpl.
  now rewrite orb_true_r.
Qed.

(** ** [nn.Linear] *)

Lemma Linear_init_returns (i o : nat) (with_bias : bool) :
  returns (Linear.init (Z.of_nat i) (Z.of_nat o) with_bias) (Linear_ok i o).
Proof.
  unfold Linear.init.
  eapply returns_bind.
  - apply new_param_returns. repeat constructor; lia.
  - intros w Hw. simpl in Hw. rewrite !Nat2Z.id in Hw.
    destruct with_bias.
    + eapply returns_bind.
      * apply new_param_returns. repeat constructor; lia.
      * intros b Hb. simpl in Hb. rewrite Nat2Z.id in Hb.
        apply returns_ret. split; assumption.
    + apply returns_ret. split; [assumption | exact I].
Qed.

Lemma Linear_forward_returns (l : Linear.t) (x : tensor) (i o : nat)
      (pre : list nat) :
  Linear_ok i o l ->
  shape x = pre ++ [i] ->
  returns (Linear.forward l x) (shaped (pre ++ [o])).
Proof.
  intros [[Hw _] Hb] Hs. unfold Linear.forward.
  rewrite Hw, Hs, rev_unit, Nat.eqb_refl. simpl negb. cbv iota.
  rewrite removelast_last.
  destruct (Linear.bias l) as [b|].
  - destruct Hb as [Hb _]. rewrite Hb, shape_eqb_refl. simpl.
    apply returns_ret, shaped_tabulate.
  - apply returns_ret, shaped_tabulate.
Qed.

Lemma Linear_forward_mismatch (l : Linear.t) (x : tensor) (i o d : nat)
      (pre : list nat) :
  Linear_ok i o l ->
  shape x = pre ++ [d] ->
  d <> i ->
  fails (Linear.forward l x) RuntimeError.
Proof.
  intros [[Hw _] _] Hs Hd. unfold Linear.forward.
  rewrite Hw, Hs, rev_unit.
  apply Nat.eqb_neq in Hd. rewrite Hd. simpl. apply fails_raise.
Qed.

(** ** [nn.LayerNorm] *)

Lemma LayerNorm_init_returns (d : nat) :
  returns (LayerNorm.init (Z.of_nat d)) (LayerNorm_ok d).
Proof.
  unfold LayerNorm.init.
  replace (Z.of_nat d <? 0)%Z with false by (symmetry; apply Z.ltb_ge; lia).
  apply returns_ret. rewrite Nat2Z.id.
  repeat split; try apply shaped_tabulate; apply wf_tabulate.
Qed.

Lemma LayerNorm_forward_returns (n : LayerNorm.t) (x : tensor) (d : nat)
      (pre : list nat) :
  LayerNorm_ok d n ->
  shaped (pre ++ [d]) x ->
  returns (LayerNorm.forward n x) (shaped (pre ++ [d])).
Proof.
  intros (Hn & [Hw _] & [Hb _]) [Hs _]. unfold LayerNorm.forward.
  rewrite Hs, rev_unit, Hn, Hw, Hb, Z.eqb_refl, shape_eqb_refl. simpl.
  apply returns_ret, shaped_tabulate.
Qed.

(** ** [nn.Conv2d] *)

Lemma Conv2d_init_returns (C E k : nat) :
  returns (Conv2d.init (Z.of_nat C) (Z.of_nat E) (Z.of_nat k) (Z.of_nat k))
          (Conv2d_ok C E k).
Proof.
  unfold Conv2d.init.
  eapply returns_bind.
  - apply new_param_returns. repeat constructor; lia.
  - intros w Hw. simpl in Hw. rewrite !Nat2Z.id in Hw.
    eapply returns_bind.
    + apply new_param_returns. repeat constructor; lia.
    + intros b Hb. simpl in Hb. rewrite Nat2Z.id in Hb.
      apply returns_ret. repeat split; try apply Hw; apply Hb.
Qed.

Lemma Conv2d_forward_returns (c : Conv2d.t) (x : tensor) (C E k B H W : nat) :
  Conv2d_ok C E k c ->
  0 < k -> k <= H -> k <= W ->
  shape x = [B; C; H; W] ->
  returns (Conv2d.forward c x)
          (shaped [B; E; (H - k) / k + 1; (W - k) / k + 1]).
Proof.
  intros ([Hw _] & [Hb _] & Hst) Hk HH HW Hs.
  unfold Conv2d.forward. rewrite Hs. unfold Conv2d.conv_batched.
  rewrite Hw, Hs, Hst, Hb.
  replace (Z.of_nat k <=? 0)%Z with false by (symmetry; apply Z.leb_gt; lia).
  rewrite Nat.eqb_refl, shape_eqb_refl.
  replace (H <? k) with false by (symmetry; apply Nat.ltb_ge; lia).
  replace (W <? k) with false by (symmetry; apply Nat.ltb_ge; lia).
  simpl. rewrite Nat2Z.id.
  apply returns_ret, shaped_tabulate.
Qed.

(** An image smaller than the kernel is refused. *)
Lemma Conv2d_forward_small (c : Conv2d.t) (x : tensor) (C E k B H W : nat) :
  Conv2d_ok C E k c ->
  H < k ->
  shape x = [B; C; H; W] ->
  fails (Conv2d.forward c x) RuntimeError.
Proof.
  intros ([Hw _] & _ & Hst) HH Hs.
  unfold Conv2d.forward. rewrite Hs. unfold Conv2d.conv_batched.
  rewrite Hw, Hs, Hst.
  destruct (Z.of_nat k <=? 0)%Z; [apply fails_raise|].
  apply Nat.ltb_lt in HH. rewrite HH. rewrite orb_true_r. simpl.
  apply fails_raise.
Qed.

End LayerFacts.

(** * The classes of [ViT.py]: results of [forward] *)

Section ClassFacts.
Context {NM : Numerics}.

Lemma div_sub_self (s k : nat) : 0 < k -> k <= s -> (s - k) / k + 1 = s / k.
Proof.
  intros Hk Hle.
  replace s with ((s - k) + 1 * k) at 2 by lia.
  rewrite Nat.div_add by lia. reflexivity.
Qed.

(** ** [PatchEmbedding] *)

Lemma PatchEmbedding_forward_returns (pe : PatchEmbedding.t) (x : tensor)
      (C E k B sz : nat) :
  PatchEmbedding_ok C E k pe ->
  0 < k -> k <= sz ->
  shaped [B; C; sz; sz] x ->
  returns (PatchEmbedding.forward pe x) (shaped [B; (sz / k) * (sz / k); E]).
Proof.
  intros Hpe Hk HS [Hs _]. unfold PatchEmbedding.forward.
  eapply returns_bind.
  { eapply Conv2d_forward_returns; eauto. }
  intros y Hy. rewrite div_sub_self in Hy by assumption.
  eapply returns_bind.
  { eapply flatten_returns with (start := 2); [exact Hy | simpl; lia]. }
  intros z Hz. cbn [firstn skipn app numel fold_right] in Hz.
  rewrite Nat.mul_1_r in Hz.
  eapply returns_bind.
  { eapply transpose_returns with (i := 1) (j := 2);
      [apply Hz | reflexivity | reflexivity]. }
  intros w Hw. apply returns_ret. exact Hw.
Qed.

Lemma PatchEmbedding_forward_small (pe : PatchEmbedding.t) (x : tensor)
      (C E k B sz : nat) :
  PatchEmbedding_ok C E k pe ->
  sz < k ->
  shape x = [B; C; sz; sz] ->
  raises (PatchEmbedding.forward pe x) RuntimeError.
Proof.
  intros Hpe HS Hs. unfold PatchEmbedding.forward.
  apply raises_bind_left, fails_raises.
  eapply Conv2d_forward_small; eauto.
Qed.

(** ** [Attention] *)

(** The steps of [Attention.forward] up to the packed projection. *)
Lemma Attention_forward_unfold (a : Attention.t) (x : tensor) (B T D : nat) :
  shape x = [B; T; D] ->
  Attention.dim a = Z.of_nat D ->
  Attention.forward a x =
    (qkv_ <- Linear.forward (Attention.qkv a) x ;;
     qkv_ <- reshape qkv_ [Z.of_nat B; Z.of_nat T; 3%Z;
                           Attention.n_heads a; Attention.head_dim a] ;;
     qkv_ <- permute qkv_ [2; 0; 3; 1; 4] ;;
     q <- select qkv_ 0 0 ;;
     k <- select qkv_ 0 1 ;;
     v <- select qkv_ 0 2 ;;
     k_t <- transpose k (-2) (-1) ;;
     qk <- matmul q k_t ;;
     dp <- match Attention.scale a with
           | PyFloat s => ret (mul_scalar qk s)
           | PyComplex => raise RuntimeError
           end ;;
     attn <- ret (softmax_last dp) ;;
     attn <- Dropout.forward (Attention.attn_drop a) attn ;;
     weighted_avg <- matmul attn v ;;
     weighted_avg <- transpose weighted_avg 1 2 ;;
     weighted_avg <- reshape weighted_avg [Z.of_nat B; Z.of_nat T; Z.of_nat D] ;;
     x <- Linear.forward (Attention.proj a) weighted_avg ;;
     x <- Dropout.forward (Attention.proj_drop a) x ;;
     ret x).
Proof.
  intros Hs Hd. unfold Attention.forward. rewrite Hs, Hd, Z.eqb_refl.
  reflexivity.
Qed.

Lemma Attention_forward_returns (a : Attention.t) (x : tensor) (B T D H : nat) :
  Attention_ok D H a ->
  D = H * (D / H) ->
  shaped [B; T; D] x ->
  returns (Attention.forward a x) (shaped [B; T; D]).
Proof.
  intros (Hdim & Hnh & Hhd & [s Hsc] & Hqkv & Had & Hproj & Hpd) Hdiv [Hs Hw].
  rewrite (Attention_forward_unfold a x Hs Hdim).
  rewrite Hnh, Hhd, Hsc.
  set (hd := D / H) in *.
  eapply returns_bind.
  { eapply Linear_forward_returns with (pre := [B; T]); eauto. }
  intros y1 Hy1. cbn [app] in Hy1.
  eapply returns_bind.
  { eapply reshape_returns; [exact Hy1 | repeat constructor; lia |].
    cbn [map numel fold_right]. rewrite !Nat2Z.id.
    change (Z.to_nat 3) with 3. nia. }
  intros y2 Hy2. cbn [map] in Hy2. rewrite !Nat2Z.id in Hy2.
  change (Z.to_nat 3) with 3 in Hy2.
  eapply returns_bind.
  { eapply permute_returns; [apply Hy2 | reflexivity]. }
  intros y3 Hy3. cbn [map nth] in Hy3.
  eapply returns_bind.
  { eapply select_returns; [apply Hy3 | simpl; lia | simpl; lia]. }
  intros q Hq. cbn [remove_at firstn skipn app] in Hq.
  eapply returns_bind.
  { eapply select_returns; [apply Hy3 | simpl; lia | simpl; lia]. }
  intros k Hk. cbn [remove_at firstn skipn app] in Hk.
  eapply returns_bind.
  { eapply select_returns; [apply Hy3 | simpl; lia | simpl; lia]. }
  intros v Hv. cbn [remove_at firstn skipn app] in Hv.
  eapply returns_bind.
  { eapply transpose_returns with (i := 2) (j := 3);
      [apply Hk | reflexivity | reflexivity]. }
  intros kt Hkt. cbn in Hkt.
  eapply returns_bind.
  { eapply matmul_returns with (batch := [B; H]); [apply Hq | apply Hkt]. }
  intros qk Hqk. cbn [app] in Hqk.
  eapply returns_bind.
  { apply returns_ret. apply mul_scalar_shaped. exact Hqk. }
  intros dp Hdp.
  eapply returns_bind.
  { apply returns_ret. apply softmax_last_shaped. apply Hdp. }
  intros at1 Hat1.
  eapply returns_bind.
  { eapply Dropout_forward_returns; eauto. }
  intros at2 Hat2.
  eapply returns_bind.
  { eapply matmul_returns with (batch := [B; H]); [apply Hat2 | apply Hv]. }
  intros wa Hwa. cbn [app] in Hwa.
  eapply returns_bind.
  { eapply transpose_returns with (i := 1) (j := 2);
      [apply Hwa | reflexivity | reflexivity]. }
  intros wt Hwt. cbn in Hwt.
  eapply returns_bind.
  { eapply reshape_returns; [exact Hwt | repeat constructor; lia |].
    cbn [map numel fold_right]. rewrite !Nat2Z.id. nia. }
  intros wr Hwr. cbn [map] in Hwr. rewrite !Nat2Z.id in Hwr.
  eapply returns_bind.
  { eapply Linear_forward_returns with (pre := [B; T]); [exact Hproj | apply Hwr]. }
  intros y Hy. cbn [app] in Hy.
  eapply returns_bind.
  { eapply Dropout_forward_returns; eauto. }
  intros z Hz. now apply returns_ret.
Qed.

(** When [H] does not divide [D], the packed projection has [3 * D]
    features per token and the requested view has [3 * H * (D / H)]. *)
Lemma Attention_forward_indivisible (a : Attention.t) (x : tensor)
      (B T D H : nat) :
  Attention_ok D H a ->
  D <> H * (D / H) ->
  0 < B -> 0 < T ->
  shaped [B; T; D] x ->
  raises (Attention.forward a x) RuntimeError.
Proof.
  intros (Hdim & Hnh & Hhd & _ & Hqkv & _) Hdiv HB HT [Hs Hw].
  rewrite (Attention_forward_unfold a x Hs Hdim).
  rewrite Hnh, Hhd.
  set (hd := D / H) in *.
  eapply raises_bind.
  { eapply Linear_forward_returns with (pre := [B; T]); eauto. }
  intros y1 [Hy1 _]. cbn [app] in Hy1.
  apply raises_bind_left, fails_raises.
  apply reshape_fails; [repeat constructor; lia|].
  rewrite Hy1. cbn [map numel fold_right]. rewrite !Nat2Z.id.
  change (Z.to_nat 3) with 3.
  intros E. apply Hdiv.
  rewrite !Nat.mul_1_r in E.
  apply Nat.mul_cancel_l in E; [|lia].
  apply Nat.mul_cancel_l in E; [|lia].
  lia.
Qed.

(** The guard at the top of [Attention.forward]. *)
Lemma Attention_forward_mismatch (a : Attention.t) (x : tensor) (B T d : nat) :
  shape x = [B; T; d] ->
  Z.of_nat d <> Attention.dim a ->
  fails (Attention.forward a x) ValueError.
Proof.
  intros Hs Hd g. unfold Attention.forward. rewrite Hs.
  apply Z.eqb_neq in Hd. now rewrite Hd.
Qed.

(** ** [MLP] *)

Lemma MLP_forward_returns (m : MLP.t) (x : tensor) (D Hd : nat) (pre : list nat) :
  MLP_ok D Hd m ->
  shaped (pre ++ [D]) x ->
  returns (MLP.forward m x) (shaped (pre ++ [D])).
Proof.
  intros (H1 & H2 & Hdr) [Hs _]. unfold MLP.forward.
  eapply returns_bind.
  { eapply Linear_forward_returns; eauto. }
  intros y1 Hy1.
  eapply returns_bind.
  { apply returns_ret. apply gelu_shaped. exact Hy1. }
  intros y2 Hy2.
  eapply returns_bind.
  { eapply Dropout_forward_returns; eauto. }
  intros y3 Hy3.
  eapply returns_bind.
  { eapply Linear_forward_returns; [exact H2 | apply Hy3]. }
  intros y4 Hy4.
  eapply returns_bind.
  { eapply Dropout_forward_returns; eauto. }
  intros y5 Hy5. now apply returns_ret.
Qed.

(** ** [Block] *)

Lemma Block_forward_returns (b : Block.t) (x : tensor) (B T D H : nat) :
  Block_ok D H b ->
  D = H * (D / H) ->
  shaped [B; T; D] x ->
  returns (Block.forward b x) (shaped [B; T; D]).
Proof.
  intros (Hn1 & Ha & Hn2 & [Hd Hm]) Hdiv Hx. unfold Block.forward.
  eapply returns_bind.
  { eapply LayerNorm_forward_returns with (pre := [B; T]); eauto. }
  intros n1 Hn1x. cbn [app] in Hn1x.
  eapply returns_bind.
  { eapply Attention_forward_returns; eauto. }
  intros a1 Ha1.
  eapply returns_bind.
  { eapply tadd_returns; [apply Hx | apply Ha1]. }
  intros x1 Hx1.
  eapply returns_bind.
  { eapply LayerNorm_forward_returns with (pre := [B; T]); eauto. }
  intros n2 Hn2x.
  eapply returns_bind.
  { eapply MLP_forward_returns with (pre := [B; T]); eauto. }
  intros m1 Hm1. cbn [app] in Hm1.
  eapply returns_bind.
  { eapply tadd_returns; [apply Hx1 | apply Hm1]. }
  intros x2 Hx2. now apply returns_ret.
Qed.

(** ** The encoder stack *)

Lemma run_blocks_returns (bs : list Block.t) (x : tensor) (B T D H : nat) :
  Forall (Block_ok D H) bs ->
  D = H * (D / H) ->
  shaped [B; T; D] x ->
  returns (VisionTransformer.run_blocks bs x) (shaped [B; T; D]).
Proof.
  intros Hbs Hdiv. revert x.
  induction Hbs as [|b bs Hb _ IH]; intros x Hx; simpl.
  - now apply returns_ret.
  - eapply returns_bind.
    + eapply Block_forward_returns; eauto.
    + intros y Hy. now apply IH.
Qed.

(** ** [VisionTransformer] *)

Lemma VisionTransformer_forward_returns (m : VisionTransformer.t) (x : tensor)
      (C E k T H NC B sz : nat) :
  VisionTransformer_ok C E k T H NC m ->
  T = 1 + (sz / k) * (sz / k) ->
  0 < k -> k <= sz ->
  E = H * (E / H) ->
  shaped [B; C; sz; sz] x ->
  returns (VisionTransformer.forward m x) (shaped [B; NC]).
Proof.
  intros (Hpe & Hcls & Hpos & Hpd & Hbs & Hn & Hh) HT Hk HS Hdiv Hx.
  unfold VisionTransformer.forward. rewrite (proj1 Hx), bind_ret_l.
  eapply returns_bind.
  { eapply PatchEmbedding_forward_returns; eauto. }
  intros y1 Hy1.
  eapply returns_bind.
  { eapply expand_batch_returns. apply Hcls. }
  intros c1 Hc1.
  eapply returns_bind.
  { eapply cat_returns_dim1; [apply Hc1 | apply Hy1]. }
  intros y2 Hy2. rewrite <- HT in Hy2.
  eapply returns_bind.
  { eapply tadd_batch_returns; [apply Hy2 | apply Hpos]. }
  intros y3 Hy3.
  eapply returns_bind.
  { eapply Dropout_forward_returns; eauto. }
  intros y4 Hy4.
  eapply returns_bind.
  { eapply run_blocks_returns; eauto. }
  intros z1 Hz1.
  eapply returns_bind.
  { eapply LayerNorm_forward_returns with (pre := [B; T]); eauto. }
  intros z2 Hz2. cbn [app] in Hz2.
  eapply returns_bind.
  { eapply select_returns; [apply Hz2 | simpl; lia | simpl; lia]. }
  intros z3 Hz3. cbn [remove_at firstn skipn app] in Hz3.
  eapply returns_bind.
  { eapply Linear_forward_returns with (pre := [B]); [exact Hh | apply Hz3]. }
  intros z4 Hz4. now apply returns_ret.
Qed.

End ClassFacts.

(** * The constructors *)

Section InitFacts.
Context {NM : Numerics}.

Lemma prob_zero : prob 0.
Proof. split; reflexivity. Qed.

Lemma PatchEmbedding_init_returns (img : Z) (k C E : nat) :
  0 < k ->
  returns (PatchEmbedding.init img (Z.of_nat k) (Z.of_nat C) (Z.of_nat E))
          (fun pe => PatchEmbedding_ok C E k pe /\
                     PatchEmbedding.n_patches pe = ((img / Z.of_nat k) ^ 2)%Z).
Proof.
  intros Hk. unfold PatchEmbedding.init.
  replace (Z.of_nat k =? 0)%Z with false by (symmetry; apply Z.eqb_neq; lia).
  eapply returns_bind.
  - apply Conv2d_init_returns.
  - intros c Hc. apply returns_ret. split; [exact Hc | reflexivity].
Qed.

Lemma Attention_init_returns (D H : nat) (qkv_bias : bool) (attn_p proj_p : Q) :
  0 < H -> H <= D -> prob attn_p -> prob proj_p ->
  returns (Attention.init (Z.of_nat D) (Z.of_nat H) qkv_bias attn_p proj_p)
          (fun a => Attention_ok D H a /\
                    Dropout.p (Attention.attn_drop a) = attn_p /\
                    Dropout.p (Attention.proj_drop a) = proj_p).
Proof.
  intros HH HD [Ha0 Ha1] [Hp0 Hp1]. unfold Attention.init.
  replace (Z.of_nat H =? 0)%Z with false by (symmetry; apply Z.eqb_neq; lia).
  rewrite <- Nat2Z.inj_div.
  assert (Hq : 0 < D / H) by (apply Nat.div_str_pos; lia).
  replace (Z.of_nat (D / H) =? 0)%Z with false by (symmetry; apply Z.eqb_neq; lia).
  replace (0 <? Z.of_nat (D / H))%Z with true by (symmetry; apply Z.ltb_lt; lia).
  change 3%Z with (Z.of_nat 3). rewrite <- Nat2Z.inj_mul.
  eapply returns_bind; [apply Linear_init_returns | intros qkv Hqkv].
  eapply returns_bind; [apply Dropout_init_returns; eassumption | intros d1 (Hd1 & Hd1p & _)].
  eapply returns_bind; [apply Linear_init_returns | intros pr Hpr].
  eapply returns_bind; [apply Dropout_init_returns; eassumption | intros d2 (Hd2 & Hd2p & _)].
  apply returns_ret. simpl. repeat split; try assumption; try apply Hqkv; try apply Hpr;
    try apply Hd1; try apply Hd2.
  eexists. reflexivity.
Qed.

Lemma py_or_same (v : Z) : py_or (Some v) v = v.
Proof. unfold py_or. now destruct (v =? 0)%Z. Qed.

Lemma MLP_init_returns (D : nat) (hid : Z) (p : Q) :
  (0 <= hid)%Z -> prob p ->
  returns (MLP.init (Z.of_nat D) (Some hid) (Some (Z.of_nat D)) p)
          (fun m => (exists Hd, MLP_ok D Hd m) /\ Dropout.p (MLP.drop m) = p).
Proof.
  intros Hh [Hp0 Hp1]. unfold MLP.init. rewrite py_or_same.
  assert (Hh' : exists Hd, py_or (Some hid) (Z.of_nat D) = Z.of_nat Hd).
  { unfold py_or. destruct (hid =? 0)%Z.
    - now exists D.
    - exists (Z.to_nat hid). now rewrite Z2Nat.id. }
  destruct Hh' as [Hd ->].
  eapply returns_bind; [apply Linear_init_returns | intros l1 Hl1].
  eapply returns_bind; [apply Linear_init_returns | intros l2 Hl2].
  eapply returns_bind; [apply Dropout_init_returns; eassumption | intros d (Hd1 & Hdp & _)].
  apply returns_ret. simpl. split; [|exact Hdp].
  exists Hd. repeat split; try apply Hl1; try apply Hl2; apply Hd1.
Qed.

Lemma Block_init_returns (D H : nat) (mlp_ratio : Q) (qkv_bias : bool)
      (p attn_p proj_p : Q) :
  0 < H -> H <= D ->
  (0 <= py_int_mul (Z.of_nat D) mlp_ratio)%Z ->
  prob attn_p -> prob proj_p ->
  returns (Block.init (Z.of_nat D) (Z.of_nat H) mlp_ratio qkv_bias p attn_p proj_p)
          (Block_ok D H).
Proof.
  intros HH HD Hhid Ha Hp. unfold Block.init.
  eapply returns_bind; [apply LayerNorm_init_returns | intros n1 Hn1].
  eapply returns_bind; [apply Attention_init_returns; assumption | intros a (Hok & _)].
  eapply returns_bind; [apply LayerNorm_init_returns | intros n2 Hn2].
  eapply returns_bind;
    [apply MLP_init_returns; [assumption | apply prob_zero] | intros m (Hm & _)].
  apply returns_ret. split; [|split; [|split]]; assumption.
Qed.

Lemma token_count (sz k : nat) :
  Z.to_nat ((Z.of_nat sz / Z.of_nat k) ^ 2 + 1) = 1 + (sz / k) * (sz / k).
Proof.
  rewrite <- Nat2Z.inj_div, Z.pow_2_r, <- Nat2Z.inj_mul.
  rewrite Z2Nat.inj_add by lia. rewrite Nat2Z.id. simpl Z.to_nat. lia.
Qed.

(** The constructor succeeds on every sane configuration and establishes
    the invariant. *)
Lemma VisionTransformer_init_returns (c : VisionTransformer.config) :
  sane_config c -> returns (VisionTransformer.init c) (built_from c).
Proof.
  unfold sane_config, built_from, VisionTransformer.init.
  destruct c as [img k C NC E depth H ratio qb p ap pp].
  cbn [VisionTransformer.img_size VisionTransformer.patch_size
       VisionTransformer.in_channels VisionTransformer.n_classes
       VisionTransformer.embed_dim VisionTransformer.depth
       VisionTransformer.n_heads VisionTransformer.mlp_ratio
       VisionTransformer.qkv_bias VisionTransformer.p
       VisionTransformer.attn_p VisionTransformer.proj_p].
  intros (Hk & HS & HC & HN & [HH HE] & Hhid & [Hp0 Hp1] & Ha & Hpr).
  rewrite <- (Z2Nat.id k), <- (Z2Nat.id C), <- (Z2Nat.id NC), <- (Z2Nat.id E),
    <- (Z2Nat.id H) in * by lia.
  rewrite !Nat2Z.id in *.
  set (kn := Z.to_nat k) in *. set (Cn := Z.to_nat C) in *.
  set (NCn := Z.to_nat NC) in *. set (En := Z.to_nat E) in *.
  set (Hn := Z.to_nat H) in *.
  eapply returns_bind; [apply PatchEmbedding_init_returns; lia | intros pe (Hpe & _)].
  eapply returns_bind;
    [apply new_param_returns; repeat constructor; lia | intros cls Hcls].
  cbn [map] in Hcls. rewrite Nat2Z.id in Hcls. change (Z.to_nat 1) with 1 in Hcls.
  eapply returns_bind.
  { apply new_param_returns. repeat constructor; lia. }
  intros pos Hpos.
  cbn [map] in Hpos. rewrite Nat2Z.id in Hpos. change (Z.to_nat 1) with 1 in Hpos.
  eapply returns_bind;
    [apply Dropout_init_returns; eassumption | intros pd (Hpd & _)].
  eapply returns_bind.
  { apply replicateM_Forall. apply Block_init_returns; try assumption; lia. }
  intros bs [_ Hbs].
  eapply returns_bind; [apply LayerNorm_init_returns | intros nm Hnm].
  eapply returns_bind; [apply Linear_init_returns | intros hd Hhd].
  apply returns_ret. unfold VisionTransformer_ok.
  cbn [VisionTransformer.patch_embed VisionTransformer.cls_token
       VisionTransformer.pos_embed VisionTransformer.pos_drop
       VisionTransformer.blocks VisionTransformer.norm VisionTransformer.head].
  tauto.
Qed.

End InitFacts.

(** * Independence from the generator *)

Section Purity.
Context {NM : Numerics}.

Ltac pure_step :=
  lazymatch goal with
  | |- pure_comp (ret _) => apply pure_ret
  | |- pure_comp (raise _) => apply pure_raise
  | |- pure_comp (bind _ _) => apply pure_bind; [| intros ?]
  | |- pure_comp (if ?b then _ else _) => destruct b
  | |- pure_comp (match ?x with _ => _ end) => destruct x
  end.

Ltac pure_op := intros; cbv zeta; repeat pure_step.

Lemma reshape_pure (x : tensor) (target : list Z) : pure_comp (reshape x target).
Proof. unfold reshape. pure_op. Qed.

Lemma permute_pure (x : tensor) (perm : list nat) : pure_comp (permute x perm).
Proof. unfold permute. pure_op. Qed.

Lemma transpose_pure (x : tensor) (d0 d1 : Z) : pure_comp (transpose x d0 d1).
Proof. unfold transpose. pure_op. Qed.

Lemma flatten_pure (x : tensor) (s : nat) : pure_comp (flatten x s).
Proof. unfold flatten. pure_op. Qed.

Lemma select_pure (x : tensor) (d i : nat) : pure_comp (select x d i).
Proof. unfold select. pure_op. Qed.

Lemma cat_pure (a b : tensor) (d : nat) : pure_comp (cat a b d).
Proof. unfold cat. pure_op. Qed.

Lemma expand_pure (x : tensor) (sizes : list Z) : pure_comp (expand x sizes).
Proof. unfold expand. pure_op. Qed.

Lemma tadd_pure (a b : tensor) : pure_comp (tadd a b).
Proof. unfold tadd. pure_op. Qed.

Lemma matmul_pure (a b : tensor) : pure_comp (matmul a b).
Proof. unfold matmul. pure_op. Qed.

Lemma Linear_forward_pure (l : Linear.t) (x : tensor) :
  pure_comp (Linear.forward l x).
Proof. unfold Linear.forward. pure_op. Qed.

Lemma LayerNorm_forward_pure (n : LayerNorm.t) (x : tensor) :
  pure_comp (LayerNorm.forward n x).
Proof. unfold LayerNorm.forward. pure_op. Qed.

Lemma Conv2d_forward_pure (c : Conv2d.t) (x : tensor) :
  pure_comp (Conv2d.forward c x).
Proof. unfold Conv2d.forward, Conv2d.conv_batched. pure_op. Qed.

Lemma PatchEmbedding_forward_pure (pe : PatchEmbedding.t) (x : tensor) :
  pure_comp (PatchEmbedding.forward pe x).
Proof.
  unfold PatchEmbedding.forward.
  apply pure_bind; [apply Conv2d_forward_pure | intros y].
  apply pure_bind; [apply flatten_pure | intros z].
  apply pure_bind; [apply transpose_pure | intros w].
  apply pure_ret.
Qed.

Lemma Attention_forward_pure (a : Attention.t) (x : tensor) :
  Attention_inert a -> pure_comp (Attention.forward a x).
Proof.
  intros [H1 H2]. unfold Attention.forward.
  destruct (shape x) as [|n0 [|n1 [|n2 [|n3 l]]]]; try apply pure_raise.
  destruct (negb _); [apply pure_raise|].
  apply pure_bind; [apply Linear_forward_pure | intros ?].
  apply pure_bind; [apply reshape_pure | intros ?].
  apply pure_bind; [apply permute_pure | intros ?].
  apply pure_bind; [apply select_pure | intros ?].
  apply pure_bind; [apply select_pure | intros ?].
  apply pure_bind; [apply select_pure | intros ?].
  apply pure_bind; [apply transpose_pure | intros ?].
  apply pure_bind; [apply matmul_pure | intros ?].
  apply pure_bind; [destruct (Attention.scale a); [apply pure_ret | apply pure_raise] | intros ?].
  apply pure_bind; [apply pure_ret | intros ?].
  apply pure_bind; [now apply Dropout_forward_pure | intros ?].
  apply pure_bind; [apply matmul_pure | intros ?].
  apply pure_bind; [apply transpose_pure | intros ?].
  apply pure_bind; [apply reshape_pure | intros ?].
  apply pure_bind; [apply Linear_forward_pure | intros ?].
  apply pure_bind; [now apply Dropout_forward_pure | intros ?].
  apply pure_ret.
Qed.

Lemma MLP_forward_pure (m : MLP.t) (x : tensor) :
  Dropout_inert (MLP.drop m) -> pure_comp (MLP.forward m x).
Proof.
  intros Hd. unfold MLP.forward.
  apply pure_bind; [apply Linear_forward_pure | intros ?].
  apply pure_bind; [apply pure_ret | intros ?].
  apply pure_bind; [now apply Dropout_forward_pure | intros ?].
  apply pure_bind; [apply Linear_forward_pure | intros ?].
  apply pure_bind; [now apply Dropout_forward_pure | intros ?].
  apply pure_ret.
Qed.

Lemma Block_forward_pure (b : Block.t) (x : tensor) :
  Block_inert b -> pure_comp (Block.forward b x).
Proof.
  intros [Ha Hm]. unfold Block.forward.
  apply pure_bind; [apply LayerNorm_forward_pure | intros ?].
  apply pure_bind; [now apply Attention_forward_pure | intros ?].
  apply pure_bind; [apply tadd_pure | intros ?].
  apply pure_bind; [apply LayerNorm_forward_pure | intros ?].
  apply pure_bind; [now apply MLP_forward_pure | intros ?].
  apply pure_bind; [apply tadd_pure | intros ?].
  apply pure_ret.
Qed.

Lemma run_blocks_pure (bs : list Block.t) (x : tensor) :
  Forall Block_inert bs -> pure_comp (VisionTransformer.run_blocks bs x).
Proof.
  intros H. revert x. induction H as [|b bs Hb _ IH]; intros x; simpl.
  - apply pure_ret.
  - apply pure_bind; [now apply Block_forward_pure | exact IH].
Qed.

Lemma VisionTransformer_forward_pure (m : VisionTransformer.t) (x : tensor) :
  inference_mode m -> pure_comp (VisionTransformer.forward m x).
Proof.
  intros [Hd Hbs]. unfold VisionTransformer.forward.
  apply pure_bind; [destruct (shape x); [apply pure_raise | apply pure_ret] | intros ?].
  apply pure_bind; [apply PatchEmbedding_forward_pure | intros ?].
  apply pure_bind; [apply expand_pure | intros ?].
  apply pure_bind; [apply cat_pure | intros ?].
  apply pure_bind; [apply tadd_pure | intros ?].
  apply pure_bind; [now apply Dropout_forward_pure | intros ?].
  apply pure_bind; [now apply run_blocks_pure | intros ?].
  apply pure_bind; [apply LayerNorm_forward_pure | intros ?].
  apply pure_bind; [apply select_pure | intros ?].
  apply pure_bind; [apply Linear_forward_pure | intros ?].
  apply pure_ret.
Qed.

(** [eval] puts every dropout layer in evaluation mode. *)
Lemma eval_inference_mode (m : VisionTransformer.t) :
  inference_mode (VisionTransformer.eval m).
Proof.
  unfold inference_mode, VisionTransformer.eval, VisionTransformer.train. simpl.
  split; [now left|].
  apply Forall_map, Forall_forall. intros b _.
  unfold Block_inert, Attention_inert. simpl. repeat split; now left.
Qed.

(** ** [train] leaves the invariants alone *)

Lemma Block_train_ok (mode : bool) (D H : nat) (b : Block.t) :
  Block_ok D H b -> Block_ok D H (Block.train mode b).
Proof. intros H0. exact H0. Qed.

Lemma VisionTransformer_train_ok (mode : bool) (C E k T H NC : nat)
      (m : VisionTransformer.t) :
  VisionTransformer_ok C E k T H NC m ->
  VisionTransformer_ok C E k T H NC (VisionTransformer.train mode m).
Proof.
  intros (Hpe & Hcls & Hpos & Hpd & Hbs & Hn & Hh).
  unfold VisionTransformer_ok, VisionTransformer.train. simpl.
  repeat (split; [assumption|]). split; [|split; assumption].
  apply Forall_map. eapply Forall_impl; [|exact Hbs].
  intros b Hb. now apply Block_train_ok.
Qed.

End Purity.

(** * Elements of the patch and token sequences *)

Section ElementFacts.
Context {NM : Numerics}.

Lemma nth_data_tabulate (sh : list nat) (f : list nat -> scalar) (n : nat) :
  n < numel sh -> nth n (data (tabulate sh f)) f0 = f (unravel sh n).
Proof.
  intros Hn. unfold tabulate; simpl.
  rewrite nth_indep with (d' := f (unravel sh 0))
    by now rewrite length_map, length_seq.
  rewrite map_nth with (f := fun n => f (unravel sh n)).
  now rewrite seq_nth by exact Hn.
Qed.

(** Reading a tabulated tensor through another shape of the same size. *)
Lemma get_reshaped_tabulate (sh sh' : list nat) (f : list nat -> scalar)
      (idx idx' : list nat) :
  in_bounds sh idx ->
  ravel sh' idx' = ravel sh idx ->
  get (mkTensor sh' (data (tabulate sh f))) idx' = f idx.
Proof.
  intros Hb Hr. unfold get. cbn [shape data]. rewrite Hr.
  rewrite nth_data_tabulate by now apply ravel_lt.
  now rewrite unravel_ravel.
Qed.

Lemma in_bounds_3 (a b c i j l : nat) :
  i < a -> j < b -> l < c -> in_bounds [a; b; c] [i; j; l].
Proof. intros. repeat constructor; assumption. Qed.

Lemma in_bounds_4 (a b c d i j l m : nat) :
  i < a -> j < b -> l < c -> m < d -> in_bounds [a; b; c; d] [i; j; l; m].
Proof. intros. repeat constructor; assumption. Qed.

(** ** [PatchEmbedding.forward], element by element *)

Lemma PatchEmbedding_forward_elements (pe : PatchEmbedding.t) (x : tensor)
      (C E k B sz : nat) :
  PatchEmbedding_ok C E k pe ->
  0 < k -> k <= sz ->
  shape x = [B; C; sz; sz] ->
  exists t,
    PatchEmbedding.forward pe x = ret t /\
    shaped [B; (sz / k) * (sz / k); E] t /\
    forall b i j e, b < B -> i < sz / k -> j < sz / k -> e < E ->
      get t [b; i * (sz / k) + j; e] =
      Conv2d.conv_at x (Conv2d.weight (PatchEmbedding.projection pe))
                     (Conv2d.bias (PatchEmbedding.projection pe))
                     C k k k b e i j.
Proof.
  intros ([Hw _] & [Hb _] & Hst) Hk HS Hs.
  unfold PatchEmbedding.forward, Conv2d.forward. rewrite Hs.
  unfold Conv2d.conv_batched. rewrite Hw, Hs, Hst, Hb.
  replace (Z.of_nat k <=? 0)%Z with false by (symmetry; apply Z.leb_gt; lia).
  rewrite Nat.eqb_refl, shape_eqb_refl.
  replace (sz <? k) with false by (symmetry; apply Nat.ltb_ge; lia).
  cbn [negb orb]. rewrite Nat2Z.id, div_sub_self by assumption.
  eexists. split.
  { rewrite bind_ret_l.
    unfold flatten, rank. rewrite shape_tabulate.
    cbn [length Nat.ltb Nat.leb firstn skipn app numel fold_right].
    rewrite Nat.mul_1_r, bind_ret_l.
    unfold transpose, rank. cbn [shape length].
    change (normalize_dim 3 1) with (Some 1).
    change (normalize_dim 3 2) with (Some 2).
    cbv beta iota. rewrite bind_ret_l. reflexivity. }
  split; [apply shaped_tabulate|].
  intros b i j e Hb' Hi Hj He.
  assert (Hp : i * (sz / k) + j < sz / k * (sz / k)) by nia.
  cbn [swap map seq length nth Nat.eqb].
  rewrite get_tabulate by (apply in_bounds_3; assumption).
  cbn [swap map seq length nth Nat.eqb].
  rewrite get_reshaped_tabulate with (idx := [b; e; i; j]).
  - reflexivity.
  - apply in_bounds_4; assumption.
  - cbn [ravel numel fold_right]. ring.
Qed.

(** One output element of the convolution is one output of a linear layer
    applied to the flattened tile. *)
Lemma conv_at_is_linear (c : Conv2d.t) (x : tensor) (C E k b i j : nat) :
  Conv2d_ok C E k c ->
  exists v,
    Linear.forward (projection_matrix c E C k) (tile x C k b i j) = ret v /\
    shaped [E] v /\
    forall e, e < E ->
      get v [e] = Conv2d.conv_at x (Conv2d.weight c) (Conv2d.bias c) C k k k b e i j.
Proof.
  intros ([Hw _] & [Hb _] & _).
  unfold Linear.forward, projection_matrix.
  cbn [Linear.weight Linear.bias shape]. unfold tile at 1. rewrite shape_tabulate.
  cbn [rev app]. rewrite Nat.eqb_refl, Hb, shape_eqb_refl.
  cbn [negb removelast app].
  eexists. split; [reflexivity|]. split; [apply shaped_tabulate|].
  intros e He.
  rewrite get_tabulate by (repeat constructor; assumption).
  cbn [removelast last app]. unfold Conv2d.conv_at.
  assert (Hn : numel [C; k; k] = C * k * k) by (cbn [numel fold_right]; ring).
  rewrite Hn. f_equal. f_equal.
  apply map_ext_in. intros n Hin. apply in_seq in Hin.
  unfold tile. rewrite get_tabulate by (repeat constructor; lia).
  cbn [hd].
  assert (Hlt : n < numel [C; k; k]) by lia.
  pose proof (ravel_unravel [C; k; k] Hlt) as Hr.
  destruct (unravel [C; k; k] n) as [|c0 [|u [|v [|? ?]]]] eqn:Eu;
    try discriminate.
  f_equal. unfold get. rewrite Hw. cbn [shape data].
  f_equal. change (ravel [E; C; k; k] [e; c0; u; v])
    with (e * numel [C; k; k] + ravel [C; k; k] [c0; u; v]).
  rewrite Hr, Hn. cbn [ravel numel fold_right]. ring.
Qed.

End ElementFacts.

(** * The forward pass against its specification *)

Section Refinement.
Context {NM : Numerics}.

Lemma tabulate_ext (sh : list nat) (f f' : list nat -> scalar) :
  (forall idx, in_bounds sh idx -> f idx = f' idx) ->
  tabulate sh f = tabulate sh f'.
Proof.
  intros H. unfold tabulate. f_equal.
  apply map_ext_in. intros n Hn. apply in_seq in Hn.
  apply H, unravel_in_bounds. lia.
Qed.

Lemma in_bounds_inv2 (a b : nat) (idx : list nat) :
  in_bounds [a; b] idx -> exists i j, idx = [i; j] /\ i < a /\ j < b.
Proof.
  intros H. inversion H as [|i ? r1 ? Hi H1]; subst.
  inversion H1 as [|j ? r2 ? Hj H2]; subst.
  inversion H2; subst. now exists i, j.
Qed.

Lemma in_bounds_inv3 (a b c : nat) (idx : list nat) :
  in_bounds [a; b; c] idx ->
  exists i j l, idx = [i; j; l] /\ i < a /\ j < b /\ l < c.
Proof.
  intros H. inversion H as [|i ? r1 ? Hi H1]; subst.
  apply in_bounds_inv2 in H1 as (j & l & -> & Hj & Hl).
  now exists i, j, l.
Qed.

(** An index within bounds is its own broadcast index. *)
Lemma bindex_same (sh idx : list nat) :
  in_bounds sh idx -> bindex sh idx = idx.
Proof.
  intros H. unfold bindex.
  assert (Hlen : length idx = length sh) by (eapply Forall2_length; exact H).
  rewrite Hlen, Nat.sub_diag. cbn [skipn].
  induction H as [|i d idx sh Hi _ IH]; cbn [combine map fst snd].
  - reflexivity.
  - f_equal.
    + destruct (d =? 1) eqn:E; [|reflexivity].
      apply Nat.eqb_eq in E. lia.
    + apply IH. simpl in Hlen. lia.
Qed.

(** ... and along a broadcast batch dimension it reads position 0. *)
Lemma bindex_batch (n : nat) (sh : list nat) (i : nat) (idx : list nat) :
  in_bounds (n :: sh) (i :: idx) -> bindex (1 :: sh) (i :: idx) = 0 :: idx.
Proof.
  intros H. inversion H as [|? ? ? ? Hi Hrest]; subst.
  pose proof (bindex_same Hrest) as Hs. unfold bindex in *.
  assert (Hlen : length idx = length sh) by (eapply Forall2_length; exact Hrest).
  cbn [length]. rewrite Hlen, Nat.sub_diag in *. cbn [skipn] in *.
  cbn [combine map fst snd Nat.eqb]. now rewrite Hs.
Qed.

(** The three steps between the patch embedding and the dropout build the
    token sequence of the specification. *)
Lemma embed_tokens_spec (cls pos patches : tensor) (B N E : nat) :
  shape cls = [1; 1; E] ->
  shape pos = [1; 1 + N; E] ->
  shape patches = [B; N; E] ->
  (cls_token_ <- expand cls [Z.of_nat B; -1; -1]%Z ;;
   x <- cat cls_token_ patches 1 ;;
   tadd x pos) =
  ret (spec_add_pos pos (spec_tokens cls patches B N E) B (1 + N) E).
Proof.
  intros Hc Hp Hx.
  unfold expand. rewrite Hc. cbn [rev app expand_rev].
  replace (Z.of_nat B =? -1)%Z with false by (symmetry; apply Z.eqb_neq; lia).
  replace (Z.of_nat B <? 0)%Z with false by (symmetry; apply Z.ltb_ge; lia).
  change (-1 =? -1)%Z with true. cbv beta iota.
  rewrite orb_true_r. cbn [option_map rev app]. rewrite Nat2Z.id, bind_ret_l.
  unfold cat, rank. rewrite shape_tabulate, Hx.
  cbn [length Nat.eqb negb Nat.ltb Nat.leb remove_at firstn skipn app shape_eqb nth set_at].
  rewrite !Nat.eqb_refl. cbn [andb negb]. rewrite bind_ret_l.
  unfold tadd. rewrite shape_tabulate, Hp, broadcast_shapes_batch.
  unfold spec_add_pos. apply (f_equal ret).
  apply tabulate_ext. intros idx Hin.
  pose proof Hin as Hin'.
  apply in_bounds_inv3 in Hin' as (b & t & e & -> & Hb & Ht & He).
  rewrite (bindex_same Hin), (bindex_batch Hin).
  f_equal. unfold spec_tokens.
  do 2 rewrite (fun f => @get_tabulate NM [B; 1 + N; E] f [b; t; e] Hin).
  cbn [nth]. destruct t as [|t].
  - cbn [Nat.ltb Nat.leb].
    rewrite get_tabulate by (apply in_bounds_3; lia).
    f_equal. apply (@bindex_batch B [1; E] b [0; e]).
    apply in_bounds_3; lia.
  - cbn [Nat.ltb Nat.leb set_at firstn skipn app Nat.sub].
    now rewrite Nat.sub_0_r.
Qed.

Lemma select_cls_spec (x : tensor) (B T E : nat) :
  shape x = [B; T; E] -> 0 < T ->
  select x 1 0 = ret (spec_select_cls x B E).
Proof.
  intros Hs HT. unfold select, rank. rewrite Hs.
  cbn [length nth Nat.ltb Nat.leb andb remove_at firstn skipn app].
  destruct T as [|T']; [lia|].
  unfold spec_select_cls. apply (f_equal ret). apply tabulate_ext.
  intros idx Hin. apply in_bounds_inv2 in Hin as (b & e & -> & _ & _).
  reflexivity.
Qed.

(** The loop over the blocks is a left fold of monadic steps. *)
Lemma run_blocks_fold (bs : list Block.t) (acc : M tensor) (g : RNG) :
  (x <- acc ;; VisionTransformer.run_blocks bs x) g =
  fold_left (fun acc b => t <- acc ;; Block.forward b t) bs acc g.
Proof.
  revert acc g. induction bs as [|b bs IH]; intros acc g; simpl.
  - unfold bind. destruct (acc g) as [[e | a] g']; reflexivity.
  - rewrite <- IH. unfold bind.
    destruct (acc g) as [[e | a] g']; [reflexivity|].
    destruct (Block.forward b a g') as [[e | a'] g'']; reflexivity.
Qed.

(** Two computations that agree after a step that establishes [P]. *)
Lemma bind_cong {A B : Type} (m : M A) (k k' : A -> M B) (P : A -> Prop) :
  returns m P ->
  (forall a g, P a -> k a g = k' a g) ->
  forall g, bind m k g = bind m k' g.
Proof.
  intros Hm Hk g. destruct (Hm g) as (a & g1 & E & Ha).
  unfold bind. rewrite E. now apply Hk.
Qed.

Lemma bind_cong_ext {A B : Type} (m m' : M A) (k k' : A -> M B) (P : A -> Prop) :
  returns m P ->
  (forall g, m g = m' g) ->
  (forall a g, P a -> k a g = k' a g) ->
  forall g, bind m k g = bind m' k' g.
Proof.
  intros Hm Hmm Hk g. destruct (Hm g) as (a & g1 & E & Ha).
  unfold bind. rewrite <- Hmm, E. now apply Hk.
Qed.

Lemma VisionTransformer_forward_spec (m : VisionTransformer.t) (x : tensor)
      (C E k T H NC B sz : nat) (g : RNG) :
  VisionTransformer_ok C E k T H NC m ->
  T = 1 + (sz / k) * (sz / k) ->
  0 < k -> k <= sz ->
  E = H * (E / H) ->
  shaped [B; C; sz; sz] x ->
  VisionTransformer.forward m x g =
  spec_forward m x B ((sz / k) * (sz / k)) E g.
Proof.
  intros Hm HT Hk Hsz Hdiv Hx. subst T.
  pose proof Hm as (Hpe & Hcls & Hpos & Hpd & Hbs & Hn & Hh).
  set (T := 1 + sz / k * (sz / k)) in *.
  unfold VisionTransformer.forward, spec_forward. fold T.
  rewrite (proj1 Hx), bind_ret_l.
  apply bind_cong with (P := shaped [B; sz / k * (sz / k); E]).
  { eapply PatchEmbedding_forward_returns; eauto. }
  intros patches g1 Hp.
  rewrite bind_ret_l.
  pose proof (embed_tokens_spec (VisionTransformer.cls_token m)
                (VisionTransformer.pos_embed m) patches (B := B)
                (N := sz / k * (sz / k)) (E := E)) as Hspec.
  fold T in Hspec.
  specialize (Hspec (proj1 Hcls) (proj1 Hpos) (proj1 Hp)).
  set (embedded := spec_add_pos _ _ _ _ _) in *.
  assert (Hemb : shaped [B; T; E] embedded) by apply shaped_tabulate.
  transitivity
    ((e0 <- (cls_token_ <- expand (VisionTransformer.cls_token m)
                             [Z.of_nat B; -1; -1]%Z ;;
             x0 <- cat cls_token_ patches 1 ;;
             tadd x0 (VisionTransformer.pos_embed m)) ;;
      x2 <- Dropout.forward (VisionTransformer.pos_drop m) e0 ;;
      x3 <- VisionTransformer.run_blocks (VisionTransformer.blocks m) x2 ;;
      x4 <- LayerNorm.forward (VisionTransformer.norm m) x3 ;;
      x5 <- select x4 1 0 ;;
      x6 <- Linear.forward (VisionTransformer.head m) x5 ;; ret x6) g1).
  { unfold bind.
    destruct (expand _ _ g1) as [[? | c1] g2]; [reflexivity|].
    destruct (cat _ _ _ g2) as [[? | y2] g3]; [reflexivity|].
    destruct (tadd _ _ g3) as [[? | y3] g4]; reflexivity. }
  rewrite Hspec, bind_ret_l.
  apply bind_cong with (P := shaped [B; T; E]).
  { eapply Dropout_forward_returns; eauto. }
  intros dropped g2 Hd.
  apply bind_cong_ext with (P := shaped [B; T; E]).
  { eapply run_blocks_returns; eauto. }
  { intros g3. rewrite <- run_blocks_fold. now rewrite bind_ret_l. }
  intros encoded g3 He.
  apply bind_cong with (P := shaped [B; T; E]).
  { eapply LayerNorm_forward_returns with (pre := [B; T]); eauto. }
  intros normed g4 Hnm.
  rewrite select_cls_spec with (B := B) (T := T) (E := E)
    by (apply Hnm || (unfold T; lia)).
  rewrite bind_ret_l.
  unfold bind. destruct (Linear.forward _ _ g4) as [[? | y] g5]; reflexivity.
Qed.

End Refinement.

(** * What a successful constructor call tells *)

Section InitInversion.
Context {NM : Numerics}.

Lemma new_param_nonneg (k : init_kind) (sizes : list Z) (g g' : RNG) (t : tensor) :
  new_param k sizes g = (inr t, g') -> Forall (fun d => (0 <= d)%Z) sizes.
Proof.
  unfold new_param. destruct (existsb _ sizes) eqn:E; [discriminate|].
  intros _. apply Forall_forall. intros d Hd.
  destruct (Z.ltb_spec d 0) as [Hlt|]; [|assumption].
  assert (existsb (fun d => (d <? 0)%Z) sizes = true).
  { apply existsb_exists. exists d. split; [exact Hd | now apply Z.ltb_lt]. }
  congruence.
Qed.

Lemma Linear_init_inv (i o : Z) (with_bias : bool) (g g' : RNG) (l : Linear.t) :
  Linear.init i o with_bias g = (inr l, g') ->
  (0 <= i)%Z /\ (0 <= o)%Z /\ Linear_ok (Z.to_nat i) (Z.to_nat o) l.
Proof.
  unfold Linear.init. intros E.
  apply bind_inv in E as (w & g1 & Ew & E).
  pose proof (new_param_nonneg _ _ _ Ew) as Hnn.
  apply new_param_inv in Ew.
  inversion Hnn as [|? ? Ho Hnn']; subst. inversion Hnn' as [|? ? Hi _]; subst.
  destruct with_bias.
  - apply bind_inv in E as (b & g2 & Eb & E).
    apply new_param_inv in Eb. apply ret_inv in E as [<- _].
    repeat split; try assumption; try apply Ew; apply Eb.
  - apply ret_inv in E as [<- _].
    repeat split; try assumption; apply Ew.
Qed.

Lemma LayerNorm_init_inv (dim : Z) (g g' : RNG) (n : LayerNorm.t) :
  LayerNorm.init dim g = (inr n, g') ->
  (0 <= dim)%Z /\ LayerNorm_ok (Z.to_nat dim) n.
Proof.
  unfold LayerNorm.init. destruct (Z.ltb_spec dim 0); [discriminate|].
  intros E. apply ret_inv in E as [<- _]. split; [assumption|].
  unfold LayerNorm_ok. cbn [LayerNorm.normalized_shape LayerNorm.weight LayerNorm.bias].
  rewrite Z2Nat.id by assumption.
  repeat split; apply wf_tabulate.
Qed.

Lemma Conv2d_init_inv (C E k s : Z) (g g' : RNG) (c : Conv2d.t) :
  Conv2d.init C E k s g = (inr c, g') ->
  (0 <= C)%Z /\ (0 <= E)%Z /\ (0 <= k)%Z /\
  shaped [Z.to_nat E; Z.to_nat C; Z.to_nat k; Z.to_nat k] (Conv2d.weight c) /\
  shaped [Z.to_nat E] (Conv2d.bias c) /\
  Conv2d.stride c = s.
Proof.
  unfold Conv2d.init. intros E0.
  apply bind_inv in E0 as (w & g1 & Ew & E0).
  apply bind_inv in E0 as (b & g2 & Eb & E0).
  apply ret_inv in E0 as [<- _].
  pose proof (new_param_nonneg _ _ _ Ew) as Hnn.
  apply new_param_inv in Ew. apply new_param_inv in Eb.
  inversion Hnn as [|? ? HE Hnn1]; subst. inversion Hnn1 as [|? ? HC Hnn2]; subst.
  inversion Hnn2 as [|? ? Hk _]; subst.
  repeat split; try assumption; try apply Ew; apply Eb.
Qed.

Lemma PatchEmbedding_init_inv (img k C E : Z) (g g' : RNG) (pe : PatchEmbedding.t) :
  PatchEmbedding.init img k C E g = (inr pe, g') ->
  (0 < k)%Z /\ (0 <= C)%Z /\ (0 <= E)%Z /\
  PatchEmbedding_ok (Z.to_nat C) (Z.to_nat E) (Z.to_nat k) pe /\
  PatchEmbedding.img_size pe = img /\
  PatchEmbedding.patch_size pe = k /\
  PatchEmbedding.n_patches pe = ((img / k) ^ 2)%Z.
Proof.
  unfold PatchEmbedding.init. destruct (Z.eqb_spec k 0); [discriminate|].
  intros E0. apply bind_inv in E0 as (c & g1 & Ec & E0).
  apply ret_inv in E0 as [<- _].
  apply Conv2d_init_inv in Ec as (HC & HE & Hk & Hw & Hb & Hs).
  cbn [PatchEmbedding.projection PatchEmbedding.img_size PatchEmbedding.patch_size
       PatchEmbedding.n_patches].
  repeat split; try assumption; try lia; try apply Hw; try apply Hb.
  rewrite Z2Nat.id by lia. exact Hs.
Qed.

Lemma Attention_init_inv (dim n_heads : Z) (qkv_bias : bool) (attn_p proj_p : Q)
      (g g' : RNG) (a : Attention.t) :
  Attention.init dim n_heads qkv_bias attn_p proj_p g = (inr a, g') ->
  (0 <= dim)%Z /\ n_heads <> 0%Z /\ (dim / n_heads)%Z <> 0%Z /\
  Attention.dim a = dim /\
  Attention.n_heads a = n_heads /\
  Attention.head_dim a = (dim / n_heads)%Z /\
  Linear_ok (Z.to_nat dim) (Z.to_nat (dim * 3)) (Attention.qkv a) /\
  Linear_ok (Z.to_nat dim) (Z.to_nat dim) (Attention.proj a) /\
  (Dropout_ok (Attention.attn_drop a) /\
   Dropout.p (Attention.attn_drop a) = attn_p /\
   Dropout.training (Attention.attn_drop a) = true) /\
  (Dropout_ok (Attention.proj_drop a) /\
   Dropout.p (Attention.proj_drop a) = proj_p /\
   Dropout.training (Attention.proj_drop a) = true) /\
  ((0 < dim / n_heads)%Z -> exists s, Attention.scale a = PyFloat s).
Proof.
  unfold Attention.init. destruct (Z.eqb_spec n_heads 0); [discriminate|].
  destruct (Z.eqb_spec (dim / n_heads) 0); [discriminate|].
  intros E.
  apply bind_inv in E as (l1 & g1 & E1 & E).
  apply bind_inv in E as (d1 & g2 & E2 & E).
  apply bind_inv in E as (l2 & g3 & E3 & E).
  apply bind_inv in E as (d2 & g4 & E4 & E).
  apply ret_inv in E as [<- _].
  apply Linear_init_inv in E1 as (Hd & _ & Hl1).
  apply Linear_init_inv in E3 as (_ & _ & Hl2).
  apply Dropout_init_inv in E2. apply Dropout_init_inv in E4.
  cbn [Attention.dim Attention.n_heads Attention.head_dim Attention.scale
       Attention.qkv Attention.attn_drop Attention.proj Attention.proj_drop].
  repeat (split; [assumption || reflexivity|]).
  intros Hpos. apply Z.ltb_lt in Hpos. rewrite Hpos. eexists. reflexivity.
Qed.

Lemma Attention_init_ok (D H : nat) (qkv_bias : bool) (attn_p proj_p : Q)
      (g g' : RNG) (a : Attention.t) :
  Attention.init (Z.of_nat D) (Z.of_nat H) qkv_bias attn_p proj_p g = (inr a, g') ->
  Attention_ok D H a /\ 0 < H /\ H <= D.
Proof.
  intros E.
  apply Attention_init_inv in E
    as (_ & HH & Hq & Hd & Hn & Hh & Hl1 & Hl2 & (Hd1 & _) & (Hd2 & _) & Hs).
  rewrite <- Nat2Z.inj_div in *.
  change 3%Z with (Z.of_nat 3) in Hl1. rewrite <- Nat2Z.inj_mul in Hl1.
  rewrite !Nat2Z.id in *.
  assert (HH' : 0 < H) by lia.
  assert (Hq' : 0 < D / H) by lia.
  assert (HD : H <= D).
  { destruct (Nat.le_gt_cases H D) as [|Hlt]; [assumption|].
    rewrite (Nat.div_small D H) in Hq' by exact Hlt. lia. }
  split; [|split; assumption].
  unfold Attention_ok. repeat (split; [assumption|]).
  split; [apply Hs; lia|]. repeat (split; [assumption|]). assumption.
Qed.

Lemma MLP_init_dropout (dim : Z) (hid out : option Z) (p : Q) (g g' : RNG)
      (m : MLP.t) :
  MLP.init dim hid out p g = (inr m, g') ->
  Dropout.p (MLP.drop m) = p /\ Dropout.training (MLP.drop m) = true.
Proof.
  unfold MLP.init. intros E.
  apply bind_inv in E as (l1 & g1 & E1 & E).
  apply bind_inv in E as (l2 & g2 & E2 & E).
  apply bind_inv in E as (d & g3 & E3 & E).
  apply ret_inv in E as [<- _].
  apply Dropout_init_inv in E3 as (_ & Hp & Ht). now split.
Qed.

Lemma MLP_init_inv (D : nat) (hid : Z) (p : Q) (g g' : RNG) (m : MLP.t) :
  MLP.init (Z.of_nat D) (Some hid) (Some (Z.of_nat D)) p g = (inr m, g') ->
  exists Hd, MLP_ok D Hd m.
Proof.
  unfold MLP.init. rewrite py_or_same. intros E.
  apply bind_inv in E as (l1 & g1 & E1 & E).
  apply bind_inv in E as (l2 & g2 & E2 & E).
  apply bind_inv in E as (d & g3 & E3 & E).
  apply ret_inv in E as [<- _].
  apply Linear_init_inv in E1 as (_ & _ & Hl1).
  apply Linear_init_inv in E2 as (_ & _ & Hl2).
  apply Dropout_init_inv in E3 as (Hd & _).
  rewrite !Nat2Z.id in *.
  cbn [MLP.fc1 MLP.fc2 MLP.drop].
  eexists. repeat split; try apply Hl1; try apply Hl2; apply Hd.
Qed.

(** The dropout layers of a new block: the attention's two take the
    probabilities passed in, the feed-forward one has probability 0. *)
Lemma Block_init_dropouts (dim n_heads : Z) (mlp_ratio : Q) (qkv_bias : bool)
      (p attn_p proj_p : Q) (g g' : RNG) (b : Block.t) :
  Block.init dim n_heads mlp_ratio qkv_bias p attn_p proj_p g = (inr b, g') ->
  Dropout.p (Attention.attn_drop (Block.attn b)) = attn_p /\
  Dropout.p (Attention.proj_drop (Block.attn b)) = proj_p /\
  Dropout.p (MLP.drop (Block.mlp b)) = 0%Q /\
  Block.train true b = b.
Proof.
  unfold Block.init. intros E.
  apply bind_inv in E as (n1 & g1 & E1 & E).
  apply bind_inv in E as (a & g2 & E2 & E).
  apply bind_inv in E as (n2 & g3 & E3 & E).
  apply bind_inv in E as (m & g4 & E4 & E).
  apply ret_inv in E as [<- _].
  apply Attention_init_inv in E2
    as (_ & _ & _ & _ & _ & _ & _ & _ & (_ & Hp1 & Ht1) & (_ & Hp2 & Ht2) & _).
  apply MLP_init_dropout in E4 as (Hp3 & Ht3).
  cbn [Block.norm1 Block.attn Block.norm2 Block.mlp].
  repeat (split; [assumption|]).
  unfold Block.train, Attention.train, MLP.train, Dropout.train.
  cbn [Block.norm1 Block.attn Block.norm2 Block.mlp].
  destruct a as [? ? ? ? ? [pa ta] ? [pp tp]], m as [? ? [pm tm]].
  cbn in Ht1, Ht2, Ht3 |- *. now subst.
Qed.

Lemma Block_init_inv (D H : nat) (mlp_ratio : Q) (qkv_bias : bool)
      (p attn_p proj_p : Q) (g g' : RNG) (b : Block.t) :
  Block.init (Z.of_nat D) (Z.of_nat H) mlp_ratio qkv_bias p attn_p proj_p g
    = (inr b, g') ->
  Block_ok D H b /\ 0 < H /\ H <= D.
Proof.
  unfold Block.init. intros E.
  apply bind_inv in E as (n1 & g1 & E1 & E).
  apply bind_inv in E as (a & g2 & E2 & E).
  apply bind_inv in E as (n2 & g3 & E3 & E).
  apply bind_inv in E as (m & g4 & E4 & E).
  apply ret_inv in E as [<- _].
  apply LayerNorm_init_inv in E1 as (_ & Hn1).
  apply LayerNorm_init_inv in E3 as (_ & Hn2).
  rewrite Nat2Z.id in *.
  apply Attention_init_ok in E2 as (Ha & HH & HD).
  apply MLP_init_inv in E4 as Hm.
  split; [|split; assumption].
  unfold Block_ok. cbn [Block.norm1 Block.attn Block.norm2 Block.mlp].
  repeat (split; [assumption|]). assumption.
Qed.

Lemma VisionTransformer_init_dropouts (c : VisionTransformer.config)
      (g g' : RNG) (m : VisionTransformer.t) :
  VisionTransformer.init c g = (inr m, g') ->
  Dropout.p (VisionTransformer.pos_drop m) = VisionTransformer.p c /\
  length (VisionTransformer.blocks m) = Z.to_nat (VisionTransformer.depth c) /\
  Forall (fun b =>
            Dropout.p (Attention.attn_drop (Block.attn b)) = VisionTransformer.attn_p c /\
            Dropout.p (Attention.proj_drop (Block.attn b)) = VisionTransformer.proj_p c /\
            Dropout.p (MLP.drop (Block.mlp b)) = 0%Q /\
            Block.train true b = b)
         (VisionTransformer.blocks m) /\
  VisionTransformer.train true m = m.
Proof.
  unfold VisionTransformer.init. intros E.
  apply bind_inv in E as (pe & g1 & E1 & E).
  apply bind_inv in E as (cls & g2 & E2 & E).
  apply bind_inv in E as (pos & g3 & E3 & E).
  apply bind_inv in E as (pd & g4 & E4 & E).
  apply bind_inv in E as (bs & g5 & E5 & E).
  apply bind_inv in E as (nm & g6 & E6 & E).
  apply bind_inv in E as (hd & g7 & E7 & E).
  apply ret_inv in E as [<- _].
  apply Dropout_init_inv in E4 as (_ & Hp & Ht).
  eapply replicateM_inv in E5 as [Hlen Hbs];
    [|intros ? ? ? Eb; exact (Block_init_dropouts _ _ _ _ _ _ _ _ Eb)].
  cbn [VisionTransformer.pos_drop VisionTransformer.blocks].
  repeat (split; [assumption|]).
  unfold VisionTransformer.train.
  cbn [VisionTransformer.patch_embed VisionTransformer.cls_token
       VisionTransformer.pos_embed VisionTransformer.pos_drop
       VisionTransformer.blocks VisionTransformer.norm VisionTransformer.head].
  f_equal.
  - destruct pd as [pp tp]. cbn in Ht |- *. now subst.
  - clear Hlen. induction Hbs as [|b bs Hb _ IH]; [reflexivity|].
    cbn [map]. f_equal; [apply Hb | exact IH].
Qed.

Lemma VisionTransformer_init_n_patches (c : VisionTransformer.config)
      (g g' : RNG) (m : VisionTransformer.t) :
  VisionTransformer.init c g = (inr m, g') ->
  PatchEmbedding.n_patches (VisionTransformer.patch_embed m) =
  ((VisionTransformer.img_size c / VisionTransformer.patch_size c) ^ 2)%Z.
Proof.
  unfold VisionTransformer.init. intros E.
  apply bind_inv in E as (pe & g1 & E1 & E).
  apply PatchEmbedding_init_inv in E1 as (_ & _ & _ & _ & _ & _ & Hn).
  repeat (apply bind_inv in E as (? & ? & _ & E)).
  apply ret_inv in E as [<- _]. exact Hn.
Qed.

(** On a sane configuration the constructor's result satisfies the
    invariant. *)
Lemma VisionTransformer_init_built (c : VisionTransformer.config)
      (g g' : RNG) (m : VisionTransformer.t) :
  sane_config c ->
  VisionTransformer.init c g = (inr m, g') ->
  built_from c m.
Proof.
  intros Hc E. eapply returns_inv; [|exact E].
  now apply VisionTransformer_init_returns.
Qed.

End InitInversion.

(** * Which exceptions a computation can raise *)

Section Avoidance.
Context {NM : Numerics}.

Lemma avoids_ret {A : Type} (a : A) (e : exn) : avoids (ret a) e.
Proof. intros g r g' E. inversion E. discriminate. Qed.

Lemma avoids_raise {A : Type} (e e' : exn) : e' <> e -> avoids (@raise _ A e') e.
Proof. intros H g r g' E. inversion E. congruence. Qed.

Lemma avoids_bind {A B : Type} (m : M A) (k : A -> M B) (e : exn) :
  avoids m e -> (forall a, avoids (k a) e) -> avoids (bind m k) e.
Proof.
  intros Hm Hk g r g'. unfold bind.
  destruct (m g) as [[e0 | a] g1] eqn:E.
  - intros E'. inversion E'; subst. intros Hc.
    apply (Hm _ _ _ E). congruence.
  - apply Hk.
Qed.

Ltac avoid_step :=
  lazymatch goal with
  | |- avoids (ret _) _ => apply avoids_ret
  | |- avoids (raise _) _ => apply avoids_raise; discriminate
  | |- avoids (bind _ _) _ => apply avoids_bind; [| intros ?]
  | |- avoids (if ?b then _ else _) _ => destruct b
  | |- avoids (match ?x with _ => _ end) _ => destruct x
  end.

Ltac avoid_op := intros; cbv zeta; repeat avoid_step.

Lemma reshape_avoids (x : tensor) (target : list Z) :
  avoids (reshape x target) ValueError.
Proof. unfold reshape. avoid_op. Qed.

Lemma permute_avoids (x : tensor) (perm : list nat) :
  avoids (permute x perm) ValueError.
Proof. unfold permute. avoid_op. Qed.

Lemma transpose_avoids (x : tensor) (d0 d1 : Z) :
  avoids (transpose x d0 d1) ValueError.
Proof. unfold transpose. avoid_op. Qed.

Lemma select_avoids (x : tensor) (d i : nat) : avoids (select x d i) ValueError.
Proof. unfold select. avoid_op. Qed.

Lemma matmul_avoids (a b : tensor) : avoids (matmul a b) ValueError.
Proof. unfold matmul. avoid_op. Qed.

Lemma Linear_forward_avoids (l : Linear.t) (x : tensor) :
  avoids (Linear.forward l x) ValueError.
Proof. unfold Linear.forward. avoid_op. Qed.

Lemma replicateM_avoids {A : Type} (n : nat) (m : M A) (e : exn) :
  avoids m e -> avoids (replicateM n m) e.
Proof.
  intros Hm. induction n as [|n IH]; simpl.
  - apply avoids_ret.
  - apply avoids_bind; [exact Hm | intros a].
    apply avoids_bind; [exact IH | intros l]. apply avoids_ret.
Qed.

Lemma bernoulli_avoids (q : Q) (e : exn) : avoids (bernoulli q) e.
Proof.
  intros g r g'. unfold bernoulli. destruct (rng_bernoulli q g).
  intros E. inversion E. discriminate.
Qed.

(** A dropout layer whose probability the constructor accepted raises
    nothing. *)
Lemma Dropout_forward_avoids (d : Dropout.t) (x : tensor) (e : exn) :
  Dropout_ok d -> avoids (Dropout.forward d x) e.
Proof.
  intros [H0 H1]. unfold Dropout.forward. rewrite H0, H1. cbn [negb orb].
  destruct (negb _ || _ || _); [apply avoids_ret|].
  destruct (Qeq_bool _ _); [apply avoids_ret|].
  apply avoids_bind; [apply replicateM_avoids, bernoulli_avoids | intros mask].
  apply avoids_ret.
Qed.

(** Past its guard, [Attention.forward] raises no [ValueError]. *)
Lemma Attention_forward_avoids (a : Attention.t) (x : tensor) (B T d : nat) :
  shape x = [B; T; d] ->
  Z.of_nat d = Attention.dim a ->
  Dropout_ok (Attention.attn_drop a) ->
  Dropout_ok (Attention.proj_drop a) ->
  avoids (Attention.forward a x) ValueError.
Proof.
  intros Hs Hd H1 H2.
  rewrite (Attention_forward_unfold a x Hs (eq_sym Hd)).
  apply avoids_bind; [apply Linear_forward_avoids | intros ?].
  apply avoids_bind; [apply reshape_avoids | intros ?].
  apply avoids_bind; [apply permute_avoids | intros ?].
  apply avoids_bind; [apply select_avoids | intros ?].
  apply avoids_bind; [apply select_avoids | intros ?].
  apply avoids_bind; [apply select_avoids | intros ?].
  apply avoids_bind; [apply transpose_avoids | intros ?].
  apply avoids_bind; [apply matmul_avoids | intros ?].
  apply avoids_bind;
    [destruct (Attention.scale a);
       [apply avoids_ret | apply avoids_raise; discriminate] | intros ?].
  apply avoids_bind; [apply avoids_ret | intros ?].
  apply avoids_bind; [now apply Dropout_forward_avoids | intros ?].
  apply avoids_bind; [apply matmul_avoids | intros ?].
  apply avoids_bind; [apply transpose_avoids | intros ?].
  apply avoids_bind; [apply reshape_avoids | intros ?].
  apply avoids_bind; [apply Linear_forward_avoids | intros ?].
  apply avoids_bind; [now apply Dropout_forward_avoids | intros ?].
  apply avoids_ret.
Qed.

End Avoidance.

(** * The complex scale is never used

    A negative [head_dim] makes [scale] a complex number.  A module that
    the constructor returned with such a scale has a negative [n_heads] as
    well, and [Attention.forward] then fails when it reshapes the packed
    projection, before the scale is looked at. *)

Section ComplexScale.
Context {NM : Numerics}.

Lemma reshape_two_negative (y : tensor) (b t nh hd : Z) :
  (0 <= b)%Z -> (0 <= t)%Z -> (nh < 0)%Z -> (hd < 0)%Z ->
  fails (reshape y [b; t; 3%Z; nh; hd]) RuntimeError.
Proof.
  intros Hb Ht Hn Hh. unfold reshape, infer_shape.
  cbn [existsb count_occ].
  replace (b <? -1)%Z with false by (symmetry; apply Z.ltb_ge; lia).
  replace (t <? -1)%Z with false by (symmetry; apply Z.ltb_ge; lia).
  change (3 <? -1)%Z with false. cbn [orb].
  destruct (Z.ltb_spec nh (-1)); [apply fails_raise|].
  destruct (Z.ltb_spec hd (-1)); [apply fails_raise|].
  assert (nh = -1)%Z by lia. assert (hd = -1)%Z by lia. subst. cbn [orb].
  destruct (Z.eq_dec b (-1)) as [?|_]; [lia|].
  destruct (Z.eq_dec t (-1)) as [?|_]; [lia|].
  destruct (Z.eq_dec 3 (-1)) as [?|_]; [lia|].
  destruct (Z.eq_dec (-1) (-1)) as [_|?]; [|lia].
  apply fails_raise.
Qed.

Lemma Linear_forward_outcome (l : Linear.t) (x : tensor) (g : RNG) :
  (exists y, Linear.forward l x g = (inr y, g)) \/
  Linear.forward l x g = (inl RuntimeError, g).
Proof.
  unfold Linear.forward.
  repeat lazymatch goal with
         | |- context [match ?v with _ => _ end] => destruct v
         end;
    (right; reflexivity) || (left; eexists; reflexivity).
Qed.

Lemma Attention_complex_scale_unreachable
      (dim n_heads : Z) (qkv_bias : bool) (attn_p proj_p : Q) (g0 g1 : RNG)
      (a : Attention.t) (B T : nat) (x : tensor) :
  Attention.init dim n_heads qkv_bias attn_p proj_p g0 = (inr a, g1) ->
  Attention.scale a = PyComplex ->
  fails (qkv_ <- Linear.forward (Attention.qkv a) x ;;
         reshape qkv_ [Z.of_nat B; Z.of_nat T; 3%Z;
                       Attention.n_heads a; Attention.head_dim a])
        RuntimeError.
Proof.
  intros E Hsc. pose proof E as E'.
  apply Attention_init_inv in E
    as (Hd & Hn0 & Hq0 & _ & Hn & Hh & _ & _ & _ & _ & Hs).
  assert (Hneg : (dim / n_heads < 0)%Z).
  { destruct (Z.lt_trichotomy (dim / n_heads) 0) as [|[|Hpos]]; [assumption|lia|].
    destruct (Hs Hpos) as [s Hs']. congruence. }
  assert (Hnh : (n_heads < 0)%Z).
  { destruct (Z.lt_trichotomy n_heads 0) as [|[|Hpos]]; [assumption|lia|].
    pose proof (Z.div_pos dim n_heads Hd Hpos). lia. }
  intros g. unfold bind.
  destruct (Linear_forward_outcome (Attention.qkv a) x g) as [[y Ey] | Ey];
    rewrite Ey; [|reflexivity].
  rewrite Hn, Hh. apply reshape_two_negative; lia.
Qed.

End ComplexScale.

(** * Softmax in exact arithmetic

    Floating-point addition and division satisfy none of the laws below, so
    nothing here bounds the rounding error of the attention weights.  What
    it records is the ideal: in an arithmetic where division distributes
    over sums and sums of exponentials do not vanish (the real numbers),
    every row of [softmax_last], and so every row of attention weights,
    sums to one. *)

Section ExactArithmetic.
Context {NM : Numerics}.

Hypothesis fdiv_zero : forall s, s <> f0 -> fdiv f0 s = f0.
Hypothesis fdiv_add :
  forall a b s, s <> f0 -> fdiv (fadd a b) s = fadd (fdiv a s) (fdiv b s).
Hypothesis fdiv_self : forall s, s <> f0 -> fdiv s s = f1.
Hypothesis exp_sum_nonzero : forall l, l <> [] -> fsum (map fexp l) <> f0.

Lemma fold_fadd_div (e : list scalar) (acc s : scalar) :
  s <> f0 ->
  fold_left fadd (map (fun u => fdiv u s) e) (fdiv acc s) =
  fdiv (fold_left fadd e acc) s.
Proof.
  intros Hs. revert acc. induction e as [|v e IH]; intros acc; simpl.
  - reflexivity.
  - rewrite <- fdiv_add by exact Hs. apply IH.
Qed.

Lemma softmax_row_length (row : list scalar) :
  length (softmax_row row) = length row.
Proof.
  destruct row as [|v rest]; [reflexivity|].
  unfold softmax_row. now rewrite !length_map.
Qed.

Lemma softmax_row_sums_to_one (row : list scalar) :
  row <> [] -> fsum (softmax_row row) = f1.
Proof.
  destruct row as [|v rest]; [congruence|]. intros _.
  unfold softmax_row.
  set (m := fold_left fmax rest v).
  set (e := map (fun u => fexp (fsub u m)) (v :: rest)).
  assert (Hs : fsum e <> f0).
  { unfold e. rewrite <- (map_map (fun u => fsub u m) fexp).
    apply exp_sum_nonzero. discriminate. }
  unfold fsum at 1. rewrite <- (fdiv_zero Hs).
  rewrite fold_fadd_div by exact Hs. now apply fdiv_self.
Qed.

Lemma map_nth_seq (l : list scalar) :
  map (fun j => nth j l f0) (seq 0 (length l)) = l.
Proof.
  apply nth_ext with (d := f0) (d' := f0).
  - now rewrite length_map, length_seq.
  - intros n Hn. rewrite length_map, length_seq in Hn.
    rewrite nth_indep with (d' := nth 0 l f0)
      by now rewrite length_map, length_seq.
    rewrite map_nth with (f := fun j => nth j l f0).
    now rewrite seq_nth.
Qed.

Lemma softmax_last_rows_sum_to_one (x : tensor) (pre_sh pre : list nat) (n i : nat) :
  shape x = pre_sh ++ [n] ->
  in_bounds (pre_sh ++ [n]) (pre ++ [i]) ->
  fsum (row_of (softmax_last x) (pre ++ [i])) = f1.
Proof.
  intros Hs Hin.
  assert (Hpre : in_bounds pre_sh pre /\ i < n).
  { apply Forall2_app_inv_r in Hin as (l1 & l2 & H1 & H2 & Heq).
    inversion H2 as [|? ? ? ? Hi H3]; subst. inversion H3; subst.
    apply app_inj_tail in Heq as [-> ->]. now split. }
  destruct Hpre as [Hpre Hi].
  unfold row_of at 1. unfold softmax_last at 1 2.
  rewrite shape_tabulate, Hs, last_last, removelast_last.
  assert (Hrow : forall j, j < n ->
            get (tabulate (pre_sh ++ [n])
                   (fun idx => nth (last idx 0) (softmax_row (row_of x idx)) f0))
                (pre ++ [j])
            = nth j (softmax_row (row_of x (pre ++ [i]))) f0).
  { intros j Hj. rewrite get_tabulate.
    - rewrite last_last. unfold row_of. now rewrite !removelast_last.
    - apply Forall2_app; [exact Hpre | repeat constructor; exact Hj]. }
  rewrite (map_ext_in _ (fun j => nth j (softmax_row (row_of x (pre ++ [i]))) f0)).
  - assert (Hlen : length (softmax_row (row_of x (pre ++ [i]))) = n).
    { rewrite softmax_row_length. unfold row_of.
      now rewrite length_map, length_seq, Hs, last_last. }
    rewrite <- Hlen at 1. rewrite map_nth_seq.
    apply softmax_row_sums_to_one.
    intros Hnil. rewrite Hnil in Hlen. simpl in Hlen. lia.
  - intros j Hj. apply in_seq in Hj. apply Hrow. lia.
Qed.

End ExactArithmetic.

(** * The claims *)

Section Bridge.
Context {NM : Numerics}.

Lemma Forall_prefix {A : Type} (P : A -> Prop) (n : nat) (l : list A) :
  Forall P l -> Forall P (firstn n l).
Proof.
  intros H. revert n. induction H as [|a l Ha _ IH]; intros [|n]; simpl;
    constructor; auto.
Qed.

Lemma divides_nat (E H : Z) :
  (0 < H)%Z -> (0 <= E)%Z -> (E mod H = 0)%Z ->
  Z.to_nat E = Z.to_nat H * (Z.to_nat E / Z.to_nat H).
Proof.
  intros HH HE Hm.
  rewrite <- (Z2Nat.id E), <- (Z2Nat.id H) in Hm by lia.
  rewrite <- Nat2Z.inj_mod in Hm.
  apply Nat.Div0.div_exact. lia.
Qed.

Lemma not_divides_nat (E H : Z) :
  (0 < H)%Z -> (0 <= E)%Z -> (E mod H <> 0)%Z ->
  Z.to_nat E <> Z.to_nat H * (Z.to_nat E / Z.to_nat H).
Proof.
  intros HH HE Hm Heq. apply Hm.
  rewrite <- (Z2Nat.id E), <- (Z2Nat.id H) by lia.
  rewrite <- Nat2Z.inj_mod.
  apply Nat.Div0.div_exact in Heq. lia.
Qed.

Lemma tokens_of_config (img k : Z) :
  (0 < k)%Z -> (0 <= img)%Z ->
  Z.to_nat ((img / k) ^ 2 + 1) =
  1 + (Z.to_nat img / Z.to_nat k) * (Z.to_nat img / Z.to_nat k).
Proof.
  intros Hk Hi.
  rewrite <- (Z2Nat.id img) at 1 by lia. rewrite <- (Z2Nat.id k) at 1 by lia.
  apply token_count.
Qed.

Lemma patches_of_config (img k : Z) :
  (0 < k)%Z -> (0 <= img)%Z ->
  Z.to_nat ((img / k) ^ 2) =
  (Z.to_nat img / Z.to_nat k) * (Z.to_nat img / Z.to_nat k).
Proof.
  intros Hk Hi. pose proof (tokens_of_config Hk Hi) as H.
  pose proof (Z.pow_nonneg (img / k) 2).
  rewrite Z2Nat.inj_add in H by lia. simpl Z.to_nat in H. lia.
Qed.

Lemma divisor_le (a b : Z) : (0 < a)%Z -> (0 < b)%Z -> (a mod b = 0)%Z -> (b <= a)%Z.
Proof.
  intros Ha Hb Hm. destruct (Z.le_gt_cases b a) as [|Hlt]; [assumption|].
  rewrite Z.mod_small in Hm by lia. lia.
Qed.

Lemma valid_config_sane (c : VisionTransformer.config) :
  valid_config c ->
  sane_config c /\
  (VisionTransformer.patch_size c <= VisionTransformer.img_size c)%Z /\
  (VisionTransformer.embed_dim c mod VisionTransformer.n_heads c = 0)%Z.
Proof.
  intros (Hi & Hk & Hm & HE & HH & Hdiv & HC & HN & Hhid & Hp & Ha & Hpr).
  pose proof (divisor_le Hi Hk Hm). pose proof (divisor_le HE HH Hdiv).
  unfold sane_config. tauto.
Qed.

(** A model built from a sane configuration whose patches fit the image and
    whose heads divide the width maps a batch of images to a batch of
    logits, in either mode. *)
Lemma built_forward_returns (c : VisionTransformer.config)
      (m : VisionTransformer.t) (mode : bool) (B : nat) (x : tensor) :
  sane_config c ->
  (VisionTransformer.patch_size c <= VisionTransformer.img_size c)%Z ->
  (VisionTransformer.embed_dim c mod VisionTransformer.n_heads c = 0)%Z ->
  built_from c m ->
  shaped [B; Z.to_nat (VisionTransformer.in_channels c);
          Z.to_nat (VisionTransformer.img_size c);
          Z.to_nat (VisionTransformer.img_size c)] x ->
  returns (VisionTransformer.forward (VisionTransformer.train mode m) x)
          (shaped [B; Z.to_nat (VisionTransformer.n_classes c)]).
Proof.
  intros (Hk & Hi & HC & HN & [HH HE] & _) Hle Hdiv Hb Hx.
  eapply VisionTransformer_forward_returns.
  - apply VisionTransformer_train_ok. exact Hb.
  - apply tokens_of_config; lia.
  - lia.
  - lia.
  - apply divides_nat; lia.
  - exact Hx.
Qed.

End Bridge.

Lemma scenario_B_valid : valid_config (NM := ZNumerics) scenario_B.
Proof.
  unfold valid_config, prob, scenario_B; cbn.
  repeat split; try reflexivity; try lia; vm_compute; congruence.
Qed.

(** C1. For every batch size [B] and every valid configuration, the
    constructor succeeds, and [VisionTransformer.forward] applied to an
    input of shape [(B, in_channels, image_size, image_size)] returns a
    tensor of shape exactly [(B, n_classes)], in training as in evaluation
    mode. *)
Theorem VisionTransformer_forward_shape {NM : Numerics}
        (c : VisionTransformer.config) (g0 : RNG) :
  valid_config c ->
  exists m g1,
    VisionTransformer.init c g0 = (inr m, g1) /\
    VisionTransformer.train true m = m /\
    forall (mode : bool) (B : nat) (x : tensor) (g : RNG),
      shaped [B; Z.to_nat (VisionTransformer.in_channels c);
              Z.to_nat (VisionTransformer.img_size c);
              Z.to_nat (VisionTransformer.img_size c)] x ->
      exists y g',
        VisionTransformer.forward (VisionTransformer.train mode m) x g = (inr y, g') /\
        shaped [B; Z.to_nat (VisionTransformer.n_classes c)] y.
Proof.
  intros Hv. apply valid_config_sane in Hv as (Hs & Hle & Hdiv).
  destruct (VisionTransformer_init_returns Hs g0) as (m & g1 & E & Hb).
  exists m, g1. split; [exact E|]. split.
  - now apply VisionTransformer_init_dropouts in E.
  - intros mode B x g Hx.
    exact (built_forward_returns mode Hs Hle Hdiv Hb Hx g).
Qed.

(** Scenario B of the specification: images of side 32, patches of side 8,
    width 64, two blocks, four heads, ten classes; a batch of four images
    gives logits of shape [(4, 10)]. *)
Lemma VisionTransformer_forward_shape_witness :
  exists m g1 y g',
    VisionTransformer.init (NM := ZNumerics) scenario_B 0 = (inr m, g1) /\
    VisionTransformer.forward (VisionTransformer.train true m)
      (full (NM := ZNumerics) [4; 3; 32; 32] 1%Z) g1 = (inr y, g') /\
    shaped [4; 10] y.
Proof.
  destruct (@VisionTransformer_forward_shape ZNumerics scenario_B 0 scenario_B_valid)
    as (m & g1 & E & _ & Hf).
  destruct (Hf true 4 (full (NM := ZNumerics) [4; 3; 32; 32] 1%Z) g1
              (shaped_tabulate _ _)) as (y & g' & Ey & Hy).
  exists m, g1, y, g'. split; [exact E|]. split; [exact Ey | exact Hy].
Defined.

(** C2. On a rank-3 input, [Attention.forward] raises the
    configuration-mismatch error ([ValueError]) if and only if the last
    dimension of the input differs from the configured [dim].  When it
    does, nothing has been computed: the generator is untouched, and the
    Q/K/V projection, which comes next in the method and would itself fail
    on such an input with a [RuntimeError], has not been reached. *)
Theorem Attention_forward_dim_check {NM : Numerics}
        (dim n_heads : Z) (qkv_bias : bool) (attn_p proj_p : Q)
        (g0 g1 : RNG) (a : Attention.t) (B T d : nat) (x : tensor) :
  Attention.init dim n_heads qkv_bias attn_p proj_p g0 = (inr a, g1) ->
  shape x = [B; T; d] ->
  (forall g, (exists g', Attention.forward a x g = (inl ValueError, g'))
             <-> Z.of_nat d <> dim) /\
  (Z.of_nat d <> dim ->
   forall g, Attention.forward a x g = (inl ValueError, g) /\
             Linear.forward (Attention.qkv a) x g = (inl RuntimeError, g)).
Proof.
  intros E Hs.
  apply Attention_init_inv in E
    as (Hd0 & _ & _ & Hd & _ & _ & Hl1 & _ & (Hd1 & _) & (Hd2 & _) & _).
  split.
  - intros g. split.
    + intros [g' Eg] Heq.
      eapply (@Attention_forward_avoids NM a x B T d); eauto; congruence.
    + intros Hne. exists g.
      apply (@Attention_forward_mismatch NM a x B T d); congruence.
  - intros Hne g. split.
    + apply (@Attention_forward_mismatch NM a x B T d); congruence.
    + apply (@Linear_forward_mismatch NM (Attention.qkv a) x (Z.to_nat dim)
               (Z.to_nat (dim * 3)) d [B; T]); [assumption | assumption | lia].
Qed.

(** An attention module of width 4 given tokens of width 3. *)
Lemma Attention_forward_dim_check_witness :
  exists a g1,
    Attention.init (NM := ZNumerics) 4 2 true 0 0 0 = (inr a, g1) /\
    let x := tabulate (NM := ZNumerics) [1; 2; 3] (fun _ => 0%Z) in
    (forall g, (exists g', Attention.forward a x g = (inl ValueError, g'))
               <-> Z.of_nat 3 <> 4%Z) /\
    (Z.of_nat 3 <> 4%Z ->
     forall g, Attention.forward a x g = (inl ValueError, g) /\
               Linear.forward (Attention.qkv a) x g = (inl RuntimeError, g)).
Proof.
  destruct (@Attention_init_returns ZNumerics 4 2 true 0 0) with (g := 0)
    as (a & g1 & E & _); try (split; reflexivity); try lia.
  exists a, g1. split; [exact E|].
  exact (@Attention_forward_dim_check ZNumerics 4 2 true 0 0 0 g1 a 1 2 3
           (tabulate (NM := ZNumerics) [1; 2; 3] (fun _ => 0%Z)) E eq_refl).
Defined.

(** C3, as the claim states it, fails: ten features and three heads are
    accepted by the constructor, which stores [head_dim = 3]. *)
Lemma Attention_init_indivisible_accepted :
  (10 mod 3)%Z = 1%Z /\
  match Attention.init (NM := ZNumerics) 10 3 true 0 0 0 with
  | (inr a, _) => Attention.head_dim a = 3%Z
  | (inl _, _) => False
  end /\
  match VisionTransformer.init (NM := ZNumerics) indivisible_config 0 with
  | (inr _, _) => True
  | (inl _, _) => False
  end.
Proof.
  split; [reflexivity|].
  split; vm_compute; [reflexivity | exact I].
Qed.

(** C3, amended.  With [0 < n_heads <= embed_dim] and [n_heads] not
    dividing [embed_dim], constructing the model, or an attention module,
    raises nothing: [head_dim] is the integer quotient.  The mismatch
    surfaces in [Attention.forward], which raises a [RuntimeError] when it
    reshapes the packed projection of a non-empty input. *)
Theorem construction_accepts_indivisible_heads {NM : Numerics}
        (c : VisionTransformer.config) (g0 : RNG) :
  sane_config c ->
  (VisionTransformer.embed_dim c mod VisionTransformer.n_heads c <> 0)%Z ->
  (exists m g1, VisionTransformer.init c g0 = (inr m, g1)) /\
  (exists a g1,
     Attention.init (VisionTransformer.embed_dim c) (VisionTransformer.n_heads c)
       (VisionTransformer.qkv_bias c) (VisionTransformer.attn_p c)
       (VisionTransformer.proj_p c) g0 = (inr a, g1) /\
     Attention.head_dim a =
       (VisionTransformer.embed_dim c / VisionTransformer.n_heads c)%Z /\
     forall (B T : nat) (x : tensor),
       0 < B -> 0 < T ->
       shaped [B; T; Z.to_nat (VisionTransformer.embed_dim c)] x ->
       raises (Attention.forward a x) RuntimeError).
Proof.
  intros Hs Hnd. split.
  - destruct (VisionTransformer_init_returns Hs g0) as (m & g1 & E & _).
    now exists m, g1.
  - destruct Hs as (_ & _ & _ & _ & [HH HE] & _ & _ & Ha & Hp).
    set (E := VisionTransformer.embed_dim c) in *.
    set (H := VisionTransformer.n_heads c) in *.
    destruct (@Attention_init_returns NM (Z.to_nat E) (Z.to_nat H)
                (VisionTransformer.qkv_bias c) (VisionTransformer.attn_p c)
                (VisionTransformer.proj_p c)) with (g := g0)
      as (a & g1 & Ea & Hok & _); try assumption; try lia.
    rewrite !Z2Nat.id in Ea by lia.
    exists a, g1. split; [exact Ea|]. split.
    + destruct Hok as (_ & _ & Hhd & _). rewrite Hhd.
      rewrite Nat2Z.inj_div, !Z2Nat.id by lia. reflexivity.
    + intros B T x HB HT Hx.
      eapply Attention_forward_indivisible with (B := B) (T := T)
        (D := Z.to_nat E) (H := Z.to_nat H); try eassumption.
      apply not_divides_nat; lia.
Qed.

Lemma indivisible_config_sane : sane_config (NM := ZNumerics) indivisible_config.
Proof.
  unfold sane_config, prob, indivisible_config; cbn.
  repeat split; try reflexivity; try lia; vm_compute; congruence.
Qed.

(** Width 10 and three heads. *)
Lemma construction_accepts_indivisible_heads_witness :
  (exists m g1,
     VisionTransformer.init (NM := ZNumerics) indivisible_config 0 = (inr m, g1)) /\
  (exists a g1,
     Attention.init (NM := ZNumerics) 10 3 true 0 0 0 = (inr a, g1) /\
     Attention.head_dim a = (10 / 3)%Z /\
     forall (B T : nat) (x : tensor),
       0 < B -> 0 < T -> shaped [B; T; 10] x ->
       raises (Attention.forward a x) RuntimeError).
Proof.
  apply (@construction_accepts_indivisible_heads ZNumerics indivisible_config 0
           indivisible_config_sane).
  vm_compute. discriminate.
Defined.

(** C5. In a block built for width [D] and [H] heads with [H] dividing [D],
    [Attention.forward], [MLP.forward] and [Block.forward] each map an
    input of shape [(B, T, D)] to a tensor of the same shape.  Consequently,
    in a model built from a valid configuration, the token sequence that
    [forward] assembles from a batch of images has length [n_patches + 1],
    and it still has after any number [n] of the encoder blocks of the
    stack: its shape is [(B, n_patches + 1, embed_dim)] before and after
    every block. *)
Theorem encoder_preserves_shape {NM : Numerics} :
  (forall (D H : nat) (mlp_ratio : Q) (qkv_bias : bool) (p attn_p proj_p : Q)
          (g0 g1 : RNG) (b : Block.t) (B T : nat) (x : tensor),
      D mod H = 0 ->
      Block.init (Z.of_nat D) (Z.of_nat H) mlp_ratio qkv_bias p attn_p proj_p g0
        = (inr b, g1) ->
      shaped [B; T; D] x ->
      returns (Attention.forward (Block.attn b) x) (shaped [B; T; D]) /\
      returns (MLP.forward (Block.mlp b) x) (shaped [B; T; D]) /\
      returns (Block.forward b x) (shaped [B; T; D])) /\
  (forall (c : VisionTransformer.config) (g0 g1 : RNG) (m : VisionTransformer.t)
          (B n : nat) (x : tensor),
      valid_config c ->
      VisionTransformer.init c g0 = (inr m, g1) ->
      shaped [B; Z.to_nat (VisionTransformer.in_channels c);
              Z.to_nat (VisionTransformer.img_size c);
              Z.to_nat (VisionTransformer.img_size c)] x ->
      returns
        (x <- PatchEmbedding.forward (VisionTransformer.patch_embed m) x ;;
         cls_token_ <- expand (VisionTransformer.cls_token m) [Z.of_nat B; -1; -1]%Z ;;
         x <- cat cls_token_ x 1 ;;
         x <- tadd x (VisionTransformer.pos_embed m) ;;
         x <- Dropout.forward (VisionTransformer.pos_drop m) x ;;
         VisionTransformer.run_blocks (firstn n (VisionTransformer.blocks m)) x)
        (shaped [B;
                 Z.to_nat (PatchEmbedding.n_patches (VisionTransformer.patch_embed m) + 1);
                 Z.to_nat (VisionTransformer.embed_dim c)])).
Proof.
  split.
  - intros D H mlp_ratio qkv_bias p attn_p proj_p g0 g1 b B T x Hmod E Hx.
    apply Block_init_inv in E as (Hok & HH & HD).
    assert (Hdiv : D = H * (D / H)) by (apply Nat.Div0.div_exact; exact Hmod).
    pose proof Hok as (_ & Ha & _ & [Hd Hm]).
    split; [|split].
    + eapply Attention_forward_returns; eauto.
    + eapply MLP_forward_returns with (pre := [B; T]); eauto.
    + eapply Block_forward_returns; eauto.
  - intros c g0 g1 m B n x Hv E Hx.
    apply valid_config_sane in Hv as (Hs & Hle & Hdiv).
    assert (Hb : built_from c m) by (eapply VisionTransformer_init_built; eassumption).
    rewrite (@VisionTransformer_init_n_patches NM c g0 g1 m E).
    destruct Hs as (Hk & Hi & HC & HN & [HH HE] & _).
    unfold built_from in Hb.
    set (T := Z.to_nat ((VisionTransformer.img_size c
                         / VisionTransformer.patch_size c) ^ 2 + 1)) in *.
    pose proof Hb as (Hpe & Hcls & Hpos & Hpd & Hbs & _).
    assert (HT : T = 1 + (Z.to_nat (VisionTransformer.img_size c)
                          / Z.to_nat (VisionTransformer.patch_size c))
                         * (Z.to_nat (VisionTransformer.img_size c)
                            / Z.to_nat (VisionTransformer.patch_size c)))
      by (apply tokens_of_config; lia).
    eapply returns_bind.
    { eapply PatchEmbedding_forward_returns
        with (sz := Z.to_nat (VisionTransformer.img_size c));
        [exact Hpe | lia | lia | exact Hx]. }
    intros y1 Hy1.
    eapply returns_bind.
    { eapply expand_batch_returns. apply Hcls. }
    intros c1 Hc1.
    eapply returns_bind.
    { eapply cat_returns_dim1; [apply Hc1 | apply Hy1]. }
    intros y2 Hy2. rewrite <- HT in Hy2.
    eapply returns_bind.
    { eapply tadd_batch_returns; [apply Hy2 | apply Hpos]. }
    intros y3 Hy3.
    eapply returns_bind.
    { eapply Dropout_forward_returns; eauto. }
    intros y4 Hy4.
    eapply run_blocks_returns.
    + apply Forall_prefix. exact Hbs.
    + apply divides_nat; lia.
    + exact Hy4.
Qed.

Lemma example_block_built :
  exists b g1,
    Block.init (NM := ZNumerics) 4 2 2 true (1 # 2) (1 # 4) (1 # 8) 0 = (inr b, g1).
Proof.
  assert (Hhid : (0 <= py_int_mul (Numerics := ZNumerics) (Z.of_nat 4) 2)%Z)
    by (vm_compute; congruence).
  destruct (@Block_init_returns ZNumerics 4 2 2 true (1 # 2) (1 # 4) (1 # 8)
              ltac:(lia) ltac:(lia) Hhid ltac:(split; reflexivity)
              ltac:(split; reflexivity) 0) as (b & g1 & E & _).
  now exists b, g1.
Qed.

Lemma small_config_valid : valid_config (NM := ZNumerics) small_config.
Proof.
  unfold valid_config, prob, small_config; cbn.
  repeat split; try reflexivity; try lia; vm_compute; congruence.
Qed.

(** A block of width 4 with two heads, and the one-block model of
    [small_config] on two images of side 4. *)
Lemma encoder_preserves_shape_witness :
  (exists b g1,
     Block.init (NM := ZNumerics) 4 2 2 true (1 # 2) (1 # 4) (1 # 8) 0 = (inr b, g1) /\
     forall x, shaped [2; 5; 4] x ->
       returns (Attention.forward (Block.attn b) x) (shaped [2; 5; 4]) /\
       returns (MLP.forward (Block.mlp b) x) (shaped [2; 5; 4]) /\
       returns (Block.forward b x) (shaped [2; 5; 4])) /\
  (exists m g1,
     VisionTransformer.init (NM := ZNumerics) small_config 0 = (inr m, g1) /\
     forall x, shaped [2; 1; 4; 4] x ->
       returns
         (x <- PatchEmbedding.forward (VisionTransformer.patch_embed m) x ;;
          cls_token_ <- expand (VisionTransformer.cls_token m) [2; -1; -1]%Z ;;
          x <- cat cls_token_ x 1 ;;
          x <- tadd x (VisionTransformer.pos_embed m) ;;
          x <- Dropout.forward (VisionTransformer.pos_drop m) x ;;
          VisionTransformer.run_blocks (firstn 1 (VisionTransformer.blocks m)) x)
         (shaped [2;
                  Z.to_nat (PatchEmbedding.n_patches (VisionTransformer.patch_embed m) + 1);
                  4])).
Proof.
  split.
  - destruct example_block_built as (b & g1 & E).
    exists b, g1. split; [exact E|]. intros x Hx.
    exact (proj1 (@encoder_preserves_shape ZNumerics) 4 2 2%Q true (1 # 2)%Q
             (1 # 4)%Q (1 # 8)%Q 0 g1 b 2 5 x eq_refl E Hx).
  - destruct (VisionTransformer_init_returns (proj1 (valid_config_sane small_config_valid)) 0)
      as (m & g1 & E & _).
    exists m, g1. split; [exact E|]. intros x Hx.
    exact (proj2 (@encoder_preserves_shape ZNumerics) small_config 0 g1 m 2 1 x
             small_config_valid E Hx).
Defined.

(** C6. For a patch embedding built with [0 < patch_size <= img_size], at
    least one input channel and at least one feature,
    [PatchEmbedding.forward] maps an input of shape
    [(B, in_channels, img_size, img_size)] to a tensor of shape
    [(B, n_patches, embed_dim)] with
    [n_patches = (img_size // patch_size) ** 2].  The embedding at position
    [i * (img_size // patch_size) + j] of image [b] (row-major over the
    patch grid) is the output of one linear layer, the same for every
    patch, applied to the flattened tile whose corner is
    [(i * patch_size, j * patch_size)]: tiles do not overlap. *)
Theorem PatchEmbedding_forward_patches {NM : Numerics}
        (img_size patch_size in_channels embed_dim : Z) (g0 g1 : RNG)
        (pe : PatchEmbedding.t) (B : nat) (x : tensor) :
  (patch_size <= img_size)%Z ->
  (0 < in_channels)%Z ->
  (0 < embed_dim)%Z ->
  PatchEmbedding.init img_size patch_size in_channels embed_dim g0 = (inr pe, g1) ->
  shaped [B; Z.to_nat in_channels; Z.to_nat img_size; Z.to_nat img_size] x ->
  let C := Z.to_nat in_channels in
  let E := Z.to_nat embed_dim in
  let k := Z.to_nat patch_size in
  let grid := Z.to_nat img_size / k in
  PatchEmbedding.n_patches pe = ((img_size / patch_size) ^ 2)%Z /\
  exists t,
    (forall g, PatchEmbedding.forward pe x g = (inr t, g)) /\
    shaped [B; Z.to_nat (PatchEmbedding.n_patches pe); E] t /\
    forall b i j, b < B -> i < grid -> j < grid ->
      exists v,
        (forall g, Linear.forward
                     (projection_matrix (PatchEmbedding.projection pe) E C k)
                     (tile x C k b i j) g = (inr v, g)) /\
        shaped [E] v /\
        forall e, e < E -> get t [b; i * grid + j; e] = get v [e].
Proof.
  intros Hle _ _ Einit Hx C E k grid.
  apply PatchEmbedding_init_inv in Einit as (Hk & HC & HE & Hpe & _ & _ & Hn).
  split; [exact Hn|].
  destruct (@PatchEmbedding_forward_elements NM pe x C E k B (Z.to_nat img_size))
    as (t & Et & Ht & Hel); try assumption; try (unfold k; lia); try apply Hx.
  exists t. split; [intros g; now rewrite Et|]. split.
  - rewrite Hn, patches_of_config by lia. exact Ht.
  - intros b i j Hb Hi Hj.
    destruct (@conv_at_is_linear NM (PatchEmbedding.projection pe) x C E k b i j Hpe)
      as (v & Ev & Hv & Hvel).
    exists v. split; [intros g; now rewrite Ev|]. split; [exact Hv|].
    intros e He. rewrite Hvel by exact He. now apply Hel.
Qed.

(** Two one-channel images of side 5, patches of side 2, width 4. *)
Lemma PatchEmbedding_forward_patches_witness :
  exists pe g1,
    PatchEmbedding.init (NM := ZNumerics) 5 2 1 4 0 = (inr pe, g1) /\
    let x := tabulate (NM := ZNumerics) [2; 1; 5; 5]
               (fun idx => Z.of_nat (ravel [2; 1; 5; 5] idx)) in
    PatchEmbedding.n_patches pe = ((5 / 2) ^ 2)%Z /\
    exists t,
      (forall g, PatchEmbedding.forward pe x g = (inr t, g)) /\
      shaped [2; Z.to_nat (PatchEmbedding.n_patches pe); 4] t /\
      forall b i j, b < 2 -> i < 2 -> j < 2 ->
        exists v,
          (forall g, Linear.forward
                       (projection_matrix (PatchEmbedding.projection pe) 4 1 2)
                       (tile x 1 2 b i j) g = (inr v, g)) /\
          shaped [4] v /\
          forall e, e < 4 -> get t [b; i * 2 + j; e] = get v [e].
Proof.
  destruct (@PatchEmbedding_init_returns ZNumerics 5 2 1 4) with (g := 0)
    as (pe & g1 & E & _); [lia|].
  exists pe, g1. split; [exact E|].
  apply (@PatchEmbedding_forward_patches ZNumerics 5 2 1 4 0 g1 pe 2
           (tabulate (NM := ZNumerics) [2; 1; 5; 5]
              (fun idx => Z.of_nat (ravel [2; 1; 5; 5] idx)))).
  - lia.
  - lia.
  - lia.
  - exact E.
  - apply shaped_tabulate.
Defined.

(** C7. On a model built from a valid configuration,
    [VisionTransformer.forward] is the composition the specification
    lists, stage by stage and in that order: patch embedding; the
    classification token at position 0 of every sequence, the patch
    embeddings after it; the positional embedding added once, element by
    element, to every sequence of the batch; dropout; the [depth] encoder
    blocks in list order; the final normalisation; the token at position 0;
    the linear head. *)
Theorem VisionTransformer_forward_composition {NM : Numerics}
        (c : VisionTransformer.config) (g0 g1 : RNG) (m : VisionTransformer.t)
        (mode : bool) (B : nat) (x : tensor) (g : RNG) :
  valid_config c ->
  VisionTransformer.init c g0 = (inr m, g1) ->
  shaped [B; Z.to_nat (VisionTransformer.in_channels c);
          Z.to_nat (VisionTransformer.img_size c);
          Z.to_nat (VisionTransformer.img_size c)] x ->
  length (VisionTransformer.blocks m) = Z.to_nat (VisionTransformer.depth c) /\
  VisionTransformer.forward (VisionTransformer.train mode m) x g =
  spec_forward (VisionTransformer.train mode m) x B
    (Z.to_nat (PatchEmbedding.n_patches (VisionTransformer.patch_embed m)))
    (Z.to_nat (VisionTransformer.embed_dim c)) g.
Proof.
  intros Hv E Hx.
  apply valid_config_sane in Hv as (Hs & Hle & Hdiv).
  assert (Hb : built_from c m) by (eapply VisionTransformer_init_built; eassumption).
  rewrite (@VisionTransformer_init_n_patches NM c g0 g1 m E).
  split; [now apply VisionTransformer_init_dropouts in E|].
  destruct Hs as (Hk & Hi & HC & HN & [HH HE] & _).
  rewrite patches_of_config by lia.
  eapply VisionTransformer_forward_spec.
  - apply VisionTransformer_train_ok. exact Hb.
  - apply tokens_of_config; lia.
  - lia.
  - lia.
  - apply divides_nat; lia.
  - exact Hx.
Qed.

(** The model of [small_config], in evaluation mode, on two images. *)
Lemma VisionTransformer_forward_composition_witness :
  exists m g1,
    VisionTransformer.init (NM := ZNumerics) small_config 0 = (inr m, g1) /\
    let x := tabulate (NM := ZNumerics) [2; 1; 4; 4]
               (fun idx => Z.of_nat (ravel [2; 1; 4; 4] idx)) in
    length (VisionTransformer.blocks m) = 1 /\
    VisionTransformer.forward (VisionTransformer.train false m) x g1 =
    spec_forward (VisionTransformer.train false m) x 2
      (Z.to_nat (PatchEmbedding.n_patches (VisionTransformer.patch_embed m))) 4 g1.
Proof.
  destruct (VisionTransformer_init_returns (proj1 (valid_config_sane small_config_valid)) 0)
    as (m & g1 & E & _).
  exists m, g1. split; [exact E|].
  exact (@VisionTransformer_forward_composition ZNumerics small_config 0 g1 m false 2
           (tabulate (NM := ZNumerics) [2; 1; 4; 4]
              (fun idx => Z.of_nat (ravel [2; 1; 4; 4] idx)))
           g1 small_config_valid E (shaped_tabulate _ _)).
Defined.

(** C8, as the claim states it, fails: an image of side 1 with patches of
    side 2 is a configuration in which [patch_size] does not divide
    [img_size]; construction succeeds, but [forward] raises a
    [RuntimeError], in the convolution of the patch embedding. *)
Lemma oversized_patch_forward_raises :
  (1 mod 2)%Z = 1%Z /\
  match VisionTransformer.init (NM := ZNumerics) oversized_patch_config 0 with
  | (inr m, g1) =>
      let x := tabulate (NM := ZNumerics) [1; 1; 1; 1] (fun _ => 0%Z) in
      PatchEmbedding.forward (VisionTransformer.patch_embed m) x g1
        = (inl RuntimeError, g1) /\
      VisionTransformer.forward m x g1 = (inl RuntimeError, g1)
  | (inl _, _) => False
  end.
Proof.
  split; [reflexivity|].
  vm_compute. split; reflexivity.
Qed.

(** C8, amended.  If [patch_size] does not divide [img_size], construction
    succeeds all the same.  When [patch_size <= img_size], the forward
    computation truncates silently: [PatchEmbedding.forward] returns a
    sequence of length [(img_size // patch_size) ** 2] and [forward] returns
    logits of shape [(B, n_classes)], no error being raised.  When
    [img_size < patch_size], the convolution of the patch embedding refuses
    the image and [forward] raises a [RuntimeError]. *)
Theorem forward_truncates_silently {NM : Numerics}
        (c : VisionTransformer.config) (g0 : RNG) :
  sane_config c ->
  (VisionTransformer.embed_dim c mod VisionTransformer.n_heads c = 0)%Z ->
  (VisionTransformer.img_size c mod VisionTransformer.patch_size c <> 0)%Z ->
  exists m g1,
    VisionTransformer.init c g0 = (inr m, g1) /\
    forall (B : nat) (x : tensor),
      shaped [B; Z.to_nat (VisionTransformer.in_channels c);
              Z.to_nat (VisionTransformer.img_size c);
              Z.to_nat (VisionTransformer.img_size c)] x ->
      ((VisionTransformer.patch_size c <= VisionTransformer.img_size c)%Z ->
       returns (PatchEmbedding.forward (VisionTransformer.patch_embed m) x)
               (shaped [B;
                        Z.to_nat ((VisionTransformer.img_size c
                                   / VisionTransformer.patch_size c) ^ 2);
                        Z.to_nat (VisionTransformer.embed_dim c)]) /\
       returns (VisionTransformer.forward m x)
               (shaped [B; Z.to_nat (VisionTransformer.n_classes c)])) /\
      ((VisionTransformer.img_size c < VisionTransformer.patch_size c)%Z ->
       raises (PatchEmbedding.forward (VisionTransformer.patch_embed m) x)
              RuntimeError /\
       raises (VisionTransformer.forward m x) RuntimeError).
Proof.
  intros Hs Hdiv _.
  destruct (VisionTransformer_init_returns Hs g0) as (m & g1 & E & Hb).
  exists m, g1. split; [exact E|].
  intros B x Hx. split.
  - intros Hle. split.
    + destruct Hs as (Hk & Hi & _).
      rewrite patches_of_config by lia.
      eapply PatchEmbedding_forward_returns
        with (sz := Z.to_nat (VisionTransformer.img_size c));
        [apply Hb | lia | lia | exact Hx].
    + pose proof (built_forward_returns true Hs Hle Hdiv Hb Hx) as H.
      apply VisionTransformer_init_dropouts in E as (_ & _ & _ & Et).
      now rewrite Et in H.
  - intros Hlt.
    assert (Hpe : raises (PatchEmbedding.forward (VisionTransformer.patch_embed m) x)
                         RuntimeError).
    { destruct Hs as (Hk & Hi & _).
      eapply PatchEmbedding_forward_small
        with (sz := Z.to_nat (VisionTransformer.img_size c));
        [apply Hb | lia | apply Hx]. }
    split; [exact Hpe|].
    unfold VisionTransformer.forward. rewrite (proj1 Hx), bind_ret_l.
    now apply raises_bind_left.
Qed.

Lemma truncating_config_sane : sane_config (NM := ZNumerics) truncating_config.
Proof.
  unfold sane_config, prob, truncating_config; cbn.
  repeat split; try reflexivity; try lia; vm_compute; congruence.
Qed.

(** Images of side 5 cut into patches of side 2: four patches, one row and
    one column of pixels being dropped. *)
Lemma forward_truncates_silently_witness :
  exists m g1,
    VisionTransformer.init (NM := ZNumerics) truncating_config 0 = (inr m, g1) /\
    let x := full (NM := ZNumerics) [2; 1; 5; 5] 1%Z in
    returns (PatchEmbedding.forward (VisionTransformer.patch_embed m) x)
            (shaped [2; 4; 4]) /\
    returns (VisionTransformer.forward m x) (shaped [2; 3]).
Proof.
  destruct (@forward_truncates_silently ZNumerics truncating_config 0
              truncating_config_sane eq_refl)
    as (m & g1 & E & Hf).
  - vm_compute. discriminate.
  - exists m, g1. split; [exact E|].
    apply (Hf 2 (full (NM := ZNumerics) [2; 1; 5; 5] 1%Z) (shaped_tabulate _ _)).
    vm_compute. discriminate.
Defined.

(** C9. A forward call in inference mode carries no state: on every input
    its outcome is the same whatever the state of the generator, so two
    evaluations of one model on one input give equal outputs, and the
    process, module parameters and generator, is after the call what it
    was before. *)
Theorem VisionTransformer_forward_stateless {NM : Numerics}
        (m : VisionTransformer.t) (x : tensor) :
  exists r,
    forall g,
      VisionTransformer.forward (VisionTransformer.eval m) x g = (r, g) /\
      call x (mkProcess (VisionTransformer.eval m) g)
        = (r, mkProcess (VisionTransformer.eval m) g).
Proof.
  destruct (VisionTransformer_forward_pure (m := VisionTransformer.eval m) x
              (eval_inference_mode m)) as [r Hr].
  exists r. intros g. split; [apply Hr|].
  unfold call. cbn [model generator]. now rewrite Hr.
Qed.

(** C10. [Block.__init__] builds its [MLP] without passing a dropout
    probability on.  Whatever [p], [attn_p] and [proj_p] are given to the
    constructors, the dropout after each feed-forward linear layer has
    probability 0 and returns its input unchanged, also in training mode,
    without drawing from the generator; the positional, the
    attention-weight and the output-projection dropouts carry the
    probabilities given. *)
Theorem Block_mlp_dropout_is_zero {NM : Numerics} :
  (forall (dim n_heads : Z) (mlp_ratio : Q) (qkv_bias : bool) (p attn_p proj_p : Q)
          (g0 g1 : RNG) (b : Block.t),
      Block.init dim n_heads mlp_ratio qkv_bias p attn_p proj_p g0 = (inr b, g1) ->
      Dropout.p (MLP.drop (Block.mlp b)) = 0%Q /\
      Dropout.training (MLP.drop (Block.mlp b)) = true /\
      (forall x g, Dropout.forward (MLP.drop (Block.mlp b)) x g = (inr x, g)) /\
      Dropout.p (Attention.attn_drop (Block.attn b)) = attn_p /\
      Dropout.p (Attention.proj_drop (Block.attn b)) = proj_p) /\
  (forall (c : VisionTransformer.config) (g0 g1 : RNG) (m : VisionTransformer.t),
      VisionTransformer.init c g0 = (inr m, g1) ->
      Dropout.p (VisionTransformer.pos_drop m) = VisionTransformer.p c /\
      Forall (fun b =>
                Dropout.p (MLP.drop (Block.mlp b)) = 0%Q /\
                (forall x g, Dropout.forward (MLP.drop (Block.mlp b)) x g = (inr x, g)) /\
                Dropout.p (Attention.attn_drop (Block.attn b)) = VisionTransformer.attn_p c /\
                Dropout.p (Attention.proj_drop (Block.attn b)) = VisionTransformer.proj_p c)
             (VisionTransformer.blocks m)).
Proof.
  split.
  - intros dim n_heads mlp_ratio qkv_bias p attn_p proj_p g0 g1 b E.
    apply Block_init_dropouts in E as (Ha & Hp & Hm & Ht).
    repeat split; try assumption.
    + rewrite <- Ht. reflexivity.
    + intros x g. now apply Dropout_forward_p0.
  - intros c g0 g1 m E.
    apply VisionTransformer_init_dropouts in E as (Hp & _ & Hbs & _).
    split; [exact Hp|].
    eapply Forall_impl; [|exact Hbs].
    intros b (Ha & Hpr & Hm & _).
    repeat split; try assumption.
    intros x g. now apply Dropout_forward_p0.
Qed.

(** Constructor arguments [p = 1/2], [attn_p = 1/4], [proj_p = 1/8]. *)
Lemma Block_mlp_dropout_is_zero_witness :
  (exists b g1,
     Block.init (NM := ZNumerics) 4 2 2 true (1 # 2) (1 # 4) (1 # 8) 0 = (inr b, g1) /\
     Dropout.p (MLP.drop (Block.mlp b)) = 0%Q /\
     Dropout.training (MLP.drop (Block.mlp b)) = true /\
     (forall x g, Dropout.forward (NM := ZNumerics) (MLP.drop (Block.mlp b)) x g = (inr x, g)) /\
     Dropout.p (Attention.attn_drop (Block.attn b)) = (1 # 4)%Q /\
     Dropout.p (Attention.proj_drop (Block.attn b)) = (1 # 8)%Q) /\
  (exists m g1,
     VisionTransformer.init (NM := ZNumerics) small_config 0 = (inr m, g1) /\
     Dropout.p (VisionTransformer.pos_drop m) = (1 # 2)%Q /\
     Forall (fun b =>
               Dropout.p (MLP.drop (Block.mlp b)) = 0%Q /\
               (forall x g, Dropout.forward (NM := ZNumerics) (MLP.drop (Block.mlp b)) x g = (inr x, g)) /\
               Dropout.p (Attention.attn_drop (Block.attn b)) = (1 # 4)%Q /\
               Dropout.p (Attention.proj_drop (Block.attn b)) = (1 # 8)%Q)
            (VisionTransformer.blocks m)).
Proof.
  split.
  - destruct example_block_built as (b & g1 & E).
    exists b, g1. split; [exact E|].
    exact (proj1 (@Block_mlp_dropout_is_zero ZNumerics) 4%Z 2%Z 2%Q true (1 # 2)%Q
             (1 # 4)%Q (1 # 8)%Q 0 g1 b E).
  - destruct (VisionTransformer_init_returns (proj1 (valid_config_sane small_config_valid)) 0)
      as (m & g1 & E & _).
    exists m, g1. split; [exact E|].
    exact (proj2 (@Block_mlp_dropout_is_zero ZNumerics) small_config 0 g1 m E).
Defined.
(** * What the constructors accept *)

Section ConstructorOutcomes.
Context {NM : Numerics}.

Lemma sample_avoids (k : init_kind) (e : exn) : avoids (sample k) e.
Proof.
  intros g r g'. unfold sample. destruct (rng_sample k g) as [v g1].
  intros E. inversion E. discriminate.
Qed.

Lemma new_param_avoids (k : init_kind) (sizes : list Z) (e : exn) :
  e <> RuntimeError -> avoids (new_param k sizes) e.
Proof.
  intros He. unfold new_param. destruct (existsb _ sizes).
  - apply avoids_raise. congruence.
  - apply avoids_bind; [apply replicateM_avoids, sample_avoids | intros l].
    apply avoids_ret.
Qed.

Lemma Linear_init_avoids (i o : Z) (b : bool) (e : exn) :
  e <> RuntimeError -> avoids (Linear.init i o b) e.
Proof.
  intros He. unfold Linear.init.
  apply avoids_bind; [now apply new_param_avoids | intros w].
  destruct b; [|apply avoids_ret].
  apply avoids_bind; [now apply new_param_avoids | intros b'; apply avoids_ret].
Qed.

Lemma Dropout_init_avoids (p : Q) (e : exn) :
  e <> ValueError -> avoids (Dropout.init p) e.
Proof.
  intros He. unfold Dropout.init. destruct (_ || _).
  - apply avoids_raise. congruence.
  - apply avoids_ret.
Qed.

Lemma Linear_init_succeeds (i o : Z) (b : bool) :
  (0 <= i)%Z -> (0 <= o)%Z ->
  returns (Linear.init i o b) (Linear_ok (Z.to_nat i) (Z.to_nat o)).
Proof.
  intros Hi Ho. pose proof (Linear_init_returns (Z.to_nat i) (Z.to_nat o) b) as H.
  now rewrite !Z2Nat.id in H by lia.
Qed.

Lemma LayerNorm_init_succeeds (d : Z) :
  (0 <= d)%Z -> returns (LayerNorm.init d) (LayerNorm_ok (Z.to_nat d)).
Proof.
  intros Hd. pose proof (LayerNorm_init_returns (Z.to_nat d)) as H.
  now rewrite Z2Nat.id in H by lia.
Qed.

(** The two places of [Attention.__init__] that divide. *)
Lemma Attention_init_divides (dim n_heads : Z) (qkv_bias : bool) (attn_p proj_p : Q) :
  (n_heads = 0 \/ dim / n_heads = 0)%Z ->
  fails (Attention.init dim n_heads qkv_bias attn_p proj_p) ZeroDivisionError.
Proof.
  intros H g. unfold Attention.init.
  destruct (Z.eqb_spec n_heads 0) as [|Hn]; [reflexivity|].
  destruct (Z.eqb_spec (dim / n_heads) 0) as [|Hq]; [reflexivity|].
  destruct H; contradiction.
Qed.

Lemma Attention_init_avoids (dim n_heads : Z) (qkv_bias : bool) (attn_p proj_p : Q) :
  n_heads <> 0%Z -> (dim / n_heads)%Z <> 0%Z ->
  avoids (Attention.init dim n_heads qkv_bias attn_p proj_p) ZeroDivisionError.
Proof.
  intros Hn Hq. unfold Attention.init.
  destruct (Z.eqb_spec n_heads 0) as [|_]; [contradiction|].
  destruct (Z.eqb_spec (dim / n_heads) 0) as [|_]; [contradiction|].
  cbv zeta.
  apply avoids_bind; [apply Linear_init_avoids; discriminate | intros l1].
  apply avoids_bind; [apply Dropout_init_avoids; discriminate | intros d1].
  apply avoids_bind; [apply Linear_init_avoids; discriminate | intros l2].
  apply avoids_bind; [apply Dropout_init_avoids; discriminate | intros d2].
  apply avoids_ret.
Qed.

Lemma Attention_init_succeeds (dim n_heads : Z) (qkv_bias : bool) (attn_p proj_p : Q) :
  (0 <= dim)%Z -> n_heads <> 0%Z -> (dim / n_heads)%Z <> 0%Z ->
  prob attn_p -> prob proj_p ->
  returns (Attention.init dim n_heads qkv_bias attn_p proj_p) (fun _ => True).
Proof.
  intros Hd Hn Hq [Ha0 Ha1] [Hp0 Hp1]. unfold Attention.init.
  destruct (Z.eqb_spec n_heads 0) as [|_]; [contradiction|].
  destruct (Z.eqb_spec (dim / n_heads) 0) as [|_]; [contradiction|].
  cbv zeta.
  eapply returns_bind; [apply Linear_init_succeeds; lia | intros l1 _].
  eapply returns_bind; [apply Dropout_init_returns; eassumption | intros d1 _].
  eapply returns_bind; [apply Linear_init_succeeds; lia | intros l2 _].
  eapply returns_bind; [apply Dropout_init_returns; eassumption | intros d2 _].
  now apply returns_ret.
Qed.

(** The widths [MLP.__init__] gives its two linear layers. *)
Lemma MLP_init_widths (i : Z) (hid out : option Z) (p : Q) (g g' : RNG) (m : MLP.t) :
  MLP.init i hid out p g = (inr m, g') ->
  (0 <= i)%Z /\ (0 <= py_or hid i)%Z /\ (0 <= py_or out i)%Z /\
  Linear_ok (Z.to_nat i) (Z.to_nat (py_or hid i)) (MLP.fc1 m) /\
  Linear_ok (Z.to_nat (py_or hid i)) (Z.to_nat (py_or out i)) (MLP.fc2 m) /\
  Dropout_ok (MLP.drop m) /\ Dropout.p (MLP.drop m) = p.
Proof.
  unfold MLP.init. intros E.
  apply bind_inv in E as (l1 & g1 & E1 & E).
  apply bind_inv in E as (l2 & g2 & E2 & E).
  apply bind_inv in E as (d & g3 & E3 & E).
  apply ret_inv in E as [<- _].
  apply Linear_init_inv in E1 as (Hi & Hh & Hl1).
  apply Linear_init_inv in E2 as (_ & Ho & Hl2).
  apply Dropout_init_inv in E3 as (Hd & Hp & _).
  cbn [MLP.fc1 MLP.fc2 MLP.drop]. tauto.
Qed.

Lemma MLP_init_succeeds (i : Z) (hid out : option Z) (p : Q) :
  (0 <= i)%Z -> (0 <= py_or hid i)%Z -> (0 <= py_or out i)%Z -> prob p ->
  returns (MLP.init i hid out p) (fun _ => True).
Proof.
  intros Hi Hh Ho [Hp0 Hp1]. unfold MLP.init.
  eapply returns_bind; [apply Linear_init_succeeds; lia | intros l1 _].
  eapply returns_bind; [apply Linear_init_succeeds; lia | intros l2 _].
  eapply returns_bind; [apply Dropout_init_returns; eassumption | intros d _].
  now apply returns_ret.
Qed.

(** What a block that was built tells about the constructor's arguments,
    and what it is made of. *)
Lemma Block_init_parts (dim n_heads : Z) (mlp_ratio : Q) (qkv_bias : bool)
      (p attn_p proj_p : Q) (g g' : RNG) (b : Block.t) :
  Block.init dim n_heads mlp_ratio qkv_bias p attn_p proj_p g = (inr b, g') ->
  let hidden := py_or (Some (py_int_mul dim mlp_ratio)) dim in
  (0 <= dim)%Z /\ n_heads <> 0%Z /\ (dim / n_heads)%Z <> 0%Z /\
  prob attn_p /\ prob proj_p /\ (0 <= hidden)%Z /\
  LayerNorm_ok (Z.to_nat dim) (Block.norm1 b) /\
  LayerNorm_ok (Z.to_nat dim) (Block.norm2 b) /\
  Attention.dim (Block.attn b) = dim /\
  Attention.n_heads (Block.attn b) = n_heads /\
  Attention.head_dim (Block.attn b) = (dim / n_heads)%Z /\
  Linear_ok (Z.to_nat dim) (Z.to_nat (dim * 3)) (Attention.qkv (Block.attn b)) /\
  Linear_ok (Z.to_nat dim) (Z.to_nat dim) (Attention.proj (Block.attn b)) /\
  Linear_ok (Z.to_nat dim) (Z.to_nat hidden) (MLP.fc1 (Block.mlp b)) /\
  Linear_ok (Z.to_nat hidden) (Z.to_nat dim) (MLP.fc2 (Block.mlp b)).
Proof.
  intros E hidden. unfold Block.init in E.
  apply bind_inv in E as (n1 & g1 & E1 & E).
  apply bind_inv in E as (a & g2 & E2 & E).
  apply bind_inv in E as (n2 & g3 & E3 & E).
  apply bind_inv in E as (m & g4 & E4 & E).
  apply ret_inv in E as [<- _].
  apply LayerNorm_init_inv in E1 as (Hd & Hn1).
  apply LayerNorm_init_inv in E3 as (_ & Hn2).
  apply Attention_init_inv in E2
    as (_ & Hn0 & Hq0 & Had & Han & Hah & Hl1 & Hl2 & (Hd1 & Hp1 & _) & (Hd2 & Hp2 & _) & _).
  apply MLP_init_widths in E4 as (_ & Hh & _ & Hf1 & Hf2 & _).
  rewrite py_or_same in Hf2.
  cbn [Block.norm1 Block.attn Block.norm2 Block.mlp].
  unfold prob. rewrite <- Hp1, <- Hp2. unfold Dropout_ok in Hd1, Hd2.
  fold hidden in Hh, Hf1, Hf2. tauto.
Qed.

Lemma Block_init_succeeds (dim n_heads : Z) (mlp_ratio : Q) (qkv_bias : bool)
      (p attn_p proj_p : Q) :
  (0 <= dim)%Z -> n_heads <> 0%Z -> (dim / n_heads)%Z <> 0%Z ->
  prob attn_p -> prob proj_p ->
  (0 <= py_or (Some (py_int_mul dim mlp_ratio)) dim)%Z ->
  returns (Block.init dim n_heads mlp_ratio qkv_bias p attn_p proj_p) (fun _ => True).
Proof.
  intros Hd Hn Hq Ha Hp Hh. unfold Block.init.
  eapply returns_bind; [apply LayerNorm_init_succeeds; lia | intros n1 _].
  eapply returns_bind; [now apply Attention_init_succeeds | intros a _].
  eapply returns_bind; [apply LayerNorm_init_succeeds; lia | intros n2 _].
  eapply returns_bind.
  { apply MLP_init_succeeds; [lia | exact Hh | rewrite py_or_same; lia | apply prob_zero]. }
  intros m _. now apply returns_ret.
Qed.

Lemma replicateM_first {A : Type} (n : nat) (m : M A) (g g' : RNG) (l : list A) :
  0 < n -> replicateM n m g = (inr l, g') ->
  exists a g1, m g = (inr a, g1).
Proof.
  destruct n as [|n]; [lia|]. intros _ E. simpl in E.
  apply bind_inv in E as (a & g1 & Ea & _). now exists a, g1.
Qed.

Lemma VisionTransformer_init_constructible (c : VisionTransformer.config)
      (g g' : RNG) (m : VisionTransformer.t) :
  VisionTransformer.init c g = (inr m, g') -> constructible c.
Proof.
  unfold VisionTransformer.init. intros E.
  apply bind_inv in E as (pe & g1 & E1 & E).
  apply bind_inv in E as (cls & g2 & E2 & E).
  apply bind_inv in E as (pos & g3 & E3 & E).
  apply bind_inv in E as (pd & g4 & E4 & E).
  apply bind_inv in E as (bs & g5 & E5 & E).
  apply bind_inv in E as (nm & g6 & E6 & E).
  apply bind_inv in E as (hd & g7 & E7 & E).
  apply PatchEmbedding_init_inv in E1 as (Hk & HC & HE & _).
  apply Dropout_init_inv in E4 as (Hpd & Hp & _).
  apply Linear_init_inv in E7 as (_ & HN & _).
  unfold constructible. repeat (split; [assumption|]).
  split; [unfold prob; rewrite <- Hp; exact Hpd|].
  intros Hdepth.
  apply replicateM_first in E5 as (b & gb & Eb); [|lia].
  apply Block_init_parts in Eb. cbv zeta in Eb. tauto.
Qed.

Lemma constructible_init_returns (c : VisionTransformer.config) :
  constructible c -> returns (VisionTransformer.init c) (fun _ => True).
Proof.
  intros (Hk & HC & HE & HN & [Hp0 Hp1] & Hblocks). unfold VisionTransformer.init.
  eapply returns_bind.
  { pose proof (@PatchEmbedding_init_returns NM (VisionTransformer.img_size c)
                  (Z.to_nat (VisionTransformer.patch_size c))
                  (Z.to_nat (VisionTransformer.in_channels c))
                  (Z.to_nat (VisionTransformer.embed_dim c))) as H.
    rewrite !Z2Nat.id in H by lia. apply H. lia. }
  intros pe _.
  eapply returns_bind;
    [apply new_param_returns; repeat constructor; lia | intros cls _].
  eapply returns_bind.
  { apply new_param_returns. repeat constructor; lia. }
  intros pos _.
  eapply returns_bind; [apply Dropout_init_returns; eassumption | intros pd _].
  eapply returns_bind with (P := fun _ => True).
  { destruct (Z.to_nat (VisionTransformer.depth c)) as [|n] eqn:En.
    - now apply returns_ret.
    - destruct Hblocks as (Hn & Hq & Ha & Hpr & Hh); [lia|].
      eapply returns_bind with (P := fun _ => True);
        [now apply Block_init_succeeds | intros b _].
      eapply returns_bind; [|intros l _; now apply returns_ret].
      apply replicateM_length. now apply Block_init_succeeds. }
  intros bs _.
  eapply returns_bind; [apply LayerNorm_init_succeeds; lia | intros nm _].
  eapply returns_bind; [apply Linear_init_succeeds; lia | intros hd _].
  now apply returns_ret.
Qed.

End ConstructorOutcomes.
(** * What [forward] does with its input *)

Section ForwardOutcomes.
Context {NM : Numerics}.

Lemma bind_ext {A B : Type} (m : M A) (k k' : A -> M B) :
  (forall a g, k a g = k' a g) -> forall g, bind m k g = bind m k' g.
Proof.
  intros H g. unfold bind. destruct (m g) as [[e | a] g1]; [reflexivity | apply H].
Qed.

(** Two tensors of one shape with the same element at every index are the
    same tensor. *)
Lemma tensor_ext (sh : list nat) (t t' : tensor) :
  shaped sh t -> shaped sh t' ->
  (forall idx, in_bounds sh idx -> get t idx = get t' idx) ->
  t = t'.
Proof.
  destruct t as [s d], t' as [s' d']. unfold shaped, wf, get. cbn [shape data].
  intros [-> Hd] [-> Hd'] H. f_equal.
  apply nth_ext with (d := f0) (d' := f0); [congruence|].
  intros n Hn. rewrite Hd in Hn.
  specialize (H (unravel sh n) (unravel_in_bounds sh Hn)).
  now rewrite ravel_unravel in H by exact Hn.
Qed.

(** ** The patch embedding on an image that is not square *)

Lemma PatchEmbedding_forward_grid (pe : PatchEmbedding.t) (x : tensor)
      (C E k B H W : nat) :
  PatchEmbedding_ok C E k pe ->
  0 < k -> k <= H -> k <= W ->
  shape x = [B; C; H; W] ->
  returns (PatchEmbedding.forward pe x) (shaped [B; (H / k) * (W / k); E]).
Proof.
  intros Hpe Hk HH HW Hs. unfold PatchEmbedding.forward.
  eapply returns_bind.
  { eapply Conv2d_forward_returns with (H := H) (W := W);
      [exact Hpe | exact Hk | exact HH | exact HW | exact Hs]. }
  intros y Hy. rewrite !div_sub_self in Hy by assumption.
  eapply returns_bind.
  { eapply flatten_returns with (start := 2); [exact Hy | simpl; lia]. }
  intros z Hz. cbn [firstn skipn app numel fold_right] in Hz.
  rewrite Nat.mul_1_r in Hz.
  eapply returns_bind.
  { eapply transpose_returns with (i := 1) (j := 2);
      [apply Hz | reflexivity | reflexivity]. }
  intros w Hw. apply returns_ret. exact Hw.
Qed.

Lemma Conv2d_forward_channels (c : Conv2d.t) (x : tensor) (C E k B C' H W : nat) :
  Conv2d_ok C E k c ->
  C' <> C ->
  shape x = [B; C'; H; W] ->
  fails (Conv2d.forward c x) RuntimeError.
Proof.
  intros ([Hw _] & _ & Hst) HC Hs.
  unfold Conv2d.forward. rewrite Hs. unfold Conv2d.conv_batched.
  rewrite Hw, Hs.
  destruct (Conv2d.stride c <=? 0)%Z; [apply fails_raise|].
  apply Nat.eqb_neq in HC. rewrite HC. cbn [negb orb].
  apply fails_raise.
Qed.

Lemma Conv2d_forward_narrow (c : Conv2d.t) (x : tensor) (C E k B C' H W : nat) :
  Conv2d_ok C E k c ->
  H < k \/ W < k ->
  shape x = [B; C'; H; W] ->
  fails (Conv2d.forward c x) RuntimeError.
Proof.
  intros ([Hw _] & _ & Hst) Hsmall Hs.
  unfold Conv2d.forward. rewrite Hs. unfold Conv2d.conv_batched.
  rewrite Hw, Hs.
  destruct (Conv2d.stride c <=? 0)%Z; [apply fails_raise|].
  assert (Hb : (H <? k) || (W <? k) = true).
  { apply orb_true_iff. destruct Hsmall; [left | right]; now apply Nat.ltb_lt. }
  destruct (negb (C' =? C)); cbn [orb].
  - apply fails_raise.
  - rewrite Hb. cbn [orb]. apply fails_raise.
Qed.

Lemma Conv2d_forward_rank (c : Conv2d.t) (x : tensor) :
  rank x <> 3 -> rank x <> 4 -> fails (Conv2d.forward c x) RuntimeError.
Proof.
  unfold rank, Conv2d.forward. intros H3 H4.
  destruct (shape x) as [|? [|? [|? [|? [|? ?]]]]]; cbn [length] in *;
    try apply fails_raise; contradiction.
Qed.

(** Adding a position table of another length. *)
Lemma broadcast_shapes_rows (n a b e : nat) :
  a <> b -> a <> 1 -> b <> 1 -> broadcast_shapes [n; a; e] [1; b; e] = None.
Proof.
  intros Hab Ha Hb. unfold broadcast_shapes. cbn [rev app broadcast_rev].
  rewrite Nat.eqb_refl.
  apply Nat.eqb_neq in Hab, Ha, Hb. now rewrite Hab, Ha, Hb.
Qed.

Lemma tadd_rows_fails (x pos : tensor) (n a b e : nat) :
  shape x = [n; a; e] -> shape pos = [1; b; e] ->
  a <> b -> a <> 1 -> b <> 1 ->
  fails (tadd x pos) RuntimeError.
Proof.
  intros Hx Hp Hab Ha Hb. unfold tadd.
  rewrite Hx, Hp, broadcast_shapes_rows by assumption.
  apply fails_raise.
Qed.

(** [forward] on a batch of images of height [h] and width [w]: what
    matters is the number of patches. *)
Lemma VisionTransformer_forward_grid (m : VisionTransformer.t) (x : tensor)
      (C E k T H NC B h w : nat) :
  VisionTransformer_ok C E k T H NC m ->
  0 < k -> k <= h -> k <= w ->
  E = H * (E / H) ->
  shaped [B; C; h; w] x ->
  (T = 1 + (h / k) * (w / k) ->
   returns (VisionTransformer.forward m x) (shaped [B; NC])) /\
  (T <> 1 + (h / k) * (w / k) -> T <> 1 ->
   raises (VisionTransformer.forward m x) RuntimeError).
Proof.
  intros (Hpe & Hcls & Hpos & Hpd & Hbs & Hn & Hh) Hk Hh' Hw' Hdiv Hx.
  assert (Hgrid : 0 < (h / k) * (w / k)).
  { apply Nat.mul_pos_pos; apply Nat.div_str_pos; lia. }
  split.
  - intros HT.
    unfold VisionTransformer.forward. rewrite (proj1 Hx), bind_ret_l.
    eapply returns_bind.
    { eapply PatchEmbedding_forward_grid with (H := h) (W := w);
        [exact Hpe | exact Hk | exact Hh' | exact Hw' | apply Hx]. }
    intros y1 Hy1.
    eapply returns_bind.
    { eapply expand_batch_returns. apply Hcls. }
    intros c1 Hc1.
    eapply returns_bind.
    { eapply cat_returns_dim1; [apply Hc1 | apply Hy1]. }
    intros y2 Hy2. rewrite <- HT in Hy2.
    eapply returns_bind.
    { eapply tadd_batch_returns; [apply Hy2 | apply Hpos]. }
    intros y3 Hy3.
    eapply returns_bind.
    { eapply Dropout_forward_returns; eauto. }
    intros y4 Hy4.
    eapply returns_bind.
    { eapply run_blocks_returns; eauto. }
    intros z1 Hz1.
    eapply returns_bind.
    { eapply LayerNorm_forward_returns with (pre := [B; T]); eauto. }
    intros z2 Hz2. cbn [app] in Hz2.
    eapply returns_bind.
    { eapply select_returns; [apply Hz2 | simpl; lia | simpl; lia]. }
    intros z3 Hz3. cbn [remove_at firstn skipn app] in Hz3.
    eapply returns_bind.
    { eapply Linear_forward_returns with (pre := [B]); [exact Hh | apply Hz3]. }
    intros z4 Hz4. now apply returns_ret.
  - intros HT HT1.
    unfold VisionTransformer.forward. rewrite (proj1 Hx), bind_ret_l.
    eapply raises_bind.
    { eapply PatchEmbedding_forward_grid with (H := h) (W := w);
        [exact Hpe | exact Hk | exact Hh' | exact Hw' | apply Hx]. }
    intros y1 Hy1.
    eapply raises_bind.
    { eapply expand_batch_returns. apply Hcls. }
    intros c1 Hc1.
    eapply raises_bind.
    { eapply cat_returns_dim1; [apply Hc1 | apply Hy1]. }
    intros y2 Hy2.
    apply raises_bind_left, fails_raises.
    eapply tadd_rows_fails; [apply Hy2 | apply Hpos | lia | lia | lia].
Qed.

(** ** The parts of a model that was built *)

Lemma VisionTransformer_init_parts (c : VisionTransformer.config)
      (g g' : RNG) (m : VisionTransformer.t) :
  VisionTransformer.init c g = (inr m, g') ->
  let E := Z.to_nat (VisionTransformer.embed_dim c) in
  PatchEmbedding_ok (Z.to_nat (VisionTransformer.in_channels c)) E
    (Z.to_nat (VisionTransformer.patch_size c)) (VisionTransformer.patch_embed m) /\
  PatchEmbedding.img_size (VisionTransformer.patch_embed m) = VisionTransformer.img_size c /\
  PatchEmbedding.patch_size (VisionTransformer.patch_embed m)
    = VisionTransformer.patch_size c /\
  PatchEmbedding.n_patches (VisionTransformer.patch_embed m)
    = ((VisionTransformer.img_size c / VisionTransformer.patch_size c) ^ 2)%Z /\
  shaped [1; 1; E] (VisionTransformer.cls_token m) /\
  shaped [1; Z.to_nat ((VisionTransformer.img_size c / VisionTransformer.patch_size c) ^ 2 + 1); E]
         (VisionTransformer.pos_embed m) /\
  Dropout_ok (VisionTransformer.pos_drop m) /\
  length (VisionTransformer.blocks m) = Z.to_nat (VisionTransformer.depth c) /\
  Forall (fun b => exists gb gb',
            Block.init (VisionTransformer.embed_dim c) (VisionTransformer.n_heads c)
              (VisionTransformer.mlp_ratio c) (VisionTransformer.qkv_bias c)
              (VisionTransformer.p c) (VisionTransformer.attn_p c)
              (VisionTransformer.proj_p c) gb = (inr b, gb'))
         (VisionTransformer.blocks m) /\
  LayerNorm_ok E (VisionTransformer.norm m) /\
  Linear_ok E (Z.to_nat (VisionTransformer.n_classes c)) (VisionTransformer.head m).
Proof.
  intros E0. unfold VisionTransformer.init in E0.
  apply bind_inv in E0 as (pe & g1 & E1 & E0).
  apply bind_inv in E0 as (cls & g2 & E2 & E0).
  apply bind_inv in E0 as (pos & g3 & E3 & E0).
  apply bind_inv in E0 as (pd & g4 & E4 & E0).
  apply bind_inv in E0 as (bs & g5 & E5 & E0).
  apply bind_inv in E0 as (nm & g6 & E6 & E0).
  apply bind_inv in E0 as (hd & g7 & E7 & E0).
  apply ret_inv in E0 as [<- _].
  apply PatchEmbedding_init_inv in E1 as (_ & _ & _ & Hpe & Hi & Hk & Hn).
  apply new_param_inv in E2. apply new_param_inv in E3.
  apply Dropout_init_inv in E4 as (Hpd & _).
  apply LayerNorm_init_inv in E6 as (_ & Hnm).
  apply Linear_init_inv in E7 as (_ & _ & Hhd).
  eapply replicateM_inv
    with (P := fun b => exists gb gb',
                 Block.init (VisionTransformer.embed_dim c) (VisionTransformer.n_heads c)
                   (VisionTransformer.mlp_ratio c) (VisionTransformer.qkv_bias c)
                   (VisionTransformer.p c) (VisionTransformer.attn_p c)
                   (VisionTransformer.proj_p c) gb = (inr b, gb'))
    in E5 as [Hlen Hbs];
    [|intros gb b gb' Eb; exists gb, gb'; exact Eb].
  cbn [VisionTransformer.patch_embed VisionTransformer.cls_token
       VisionTransformer.pos_embed VisionTransformer.pos_drop
       VisionTransformer.blocks VisionTransformer.norm VisionTransformer.head].
  cbn [map] in E2, E3. change (Z.to_nat 1) with 1 in E2, E3.
  cbv zeta. tauto.
Qed.

End ForwardOutcomes.
Section AttentionOutcomes.
Context {NM : Numerics}.

Lemma fails_bind_left {A B : Type} (m : M A) (k : A -> M B) (e : exn) :
  fails m e -> fails (bind m k) e.
Proof. intros H g. unfold bind. now rewrite H. Qed.



End AttentionOutcomes.
(** * Rows and samples, element by element *)

Section Elementwise.
Context {NM : Numerics}.

Lemma in_bounds_app (sh sh' idx idx' : list nat) :
  in_bounds sh idx -> in_bounds sh' idx' -> in_bounds (sh ++ sh') (idx ++ idx').
Proof. intros H H'. unfold in_bounds in *. now apply Forall2_app. Qed.

Lemma in_bounds_1 (n i : nat) : i < n -> in_bounds [n] [i].
Proof. intros H. repeat constructor. exact H. Qed.

(** One window of the convolution reads the image only inside the
    window. *)
Lemma conv_at_ext (x x' w b : tensor) (C k s bi e i j : nat) :
  (forall c u v, c < C -> u < k -> v < k ->
     get x [bi; c; i * s + u; j * s + v] = get x' [bi; c; i * s + u; j * s + v]) ->
  Conv2d.conv_at x w b C k k s bi e i j = Conv2d.conv_at x' w b C k k s bi e i j.
Proof.
  intros H. unfold Conv2d.conv_at. f_equal. f_equal.
  apply map_ext_in. intros n Hin. apply in_seq in Hin.
  assert (Hn : n < numel [C; k; k]) by lia.
  destruct (in_bounds_inv3 (unravel_in_bounds [C; k; k] Hn))
    as (c & u & v & -> & Hc & Hu & Hv).
  now rewrite H.
Qed.

(** [nn.Linear], element by element. *)
Lemma Linear_forward_elements (l : Linear.t) (x : tensor) (i o : nat) (pre : list nat) :
  Linear_ok i o l ->
  shape x = pre ++ [i] ->
  exists y,
    Linear.forward l x = ret y /\
    shaped (pre ++ [o]) y /\
    forall p j, in_bounds pre p -> j < o ->
      get y (p ++ [j]) =
      let acc := fsum (map (fun n => fmul (get x (p ++ [n])) (get (Linear.weight l) [j; n]))
                           (seq 0 i)) in
      match Linear.bias l with
      | Some b => fadd acc (get b [j])
      | None => acc
      end.
Proof.
  intros [[Hw _] Hb] Hs. unfold Linear.forward.
  rewrite Hw, Hs, rev_unit, Nat.eqb_refl. cbn [negb]. cbv iota.
  rewrite removelast_last.
  assert (Hbias : match Linear.bias l with
                  | Some b => negb (shape_eqb (shape b) [o])
                  | None => false
                  end = false).
  { destruct (Linear.bias l) as [b|]; [|reflexivity].
    destruct Hb as [Hb _]. now rewrite Hb, shape_eqb_refl. }
  rewrite Hbias.
  eexists. split; [reflexivity|]. split; [apply shaped_tabulate|].
  intros p j Hp Hj.
  rewrite get_tabulate by (apply in_bounds_app; [exact Hp | now apply in_bounds_1]).
  now rewrite removelast_last, last_last.
Qed.

(** The output row of a linear layer is a function of the input row. *)
Lemma Linear_forward_rows (l : Linear.t) (x x' : tensor) (i o : nat)
      (pre p : list nat) :
  Linear_ok i o l ->
  shape x = pre ++ [i] -> shape x' = pre ++ [i] ->
  in_bounds pre p ->
  same_row i p x x' ->
  exists y y',
    Linear.forward l x = ret y /\ Linear.forward l x' = ret y' /\
    shaped (pre ++ [o]) y /\ shaped (pre ++ [o]) y' /\
    same_row o p y y'.
Proof.
  intros Hl Hs Hs' Hp Hrow.
  destruct (@Linear_forward_elements l x i o pre Hl Hs) as (y & Ey & Hy & Hel).
  destruct (@Linear_forward_elements l x' i o pre Hl Hs') as (y' & Ey' & Hy' & Hel').
  exists y, y'. repeat (split; [assumption|]).
  intros j Hj. rewrite Hel, Hel' by assumption. cbv zeta.
  assert (Hsum : map (fun n => fmul (get x (p ++ [n])) (get (Linear.weight l) [j; n]))
                     (seq 0 i)
                 = map (fun n => fmul (get x' (p ++ [n])) (get (Linear.weight l) [j; n]))
                       (seq 0 i)).
  { apply map_ext_in. intros n Hin. apply in_seq in Hin. rewrite Hrow by lia. reflexivity. }
  now rewrite Hsum.
Qed.

Lemma map_get (f : scalar -> scalar) (x : tensor) (sh idx : list nat) :
  shaped sh x -> in_bounds sh idx ->
  get (mkTensor (shape x) (map f (data x))) idx = f (get x idx).
Proof.
  intros Hx Hin. pose proof (shaped_length Hx) as Hl. destruct Hx as [Hs _].
  unfold get. cbn [shape data]. rewrite Hs.
  pose proof (ravel_lt Hin) as Hr.
  rewrite nth_indep with (d' := f f0) by (rewrite length_map; lia).
  apply map_nth.
Qed.

Lemma gelu_rows (x x' : tensor) (d : nat) (pre p : list nat) :
  shaped (pre ++ [d]) x -> shaped (pre ++ [d]) x' ->
  in_bounds pre p ->
  same_row d p x x' -> same_row d p (gelu x) (gelu x').
Proof.
  intros Hx Hx' Hp Hrow n Hn. unfold gelu.
  rewrite (map_get fgelu Hx), (map_get fgelu Hx')
    by (apply in_bounds_app; [assumption | now apply in_bounds_1]).
  now rewrite Hrow.
Qed.

Lemma Dropout_forward_zero (d : Dropout.t) (x : tensor) :
  Dropout.p d = 0%Q -> Dropout.forward d x = ret x.
Proof.
  intros Hp. unfold Dropout.forward. rewrite Hp. simpl.
  now rewrite orb_true_r.
Qed.

End Elementwise.
Section InputDependence.
Context {NM : Numerics}.

(** The patch embedding reads an image only inside the grid of whole
    patches. *)
Lemma PatchEmbedding_forward_ext (pe : PatchEmbedding.t) (x x' : tensor)
      (C E k B sz : nat) :
  PatchEmbedding_ok C E k pe ->
  0 < k -> k <= sz ->
  shape x = [B; C; sz; sz] -> shape x' = [B; C; sz; sz] ->
  (forall b c u v, b < B -> c < C -> u < (sz / k) * k -> v < (sz / k) * k ->
     get x [b; c; u; v] = get x' [b; c; u; v]) ->
  PatchEmbedding.forward pe x = PatchEmbedding.forward pe x'.
Proof.
  intros Hpe Hk Hsz Hs Hs' Hin.
  destruct (@PatchEmbedding_forward_elements NM pe x C E k B sz Hpe Hk Hsz Hs) as (t & Et & Ht & Hel).
  destruct (@PatchEmbedding_forward_elements NM pe x' C E k B sz Hpe Hk Hsz Hs') as (t' & Et' & Ht' & Hel').
  rewrite Et, Et'. apply (f_equal ret).
  apply (@tensor_ext NM _ t t' Ht Ht'). intros idx Hidx.
  destruct (in_bounds_inv3 Hidx) as (b & p & e & -> & Hb & Hp & He).
  set (g := sz / k) in *.
  assert (Hg : 0 < g) by (apply Nat.div_str_pos; lia).
  assert (Hi : p / g < g) by (apply Nat.Div0.div_lt_upper_bound; lia).
  assert (Hj : p mod g < g) by (apply Nat.mod_upper_bound; lia).
  replace p with (p / g * g + p mod g)
    by (pose proof (Nat.div_mod_eq p g); lia).
  rewrite Hel, Hel' by assumption.
  apply conv_at_ext. intros c u v Hc Hu Hv.
  apply Hin; try assumption; nia.
Qed.

(** ** Dropout layers with probability zero *)

Lemma Dropout_forward_train_zero (d : Dropout.t) (mode : bool) (x : tensor) :
  Qeq_bool (Dropout.p d) 0 = true ->
  Dropout.forward (Dropout.train mode d) x = Dropout.forward d x.
Proof.
  intros Hp. unfold Dropout.forward, Dropout.train.
  cbn [Dropout.p Dropout.training]. rewrite Hp, !orb_true_r. reflexivity.
Qed.

Lemma bind_ext_left {A B : Type} (m m' : M A) (k k' : A -> M B) :
  (forall g, m g = m' g) -> (forall a g, k a g = k' a g) ->
  forall g, bind m k g = bind m' k' g.
Proof.
  intros Hm Hk g. unfold bind. rewrite Hm.
  destruct (m' g) as [[e | a] g1]; [reflexivity | apply Hk].
Qed.

Ltac mode_steps :=
  repeat lazymatch goal with
         | |- bind (Dropout.forward (Dropout.train _ _) _) _ _ = _ =>
             rewrite Dropout_forward_train_zero by assumption
         | |- bind _ _ _ = bind _ _ _ => apply bind_ext; intros ? ?
         end;
  try reflexivity.

Lemma Attention_forward_train_zero (a : Attention.t) (mode : bool) (x : tensor)
      (g : RNG) :
  Qeq_bool (Dropout.p (Attention.attn_drop a)) 0 = true ->
  Qeq_bool (Dropout.p (Attention.proj_drop a)) 0 = true ->
  Attention.forward (Attention.train mode a) x g = Attention.forward a x g.
Proof.
  intros H1 H2. unfold Attention.forward, Attention.train.
  cbn [Attention.n_heads Attention.dim Attention.head_dim Attention.scale
       Attention.qkv Attention.attn_drop Attention.proj Attention.proj_drop].
  destruct (shape x) as [|B [|T [|d [|? ?]]]]; try reflexivity.
  destruct (negb (Z.of_nat d =? Attention.dim a)%Z); [reflexivity|].
  mode_steps.
Qed.

Lemma MLP_forward_train_zero (m : MLP.t) (mode : bool) (x : tensor) (g : RNG) :
  Qeq_bool (Dropout.p (MLP.drop m)) 0 = true ->
  MLP.forward (MLP.train mode m) x g = MLP.forward m x g.
Proof.
  intros H. unfold MLP.forward, MLP.train. cbn [MLP.fc1 MLP.fc2 MLP.drop].
  mode_steps.
Qed.


End InputDependence.
Section ModeIndependence.
Context {NM : Numerics}.

Lemma Block_forward_train_zero (b : Block.t) (mode : bool) (x : tensor) (g : RNG) :
  Qeq_bool (Dropout.p (Attention.attn_drop (Block.attn b))) 0 = true ->
  Qeq_bool (Dropout.p (Attention.proj_drop (Block.attn b))) 0 = true ->
  Qeq_bool (Dropout.p (MLP.drop (Block.mlp b))) 0 = true ->
  Block.forward (Block.train mode b) x g = Block.forward b x g.
Proof.
  intros H1 H2 H3. unfold Block.forward, Block.train.
  cbn [Block.norm1 Block.attn Block.norm2 Block.mlp].
  apply bind_ext. intros n1 g1.
  apply bind_ext_left; [intros g'; now apply Attention_forward_train_zero|].
  intros a g2. apply bind_ext. intros x1 g3. apply bind_ext. intros n2 g4.
  apply bind_ext_left; [intros g'; now apply MLP_forward_train_zero|].
  reflexivity.
Qed.

Lemma run_blocks_train_zero (bs : list Block.t) (mode : bool) (x : tensor) (g : RNG) :
  Forall (fun b =>
            Qeq_bool (Dropout.p (Attention.attn_drop (Block.attn b))) 0 = true /\
            Qeq_bool (Dropout.p (Attention.proj_drop (Block.attn b))) 0 = true /\
            Qeq_bool (Dropout.p (MLP.drop (Block.mlp b))) 0 = true) bs ->
  VisionTransformer.run_blocks (map (Block.train mode) bs) x g
  = VisionTransformer.run_blocks bs x g.
Proof.
  intros H. revert x g. induction H as [|b bs (H1 & H2 & H3) _ IH]; intros x g.
  - reflexivity.
  - cbn [map VisionTransformer.run_blocks].
    apply bind_ext_left; [intros g'; now apply Block_forward_train_zero|].
    intros y g'. apply IH.
Qed.

Lemma VisionTransformer_forward_train_zero (m : VisionTransformer.t) (mode : bool)
      (x : tensor) (g : RNG) :
  Qeq_bool (Dropout.p (VisionTransformer.pos_drop m)) 0 = true ->
  Forall (fun b =>
            Qeq_bool (Dropout.p (Attention.attn_drop (Block.attn b))) 0 = true /\
            Qeq_bool (Dropout.p (Attention.proj_drop (Block.attn b))) 0 = true /\
            Qeq_bool (Dropout.p (MLP.drop (Block.mlp b))) 0 = true)
         (VisionTransformer.blocks m) ->
  VisionTransformer.forward (VisionTransformer.train mode m) x g
  = VisionTransformer.forward m x g.
Proof.
  intros Hp Hbs. unfold VisionTransformer.forward, VisionTransformer.train.
  cbn [VisionTransformer.patch_embed VisionTransformer.cls_token
       VisionTransformer.pos_embed VisionTransformer.pos_drop
       VisionTransformer.blocks VisionTransformer.norm VisionTransformer.head].
  apply bind_ext. intros n g1. apply bind_ext. intros y1 g2.
  apply bind_ext. intros c1 g3. apply bind_ext. intros y2 g4.
  apply bind_ext. intros y3 g5.
  rewrite Dropout_forward_train_zero by assumption.
  apply bind_ext. intros y4 g6.
  apply bind_ext_left; [intros g'; now apply run_blocks_train_zero|].
  reflexivity.
Qed.

(** The feed-forward network with a dropout that lets its input through:
    the output row at a position is a function of the input row there. *)
Lemma MLP_forward_rows (m : MLP.t) (x x' : tensor) (D Hd O : nat)
      (pre p : list nat) :
  Linear_ok D Hd (MLP.fc1 m) -> Linear_ok Hd O (MLP.fc2 m) ->
  (forall z, Dropout.forward (MLP.drop m) z = ret z) ->
  shape x = pre ++ [D] -> shape x' = pre ++ [D] ->
  in_bounds pre p ->
  same_row D p x x' ->
  exists y y',
    MLP.forward m x = ret y /\ MLP.forward m x' = ret y' /\
    shaped (pre ++ [O]) y /\ shaped (pre ++ [O]) y' /\
    same_row O p y y'.
Proof.
  intros H1 H2 Hp Hs Hs' Hin Hrow.
  destruct (@Linear_forward_rows NM (MLP.fc1 m) x x' D Hd pre p H1 Hs Hs' Hin Hrow)
    as (y1 & y1' & E1 & E1' & Hy1 & Hy1' & Hr1).
  pose proof (gelu_rows Hy1 Hy1' Hin Hr1) as Hr2.
  destruct (@Linear_forward_rows NM (MLP.fc2 m) (gelu y1) (gelu y1') Hd O pre p
              H2 (proj1 (gelu_shaped Hy1)) (proj1 (gelu_shaped Hy1')) Hin Hr2)
    as (y2 & y2' & E2 & E2' & Hy2 & Hy2' & Hr3).
  exists y2, y2'. unfold MLP.forward.
  rewrite E1, E1', !bind_ret_l, !Hp, !bind_ret_l.
  rewrite E2, E2', !bind_ret_l, !Hp, !bind_ret_l.
  repeat (split; [reflexivity || assumption|]). assumption.
Qed.

End ModeIndependence.
(** * One sample at a time

    Every operator of the forward pass works on the samples of a batch
    separately.  The lemmas below follow two runs of an operator on two
    batches of [B] samples, and carry the equality of the two samples at
    position [b] from the inputs to the results.  The two batches have one
    shape: nothing is said about runs on batches of different sizes, whose
    floating-point sums torch may take in different orders. *)

Section SampleWise.
Context {NM : Numerics}.
Variables (B b : nat).
Hypothesis (Hb : b < B).

Lemma in_bounds_cons (n i : nat) (sh idx : list nat) :
  i < n -> in_bounds sh idx -> in_bounds (n :: sh) (i :: idx).
Proof. intros H H'. now constructor. Qed.

Lemma in_bounds_snoc_inv (sh idx : list nat) (d : nat) :
  in_bounds (sh ++ [d]) idx ->
  exists q j, idx = q ++ [j] /\ in_bounds sh q /\ j < d.
Proof.
  intros H. apply Forall2_app_inv_r in H as (q & l & Hq & Hl & ->).
  inversion Hl as [|j ? l' ? Hj Hnil]; subst. inversion Hnil; subst.
  now exists q, j.
Qed.

Lemma sample_wise_ret (sh : list nat) (y y' : tensor) :
  shaped (B :: sh) y -> shaped (B :: sh) y' -> same_sample sh b y y' ->
  sample_wise B b sh (ret y) (ret y').
Proof. intros Hy Hy' Hs. now exists y, y'. Qed.

Lemma sample_wise_bind (sh sh2 : list nat) (m m' : M tensor) (k k' : tensor -> M tensor) :
  sample_wise B b sh m m' ->
  (forall y y', shaped (B :: sh) y -> shaped (B :: sh) y' ->
                same_sample sh b y y' ->
                sample_wise B b sh2 (k y) (k' y')) ->
  sample_wise B b sh2 (bind m k) (bind m' k').
Proof.
  intros (y & y' & -> & -> & Hy & Hy' & Hs) Hk. rewrite !bind_ret_l. now apply Hk.
Qed.

(** ** Reshaping below the batch dimension *)

Lemma reshape_eq (x : tensor) (sh2 : list nat) :
  numel sh2 = numel (shape x) ->
  reshape x (map Z.of_nat sh2) = ret (mkTensor sh2 (data x)).
Proof.
  intros Hn. unfold reshape.
  rewrite infer_shape_nonneg
    by (apply Forall_forall; intros z Hz; apply in_map_iff in Hz as (n & <- & _); lia).
  rewrite map_map.
  rewrite (map_ext (fun n => Z.to_nat (Z.of_nat n)) (fun n => n)) by (intros; apply Nat2Z.id).
  rewrite map_id, Hn, Nat.eqb_refl. reflexivity.
Qed.

Lemma reshape_sample_wise (x x' : tensor) (sh sh2 : list nat) :
  shaped (B :: sh) x -> shaped (B :: sh) x' ->
  numel sh2 = numel sh ->
  same_sample sh b x x' ->
  sample_wise B b sh2 (reshape x (map Z.of_nat (B :: sh2)))
              (reshape x' (map Z.of_nat (B :: sh2))).
Proof.
  intros Hx Hx' Hn Hs.
  pose proof (shaped_length Hx) as Hl. pose proof (shaped_length Hx') as Hl'.
  destruct Hx as [Hsx _], Hx' as [Hsx' _].
  rewrite !reshape_eq by (rewrite ?Hsx, ?Hsx', !numel_cons; now rewrite Hn).
  apply sample_wise_ret.
  - apply shaped_mk. rewrite Hl, !numel_cons. now rewrite Hn.
  - apply shaped_mk. rewrite Hl', !numel_cons. now rewrite Hn.
  - intros idx Hin. unfold get. cbn [shape data ravel].
    pose proof (ravel_lt Hin) as Hr. rewrite Hn in *.
    specialize (Hs (unravel sh (ravel sh2 idx)) (unravel_in_bounds sh Hr)).
    unfold get in Hs. rewrite Hsx, Hsx' in Hs. cbn [ravel] in Hs.
    now rewrite ravel_unravel in Hs by exact Hr.
Qed.

(** ** Operators that map over the elements *)

Lemma map_sample_wise (f : scalar -> scalar) (x x' : tensor) (sh : list nat) :
  shaped (B :: sh) x -> shaped (B :: sh) x' ->
  same_sample sh b x x' ->
  sample_wise B b sh (ret (mkTensor (shape x) (map f (data x))))
              (ret (mkTensor (shape x') (map f (data x')))).
Proof.
  intros Hx Hx' Hs. apply sample_wise_ret.
  - pose proof (shaped_length Hx). rewrite (proj1 Hx). apply shaped_mk.
    now rewrite length_map.
  - pose proof (shaped_length Hx'). rewrite (proj1 Hx'). apply shaped_mk.
    now rewrite length_map.
  - intros idx Hin.
    rewrite (map_get f Hx), (map_get f Hx') by now apply in_bounds_cons.
    now rewrite Hs.
Qed.

(** ** [nn.Linear] and [nn.LayerNorm] *)

Lemma Linear_sample_wise (l : Linear.t) (x x' : tensor) (i o : nat) (pre : list nat) :
  Linear_ok i o l ->
  shape x = (B :: pre) ++ [i] -> shape x' = (B :: pre) ++ [i] ->
  same_sample (pre ++ [i]) b x x' ->
  sample_wise B b (pre ++ [o]) (Linear.forward l x) (Linear.forward l x').
Proof.
  intros Hl Hx Hx' Hs.
  destruct (@Linear_forward_elements NM l x i o (B :: pre) Hl Hx) as (y & Ey & Hy & Hel).
  destruct (@Linear_forward_elements NM l x' i o (B :: pre) Hl Hx') as (y' & Ey' & Hy' & Hel').
  exists y, y'. repeat (split; [assumption|]).
  intros idx Hin. apply in_bounds_snoc_inv in Hin as (q & j & -> & Hq & Hj).
  change (b :: q ++ [j]) with ((b :: q) ++ [j]).
  rewrite (Hel (b :: q) j), (Hel' (b :: q) j) by (try assumption; now apply in_bounds_cons).
  cbv zeta.
  assert (Hsum : map (fun n => fmul (get x ((b :: q) ++ [n])) (get (Linear.weight l) [j; n]))
                     (seq 0 i)
                 = map (fun n => fmul (get x' ((b :: q) ++ [n])) (get (Linear.weight l) [j; n]))
                       (seq 0 i)).
  { apply map_ext_in. intros n Hn. apply in_seq in Hn.
    cbn [app]. rewrite Hs; [reflexivity|].
    apply in_bounds_app; [exact Hq | apply in_bounds_1; lia]. }
  now rewrite Hsum.
Qed.

Lemma row_of_sample (x x' : tensor) (pre q : list nat) (d j : nat) :
  shape x = (B :: pre) ++ [d] -> shape x' = (B :: pre) ++ [d] ->
  same_sample (pre ++ [d]) b x x' ->
  in_bounds pre q ->
  row_of x ((b :: q) ++ [j]) = row_of x' ((b :: q) ++ [j]).
Proof.
  intros Hx Hx' Hs Hq. unfold row_of.
  rewrite Hx, Hx', !last_last, !removelast_last.
  apply map_ext_in. intros n Hn. apply in_seq in Hn. cbn [app].
  apply Hs. apply in_bounds_app; [exact Hq | apply in_bounds_1; lia].
Qed.

Lemma LayerNorm_sample_wise (n : LayerNorm.t) (x x' : tensor) (d : nat) (pre : list nat) :
  LayerNorm_ok d n ->
  shape x = (B :: pre) ++ [d] -> shape x' = (B :: pre) ++ [d] ->
  same_sample (pre ++ [d]) b x x' ->
  sample_wise B b (pre ++ [d]) (LayerNorm.forward n x) (LayerNorm.forward n x').
Proof.
  intros (Hn & [Hw _] & [Hbs _]) Hx Hx' Hs. unfold LayerNorm.forward.
  rewrite Hx, Hx', !rev_unit, Hn, Hw, Hbs, Z.eqb_refl, shape_eqb_refl.
  cbn [negb orb].
  apply sample_wise_ret; try apply shaped_tabulate.
  intros idx Hin. pose proof Hin as Hin0.
  apply in_bounds_snoc_inv in Hin as (q & j & -> & Hq & Hj).
  rewrite !get_tabulate by (apply (@in_bounds_cons _ _ (pre ++ [d])); assumption).
  change (b :: q ++ [j]) with ((b :: q) ++ [j]).
  rewrite !last_last. now rewrite (row_of_sample j Hx Hx' Hs Hq).
Qed.

Lemma softmax_sample_wise (x x' : tensor) (d : nat) (pre : list nat) :
  shape x = (B :: pre) ++ [d] -> shape x' = (B :: pre) ++ [d] ->
  same_sample (pre ++ [d]) b x x' ->
  sample_wise B b (pre ++ [d]) (ret (softmax_last x)) (ret (softmax_last x')).
Proof.
  intros Hx Hx' Hs. unfold softmax_last. rewrite Hx, Hx'.
  apply sample_wise_ret; try apply shaped_tabulate.
  intros idx Hin. pose proof Hin as Hin0.
  apply in_bounds_snoc_inv in Hin as (q & j & -> & Hq & Hj).
  rewrite !get_tabulate by (apply (@in_bounds_cons _ _ (pre ++ [d])); assumption).
  change (b :: q ++ [j]) with ((b :: q) ++ [j]).
  rewrite !last_last. now rewrite (row_of_sample j Hx Hx' Hs Hq).
Qed.

(** ** Addition of two batches *)

Lemma tadd_sample_wise (x x' a a' : tensor) (sh : list nat) :
  shape x = B :: sh -> shape x' = B :: sh ->
  shape a = B :: sh -> shape a' = B :: sh ->
  same_sample sh b x x' -> same_sample sh b a a' ->
  sample_wise B b sh (tadd x a) (tadd x' a').
Proof.
  intros Hx Hx' Ha Ha' Hs Hsa. unfold tadd.
  rewrite Hx, Hx', Ha, Ha', !broadcast_shapes_same.
  apply sample_wise_ret; try apply shaped_tabulate.
  intros idx Hin.
  assert (H1 : in_bounds (B :: sh) (b :: idx)) by now apply in_bounds_cons.
  rewrite !get_tabulate by assumption.
  rewrite !(bindex_same H1).
  now rewrite Hs, Hsa.
Qed.

End SampleWise.
Section SampleWiseAttention.
Context {NM : Numerics}.
Variables (B b : nat).
Hypothesis (Hb : b < B).

(** ** The operators of the attention *)

Lemma permute_heads_eq (y : tensor) (n t h d : nat) :
  shape y = [n; t; 3; h; d] ->
  permute y [2; 0; 3; 1; 4] =
  ret (tabulate [3; n; h; t; d]
         (fun idx => get y [nth 1 idx 0; nth 3 idx 0; nth 0 idx 0;
                            nth 2 idx 0; nth 4 idx 0])).
Proof.
  intros Hs. unfold permute, rank. rewrite Hs. reflexivity.
Qed.

Lemma select_first_eq (y : tensor) (s n : nat) (sh : list nat) :
  shape y = n :: sh -> s < n ->
  select y 0 s = ret (tabulate sh (fun idx => get y (s :: idx))).
Proof.
  intros Hs Hlt. unfold select, rank. rewrite Hs.
  change (0 <? length (n :: sh)) with true. cbn [nth andb].
  apply Nat.ltb_lt in Hlt. rewrite Hlt. reflexivity.
Qed.

(** One of [q], [k], [v]: part [s] of the packed projection, heads before
    tokens. *)
Lemma select_heads_eq (y : tensor) (s n t h d : nat) :
  s < 3 ->
  select (tabulate [3; n; h; t; d]
            (fun idx => get y [nth 1 idx 0; nth 3 idx 0; nth 0 idx 0;
                               nth 2 idx 0; nth 4 idx 0])) 0 s =
  ret (tabulate [n; h; t; d]
         (fun idx => get y [nth 0 idx 0; nth 2 idx 0; s; nth 1 idx 0; nth 3 idx 0])).
Proof.
  intros Hs.
  rewrite (@select_first_eq _ s 3 [n; h; t; d] (shape_tabulate _ _) Hs).
  apply (f_equal ret). apply tabulate_ext. intros idx Hin.
  rewrite get_tabulate by (apply in_bounds_cons; assumption).
  reflexivity.
Qed.

Lemma heads_same_sample (y y' : tensor) (s t h d : nat) :
  s < 3 ->
  same_sample [t; 3; h; d] b y y' ->
  same_sample [h; t; d] b
    (tabulate [B; h; t; d]
       (fun idx => get y [nth 0 idx 0; nth 2 idx 0; s; nth 1 idx 0; nth 3 idx 0]))
    (tabulate [B; h; t; d]
       (fun idx => get y' [nth 0 idx 0; nth 2 idx 0; s; nth 1 idx 0; nth 3 idx 0])).
Proof.
  intros Hs Hsame idx Hin.
  destruct (in_bounds_inv3 Hin) as (i & j & l & -> & Hi & Hj & Hl).
  rewrite (@get_tabulate NM [B; h; t; d]) by (apply in_bounds_4; assumption).
  rewrite (@get_tabulate NM [B; h; t; d]) by (apply in_bounds_4; assumption).
  cbn [nth]. apply Hsame. apply in_bounds_4; assumption.
Qed.

Lemma transpose_last_sample_wise (x x' : tensor) (h t d : nat) :
  shape x = [B; h; t; d] -> shape x' = [B; h; t; d] ->
  same_sample [h; t; d] b x x' ->
  sample_wise B b [h; d; t] (transpose x (-2) (-1)) (transpose x' (-2) (-1)).
Proof.
  intros Hx Hx' Hsame. unfold transpose, rank. rewrite Hx, Hx'.
  change (normalize_dim (length [B; h; t; d]) (-2)) with (Some 2).
  change (normalize_dim (length [B; h; t; d]) (-1)) with (Some 3).
  cbv beta iota.
  apply sample_wise_ret; try apply shaped_tabulate.
  intros idx Hin.
  destruct (in_bounds_inv3 Hin) as (i & j & l & -> & Hi & Hj & Hl).
  cbn [swap map seq length nth Nat.eqb].
  rewrite !get_tabulate by (apply in_bounds_4; assumption).
  cbn [swap map seq length nth Nat.eqb].
  apply Hsame. apply in_bounds_3; assumption.
Qed.

Lemma transpose_heads_sample_wise (x x' : tensor) (h t d : nat) :
  shape x = [B; h; t; d] -> shape x' = [B; h; t; d] ->
  same_sample [h; t; d] b x x' ->
  sample_wise B b [t; h; d] (transpose x 1 2) (transpose x' 1 2).
Proof.
  intros Hx Hx' Hsame. unfold transpose, rank. rewrite Hx, Hx'.
  change (normalize_dim (length [B; h; t; d]) 1) with (Some 1).
  change (normalize_dim (length [B; h; t; d]) 2) with (Some 2).
  cbv beta iota.
  apply sample_wise_ret; try apply shaped_tabulate.
  intros idx Hin.
  destruct (in_bounds_inv3 Hin) as (i & j & l & -> & Hi & Hj & Hl).
  cbn [swap map seq length nth Nat.eqb].
  rewrite !get_tabulate by (apply in_bounds_4; assumption).
  cbn [swap map seq length nth Nat.eqb].
  apply Hsame. apply in_bounds_3; assumption.
Qed.

(** [a @ c] for two batches of matrices, one matrix for every sample and
    head. *)
Lemma matmul_elements (a c : tensor) (n h r m p : nat) :
  shape a = [n; h; r; m] -> shape c = [n; h; m; p] ->
  exists y,
    matmul a c = ret y /\
    shaped [n; h; r; p] y /\
    forall i j u v, i < n -> j < h -> u < r -> v < p ->
      get y [i; j; u; v] =
      fsum (map (fun k => fmul (get a [i; j; u; k]) (get c [i; j; k; v])) (seq 0 m)).
Proof.
  intros Ha Hc. unfold matmul, rank. rewrite Ha, Hc.
  cbn [length Nat.eqb Nat.sub firstn nth app]. cbv zeta.
  cbn [length Nat.eqb Nat.sub firstn nth app].
  rewrite Nat.eqb_refl. cbn [negb]. cbv iota.
  rewrite broadcast_shapes_same. cbn [length app].
  eexists. split; [reflexivity|]. split.
  { apply shaped_mk. apply length_data_tabulate. }
  intros i j u v Hi Hj Hu Hv.
  rewrite get_reshaped_tabulate with (idx := [i; j; u; v]);
    [| apply in_bounds_4; assumption | reflexivity].
  cbn [firstn nth].
  assert (Hin : in_bounds [n; h] [i; j])
    by (apply in_bounds_cons; [assumption | now apply in_bounds_1]).
  rewrite (bindex_same Hin). cbn [app].
  apply f_equal. apply map_ext. intros k.
  unfold get. cbn [shape data]. now rewrite Ha, Hc.
Qed.

Lemma matmul_sample_wise (a a' c c' : tensor) (h r m p : nat) :
  shape a = [B; h; r; m] -> shape a' = [B; h; r; m] ->
  shape c = [B; h; m; p] -> shape c' = [B; h; m; p] ->
  same_sample [h; r; m] b a a' -> same_sample [h; m; p] b c c' ->
  sample_wise B b [h; r; p] (matmul a c) (matmul a' c').
Proof.
  intros Ha Ha' Hc Hc' Hsa Hsc.
  destruct (@matmul_elements a c B h r m p Ha Hc) as (y & Ey & Hy & Hel).
  destruct (@matmul_elements a' c' B h r m p Ha' Hc') as (y' & Ey' & Hy' & Hel').
  exists y, y'. repeat (split; [assumption|]).
  intros idx Hin.
  destruct (in_bounds_inv3 Hin) as (j & u & v & -> & Hj & Hu & Hv).
  rewrite Hel, Hel' by assumption.
  apply f_equal. apply map_ext_in. intros k Hk. apply in_seq in Hk.
  rewrite Hsa, Hsc by (apply in_bounds_3; lia). reflexivity.
Qed.

(** ** [Attention.forward] *)

Lemma Attention_sample_wise (a : Attention.t) (x x' : tensor) (T D H : nat) :
  Attention_ok D H a ->
  D = H * (D / H) ->
  (forall z, Dropout.forward (Attention.attn_drop a) z = ret z) ->
  (forall z, Dropout.forward (Attention.proj_drop a) z = ret z) ->
  shaped [B; T; D] x -> shaped [B; T; D] x' ->
  same_sample [T; D] b x x' ->
  sample_wise B b [T; D] (Attention.forward a x) (Attention.forward a x').
Proof.
  intros (Hdim & Hnh & Hhd & [s Hsc] & Hqkv & _ & Hproj & _) Hdiv Had Hpd
         [Hx _] [Hx' _] Hsame.
  rewrite (Attention_forward_unfold a x Hx Hdim).
  rewrite (Attention_forward_unfold a x' Hx' Hdim).
  rewrite Hnh, Hhd, Hsc.
  set (hd := D / H) in *.
  apply sample_wise_bind with (sh := [T] ++ [D * 3]).
  { apply Linear_sample_wise with (i := D); assumption. }
  intros y1 y1' Hy1 Hy1' Hs1.
  change [Z.of_nat B; Z.of_nat T; 3%Z; Z.of_nat H; Z.of_nat hd]
    with (map Z.of_nat (B :: [T; 3; H; hd])).
  apply sample_wise_bind with (sh := [T; 3; H; hd]).
  { apply reshape_sample_wise with (sh := [T] ++ [D * 3]); try assumption.
    cbn [numel fold_right app]. rewrite Hdiv at 1. lia. }
  intros y2 y2' [Hy2 _] [Hy2' _] Hs2.
  rewrite (@permute_heads_eq y2 B T H hd Hy2), (@permute_heads_eq y2' B T H hd Hy2').
  rewrite !bind_ret_l.
  rewrite !select_heads_eq by lia. rewrite !bind_ret_l.
  pose proof (@heads_same_sample y2 y2' 0 T H hd ltac:(lia) Hs2) as Hq.
  pose proof (@heads_same_sample y2 y2' 1 T H hd ltac:(lia) Hs2) as Hk.
  pose proof (@heads_same_sample y2 y2' 2 T H hd ltac:(lia) Hs2) as Hv.
  set (q := tabulate [B; H; T; hd] _) in *.
  set (k := tabulate [B; H; T; hd] _) in *.
  set (v := tabulate [B; H; T; hd] _) in *.
  set (q' := tabulate [B; H; T; hd] _) in *.
  set (k' := tabulate [B; H; T; hd] _) in *.
  set (v' := tabulate [B; H; T; hd] _) in *.
  apply sample_wise_bind with (sh := [H; hd; T]).
  { apply transpose_last_sample_wise; [reflexivity | reflexivity | exact Hk]. }
  intros kt kt' [Hkt _] [Hkt' _] Hskt.
  apply sample_wise_bind with (sh := [H; T; T]).
  { apply matmul_sample_wise with (m := hd);
      [reflexivity | reflexivity | exact Hkt | exact Hkt' | exact Hq | exact Hskt]. }
  intros qk qk' Hqk Hqk' Hsqk.
  apply sample_wise_bind with (sh := [H; T; T]).
  { apply (map_sample_wise Hb (fun u => fmul u s) Hqk Hqk' Hsqk). }
  intros dp dp' [Hdp _] [Hdp' _] Hsdp.
  apply sample_wise_bind with (sh := [H; T] ++ [T]).
  { apply softmax_sample_wise; assumption. }
  intros at1 at1' Hat1 Hat1' Hsat1.
  rewrite !Had, !bind_ret_l.
  apply sample_wise_bind with (sh := [H; T; hd]).
  { apply matmul_sample_wise with (m := T);
      [apply Hat1 | apply Hat1' | reflexivity | reflexivity | exact Hsat1 | exact Hv]. }
  intros wa wa' [Hwa _] [Hwa' _] Hswa.
  apply sample_wise_bind with (sh := [T; H; hd]).
  { apply transpose_heads_sample_wise; assumption. }
  intros wt wt' Hwt Hwt' Hswt.
  change [Z.of_nat B; Z.of_nat T; Z.of_nat D] with (map Z.of_nat (B :: [T; D])).
  apply sample_wise_bind with (sh := [T; D]).
  { apply reshape_sample_wise with (sh := [T; H; hd]); try assumption.
    cbn [numel fold_right]. rewrite Hdiv at 1. lia. }
  intros wr wr' [Hwr _] [Hwr' _] Hswr.
  apply sample_wise_bind with (sh := [T] ++ [D]).
  { apply Linear_sample_wise with (i := D); assumption. }
  intros y y' Hy Hy' Hsy.
  rewrite !Hpd, !bind_ret_l.
  now apply sample_wise_ret.
Qed.

End SampleWiseAttention.
Section SampleWiseModel.
Context {NM : Numerics}.
Variables (B b : nat).
Hypothesis (Hb : b < B).

(** A dropout layer in evaluation mode, or with probability zero, hands its
    input on. *)
Lemma Dropout_forward_inert (d : Dropout.t) (z : tensor) :
  Dropout_ok d -> Dropout_inert d -> Dropout.forward d z = ret z.
Proof.
  intros [H0 H1] Hi. unfold Dropout.forward. rewrite H0, H1. cbn [negb orb].
  replace (negb (Dropout.training d) || Qeq_bool (Dropout.p d) 0
           || (numel (shape z) =? 0)) with true; [reflexivity|].
  destruct Hi as [Ht | Hp]; [rewrite Ht | rewrite Hp]; cbn [negb orb];
    now rewrite ?orb_true_r.
Qed.

(** ** [MLP.forward] and [Block.forward] *)

Lemma MLP_sample_wise (m : MLP.t) (x x' : tensor) (D Hd : nat) (pre : list nat) :
  MLP_ok D Hd m ->
  Dropout_inert (MLP.drop m) ->
  shaped ((B :: pre) ++ [D]) x -> shaped ((B :: pre) ++ [D]) x' ->
  same_sample (pre ++ [D]) b x x' ->
  sample_wise B b (pre ++ [D]) (MLP.forward m x) (MLP.forward m x').
Proof.
  intros (H1 & H2 & Hok) Hi [Hx _] [Hx' _] Hsame. unfold MLP.forward.
  apply sample_wise_bind with (sh := pre ++ [Hd]).
  { apply Linear_sample_wise with (i := D); assumption. }
  intros y1 y1' Hy1 Hy1' Hs1.
  apply sample_wise_bind with (sh := pre ++ [Hd]).
  { apply (map_sample_wise Hb fgelu Hy1 Hy1' Hs1). }
  intros y2 y2' [Hy2 _] [Hy2' _] Hs2.
  rewrite !(Dropout_forward_inert _ Hok Hi), !bind_ret_l.
  apply sample_wise_bind with (sh := pre ++ [D]).
  { apply Linear_sample_wise with (i := Hd); assumption. }
  intros y3 y3' Hy3 Hy3' Hs3.
  rewrite !(Dropout_forward_inert _ Hok Hi), !bind_ret_l.
  now apply sample_wise_ret.
Qed.

Lemma Block_sample_wise (blk : Block.t) (x x' : tensor) (T D H : nat) :
  Block_ok D H blk ->
  Block_inert blk ->
  D = H * (D / H) ->
  shaped [B; T; D] x -> shaped [B; T; D] x' ->
  same_sample [T; D] b x x' ->
  sample_wise B b [T; D] (Block.forward blk x) (Block.forward blk x').
Proof.
  intros (Hn1 & Ha & Hn2 & [Hd Hm]) [[Hia Hip] Him] Hdiv Hx Hx' Hsame.
  unfold Block.forward.
  apply sample_wise_bind with (sh := [T] ++ [D]).
  { apply LayerNorm_sample_wise; try assumption; [apply Hx | apply Hx']. }
  intros n1 n1' Hn1x Hn1x' Hs1.
  apply sample_wise_bind with (sh := [T; D]).
  { pose proof Ha as (_ & _ & _ & _ & _ & Hoa & _ & Hop).
    apply Attention_sample_wise with (H := H); try assumption.
    - intros z. now apply Dropout_forward_inert.
    - intros z. now apply Dropout_forward_inert. }
  intros a1 a1' [Ha1 _] [Ha1' _] Hs2.
  apply sample_wise_bind with (sh := [T; D]).
  { apply tadd_sample_wise; try assumption; [apply Hx | apply Hx']. }
  intros x1 x1' Hx1 Hx1' Hs3.
  apply sample_wise_bind with (sh := [T] ++ [D]).
  { apply LayerNorm_sample_wise; try assumption; [apply Hx1 | apply Hx1']. }
  intros n2 n2' Hn2x Hn2x' Hs4.
  apply sample_wise_bind with (sh := [T] ++ [D]).
  { apply MLP_sample_wise with (Hd := Hd); assumption. }
  intros m1 m1' [Hm1 _] [Hm1' _] Hs5.
  apply sample_wise_bind with (sh := [T; D]).
  { apply tadd_sample_wise; try assumption; [apply Hx1 | apply Hx1']. }
  intros x2 x2' Hx2 Hx2' Hs6.
  now apply sample_wise_ret.
Qed.

Lemma run_blocks_sample_wise (bs : list Block.t) (x x' : tensor) (T D H : nat) :
  Forall (Block_ok D H) bs ->
  Forall Block_inert bs ->
  D = H * (D / H) ->
  shaped [B; T; D] x -> shaped [B; T; D] x' ->
  same_sample [T; D] b x x' ->
  sample_wise B b [T; D] (VisionTransformer.run_blocks bs x)
              (VisionTransformer.run_blocks bs x').
Proof.
  intros Hok Hin Hdiv. revert x x'.
  induction bs as [|blk bs IH]; intros x x' Hx Hx' Hsame;
    cbn [VisionTransformer.run_blocks].
  - now apply sample_wise_ret.
  - inversion Hok; subst. inversion Hin; subst.
    apply sample_wise_bind with (sh := [T; D]).
    + apply Block_sample_wise with (H := H); assumption.
    + intros y y' Hy Hy' Hs. now apply IH.
Qed.

(** ** The patch embedding and the token sequence *)

Lemma PatchEmbedding_sample_wise (pe : PatchEmbedding.t) (x x' : tensor)
      (C E k sz : nat) :
  PatchEmbedding_ok C E k pe ->
  0 < k -> k <= sz ->
  shape x = [B; C; sz; sz] -> shape x' = [B; C; sz; sz] ->
  same_sample [C; sz; sz] b x x' ->
  sample_wise B b [(sz / k) * (sz / k); E]
              (PatchEmbedding.forward pe x) (PatchEmbedding.forward pe x').
Proof.
  intros Hpe Hk Hsz Hx Hx' Hsame.
  destruct (@PatchEmbedding_forward_elements NM pe x C E k B sz Hpe Hk Hsz Hx)
    as (t & Et & Ht & Hel).
  destruct (@PatchEmbedding_forward_elements NM pe x' C E k B sz Hpe Hk Hsz Hx')
    as (t' & Et' & Ht' & Hel').
  exists t, t'. repeat (split; [assumption|]).
  intros idx Hin.
  destruct (in_bounds_inv2 Hin) as (p & e & -> & Hp & He).
  set (g := sz / k) in *.
  assert (Hg : 0 < g) by (apply Nat.div_str_pos; lia).
  assert (Hi : p / g < g) by (apply Nat.Div0.div_lt_upper_bound; lia).
  assert (Hj : p mod g < g) by (apply Nat.mod_upper_bound; lia).
  replace p with (p / g * g + p mod g)
    by (pose proof (Nat.div_mod_eq p g); lia).
  rewrite Hel, Hel' by assumption.
  apply conv_at_ext. intros c u v Hc Hu Hv.
  pose proof (Nat.Div0.mul_div_le sz k) as Hle. fold g in Hle.
  apply Hsame. apply in_bounds_3; [assumption | nia | nia].
Qed.

(** The class token before the patches, the position table added: the
    steps of [forward] between the patch embedding and the dropout. *)
Lemma embed_tokens_then (cls pos patches : tensor) (n N E : nat)
      (rest : tensor -> M tensor) :
  shape cls = [1; 1; E] ->
  shape pos = [1; 1 + N; E] ->
  shape patches = [n; N; E] ->
  (cls_token_ <- expand cls [Z.of_nat n; -1; -1]%Z ;;
   x <- cat cls_token_ patches 1 ;;
   x <- tadd x pos ;;
   rest x) =
  rest (spec_add_pos pos (spec_tokens cls patches n N E) n (1 + N) E).
Proof.
  intros Hc Hp Hx.
  unfold expand. rewrite Hc. cbn [rev app expand_rev].
  replace (Z.of_nat n =? -1)%Z with false by (symmetry; apply Z.eqb_neq; lia).
  replace (Z.of_nat n <? 0)%Z with false by (symmetry; apply Z.ltb_ge; lia).
  change (-1 =? -1)%Z with true. cbv beta iota.
  rewrite orb_true_r. cbn [option_map rev app]. rewrite Nat2Z.id, bind_ret_l.
  unfold cat, rank. rewrite shape_tabulate, Hx.
  cbn [length Nat.eqb negb Nat.ltb Nat.leb remove_at firstn skipn app shape_eqb nth set_at].
  rewrite !Nat.eqb_refl. cbn [andb negb]. rewrite bind_ret_l.
  unfold tadd. rewrite shape_tabulate, Hp, broadcast_shapes_batch.
  rewrite bind_ret_l.
  unfold spec_add_pos. apply (f_equal rest).
  apply tabulate_ext. intros idx Hin.
  pose proof Hin as Hin'.
  apply in_bounds_inv3 in Hin' as (i & t & e & -> & Hi & Ht & He).
  rewrite (bindex_same Hin), (bindex_batch Hin).
  f_equal. unfold spec_tokens.
  do 2 rewrite (fun f => @get_tabulate NM [n; 1 + N; E] f [i; t; e] Hin).
  cbn [nth]. destruct t as [|t].
  - cbn [Nat.ltb Nat.leb].
    rewrite get_tabulate by (apply in_bounds_3; lia).
    f_equal. apply (@bindex_batch n [1; E] i [0; e]).
    apply in_bounds_3; lia.
  - cbn [Nat.ltb Nat.leb set_at firstn skipn app Nat.sub].
    now rewrite Nat.sub_0_r.
Qed.

Lemma tokens_same_sample (cls pos y y' : tensor) (N E : nat) :
  same_sample [N; E] b y y' ->
  same_sample [1 + N; E] b
    (spec_add_pos pos (spec_tokens cls y B N E) B (1 + N) E)
    (spec_add_pos pos (spec_tokens cls y' B N E) B (1 + N) E).
Proof.
  intros Hsame idx Hin.
  destruct (in_bounds_inv2 Hin) as (t & e & -> & Ht & He).
  unfold spec_add_pos, spec_tokens.
  rewrite (@get_tabulate NM [B; 1 + N; E]) by (apply in_bounds_3; assumption).
  rewrite (@get_tabulate NM [B; 1 + N; E]) by (apply in_bounds_3; assumption).
  rewrite (@get_tabulate NM [B; 1 + N; E]) by (apply in_bounds_3; assumption).
  rewrite (@get_tabulate NM [B; 1 + N; E]) by (apply in_bounds_3; assumption).
  destruct t as [|t]; [reflexivity|].
  rewrite Hsame; [reflexivity|].
  apply in_bounds_cons; [lia | now apply in_bounds_1].
Qed.

(** ** [VisionTransformer.forward] *)

Lemma VisionTransformer_sample_wise (m : VisionTransformer.t) (x x' : tensor)
      (C E k T H NC sz : nat) :
  VisionTransformer_ok C E k T H NC m ->
  inference_mode m ->
  T = 1 + (sz / k) * (sz / k) ->
  0 < k -> k <= sz ->
  E = H * (E / H) ->
  shaped [B; C; sz; sz] x -> shaped [B; C; sz; sz] x' ->
  same_sample [C; sz; sz] b x x' ->
  sample_wise B b [NC] (VisionTransformer.forward m x)
              (VisionTransformer.forward m x').
Proof.
  intros (Hpe & Hcls & Hpos & Hpd & Hbs & Hn & Hh) [Hipd Hibs] HT Hk HS Hdiv
         [Hx _] [Hx' _] Hsame.
  unfold VisionTransformer.forward. rewrite Hx, Hx', !bind_ret_l.
  apply sample_wise_bind with (sh := [(sz / k) * (sz / k); E]).
  { apply PatchEmbedding_sample_wise with (C := C); assumption. }
  intros y1 y1' [Hy1 _] [Hy1' _] Hs1.
  subst T.
  rewrite (@embed_tokens_then (VisionTransformer.cls_token m)
             (VisionTransformer.pos_embed m) y1 B _ E _ (proj1 Hcls) (proj1 Hpos) Hy1).
  rewrite (@embed_tokens_then (VisionTransformer.cls_token m)
             (VisionTransformer.pos_embed m) y1' B _ E _ (proj1 Hcls) (proj1 Hpos) Hy1').
  rewrite !(Dropout_forward_inert _ Hpd Hipd), !bind_ret_l.
  pose proof (@tokens_same_sample (VisionTransformer.cls_token m)
                (VisionTransformer.pos_embed m) y1 y1' _ E Hs1) as Hs2.
  apply sample_wise_bind with (sh := [1 + (sz / k) * (sz / k); E]).
  { apply run_blocks_sample_wise with (H := H); try assumption;
      apply shaped_tabulate. }
  intros z1 z1' Hz1 Hz1' Hs3.
  apply sample_wise_bind with (sh := [1 + (sz / k) * (sz / k)] ++ [E]).
  { apply LayerNorm_sample_wise; try assumption; [apply Hz1 | apply Hz1']. }
  intros z2 z2' [Hz2 _] [Hz2' _] Hs4.
  rewrite (@select_cls_spec NM z2 B _ E Hz2) by lia.
  rewrite (@select_cls_spec NM z2' B _ E Hz2') by lia.
  rewrite !bind_ret_l.
  apply sample_wise_bind with (sh := [] ++ [NC]).
  { apply Linear_sample_wise with (i := E); try assumption;
      try apply shape_tabulate.
    intros idx Hin. apply in_bounds_snoc_inv in Hin as (q & e & -> & Hq & He).
    inversion Hq; subst. cbn [app]. unfold spec_select_cls.
    rewrite (@get_tabulate NM [B; E])
      by (apply in_bounds_cons; [assumption | now apply in_bounds_1]).
    rewrite (@get_tabulate NM [B; E])
      by (apply in_bounds_cons; [assumption | now apply in_bounds_1]).
    apply Hs4. apply in_bounds_cons; [lia | now apply in_bounds_1]. }
  intros z3 z3' Hz3 Hz3' Hs5.
  now apply sample_wise_ret.
Qed.

End SampleWiseModel.
(** * Further properties of the program *)

Lemma default_config_sane {NM : Numerics} :
  (0 <= py_int_mul (VisionTransformer.embed_dim VisionTransformer.default_config)
                   (VisionTransformer.mlp_ratio VisionTransformer.default_config))%Z ->
  sane_config VisionTransformer.default_config.
Proof.
  intros Hhid. unfold sane_config.
  repeat split; try exact Hhid; cbn; lia.
Qed.

(** X1. Run as a script, the program builds the model with the default
    arguments, draws an image batch of shape [(1, 3, 224, 224)], and the
    shape it prints last is [(1, 1000)], from every state of the random
    generator.  The one thing asked of the arithmetic is that
    [int(768 * 4.)] is not negative. *)
Theorem main_prints_logit_shape {NM : Numerics} :
  (0 <= py_int_mul (VisionTransformer.embed_dim VisionTransformer.default_config)
                   (VisionTransformer.mlp_ratio VisionTransformer.default_config))%Z ->
  returns main (fun printed => printed = [1; 1000]).
Proof.
  intros Hhid g. pose proof (default_config_sane Hhid) as Hs.
  destruct (VisionTransformer_init_returns Hs g) as (m & g1 & Em & Hb).
  destruct (@new_param_returns NM Randn [1; 3; 224; 224]%Z
              ltac:(repeat constructor; lia) g1) as (x & g2 & Ex & Hx).
  pose proof (VisionTransformer_init_dropouts _ _ Em) as (_ & _ & _ & Ht).
  destruct (@built_forward_returns NM VisionTransformer.default_config m true
              (Z.to_nat 1) x Hs ltac:(cbn; lia) ltac:(reflexivity) Hb Hx g2)
    as (y & g3 & Ey & Hy).
  rewrite Ht in Ey.
  exists (shape y), g3. split.
  - unfold main, bind. now rewrite Em, Ex, Ey.
  - exact (proj1 Hy).
Qed.

Lemma main_prints_logit_shape_witness :
  returns (main (NM := ZNumerics)) (fun printed => printed = [1; 1000]).
Proof.
  apply (@main_prints_logit_shape ZNumerics). vm_compute. congruence.
Defined.

(** X2. [VisionTransformer.__init__] returns a model exactly for the
    arguments with: [patch_size > 0]; [in_channels], [embed_dim] and
    [n_classes] not negative; [p] between 0 and 1; and, if [depth > 0],
    [n_heads != 0], [embed_dim // n_heads != 0], [attn_p] and [proj_p]
    between 0 and 1 and a hidden width that is not negative.  Nothing else
    is checked: neither that [patch_size] divides [img_size] nor that
    [n_heads] divides [embed_dim], nor the sign of [n_heads]; with
    [depth <= 0] the head count is not looked at.  Whether it returns does
    not depend on the state of the random generator. *)
Theorem VisionTransformer_init_succeeds_iff {NM : Numerics}
        (c : VisionTransformer.config) (g : RNG) :
  (exists m g', VisionTransformer.init c g = (inr m, g')) <-> constructible c.
Proof.
  split.
  - intros (m & g' & E). exact (VisionTransformer_init_constructible _ _ E).
  - intros Hc. destruct (constructible_init_returns Hc g) as (m & g' & E & _).
    now exists m, g'.
Qed.

(** X3. [Attention.__init__] raises [ZeroDivisionError] exactly when
    [n_heads] is 0 (from [dim // n_heads]) or [dim // n_heads] is 0 (from
    [head_dim ** -0.5]), the latter meaning more heads than features:
    [0 <= dim < n_heads], or [n_heads < dim <= 0].  It does so before any
    parameter is drawn: the generator is left as it was. *)
Theorem Attention_init_zero_division {NM : Numerics}
        (dim n_heads : Z) (qkv_bias : bool) (attn_p proj_p : Q) (g : RNG) :
  ((exists g', Attention.init dim n_heads qkv_bias attn_p proj_p g
               = (inl ZeroDivisionError, g'))
   <-> (n_heads = 0 \/ 0 <= dim < n_heads \/ n_heads < dim <= 0)%Z) /\
  (Attention.init dim n_heads qkv_bias attn_p proj_p g = (inl ZeroDivisionError, g)
   <-> (n_heads = 0 \/ 0 <= dim < n_heads \/ n_heads < dim <= 0)%Z).
Proof.
  assert (Hiff : (n_heads = 0 \/ 0 <= dim < n_heads \/ n_heads < dim <= 0)%Z
                 <-> (n_heads = 0 \/ dim / n_heads = 0)%Z).
  { destruct (Z.eq_dec n_heads 0) as [Hz | Hnz]; [tauto|].
    pose proof (Z.div_small_iff dim n_heads Hnz). tauto. }
  assert (Hraise : (exists g', Attention.init dim n_heads qkv_bias attn_p proj_p g
                               = (inl ZeroDivisionError, g'))
                   -> (n_heads = 0 \/ dim / n_heads = 0)%Z).
  { intros [g' E].
    destruct (Z.eq_dec n_heads 0) as [Hz | Hnz]; [now left|].
    destruct (Z.eq_dec (dim / n_heads) 0) as [Hq | Hnq]; [now right|].
    exfalso.
    exact (@Attention_init_avoids NM dim n_heads qkv_bias attn_p proj_p Hnz Hnq
             g _ g' E eq_refl). }
  split; split.
  - intros H. apply Hiff. now apply Hraise.
  - intros H. exists g. apply Attention_init_divides. now apply Hiff.
  - intros E. apply Hiff. apply Hraise. now exists g.
  - intros H. apply Attention_init_divides. now apply Hiff.
Qed.

(** X4. [MLP.__init__] takes [in_features] for a [hidden_features] or an
    [out_features] that is [None] or 0.  The first linear layer has then
    weights of shape [(hidden, in_features)], the second [(out, hidden)],
    and [MLP.forward] maps a tensor whose last dimension is [in_features]
    to one of the same leading dimensions whose last is [out], in training
    mode too, whatever [p]. *)
Theorem MLP_forward_out_features {NM : Numerics}
        (in_features : Z) (hidden_features out_features : option Z) (p : Q)
        (g0 g1 : RNG) (m : MLP.t) (pre : list nat) (x : tensor) :
  MLP.init in_features hidden_features out_features p g0 = (inr m, g1) ->
  shaped (pre ++ [Z.to_nat in_features]) x ->
  let width (o : option Z) :=
    match o with
    | Some v => if (v =? 0)%Z then in_features else v
    | None => in_features
    end in
  shaped [Z.to_nat (width hidden_features); Z.to_nat in_features]
         (Linear.weight (MLP.fc1 m)) /\
  shaped [Z.to_nat (width out_features); Z.to_nat (width hidden_features)]
         (Linear.weight (MLP.fc2 m)) /\
  returns (MLP.forward m x) (shaped (pre ++ [Z.to_nat (width out_features)])).
Proof.
  intros E [Hs _] width.
  apply MLP_init_widths in E as (_ & _ & _ & H1 & H2 & Hdr & _).
  change (py_or hidden_features in_features) with (width hidden_features) in *.
  change (py_or out_features in_features) with (width out_features) in *.
  split; [apply H1|]. split; [apply H2|].
  unfold MLP.forward.
  eapply returns_bind; [eapply Linear_forward_returns; eauto | intros y1 Hy1].
  eapply returns_bind; [apply returns_ret, gelu_shaped; exact Hy1 | intros y2 Hy2].
  eapply returns_bind; [eapply Dropout_forward_returns; eauto | intros y3 Hy3].
  eapply returns_bind;
    [eapply Linear_forward_returns; [exact H2 | apply Hy3] | intros y4 Hy4].
  eapply returns_bind; [eapply Dropout_forward_returns; eauto | intros y5 Hy5].
  now apply returns_ret.
Qed.

(** Four features in, six hidden, [out_features] left at [None]. *)
Lemma MLP_forward_out_features_witness :
  exists m g1,
    MLP.init (NM := ZNumerics) 4 (Some 6%Z) None (1 # 2) 0 = (inr m, g1) /\
    shaped [6; 4] (Linear.weight (MLP.fc1 m)) /\
    shaped [4; 6] (Linear.weight (MLP.fc2 m)) /\
    returns (MLP.forward m (full (NM := ZNumerics) [2; 3; 4] 1%Z)) (shaped [2; 3; 4]).
Proof.
  destruct (@MLP_init_succeeds ZNumerics 4 (Some 6%Z) None (1 # 2)
              ltac:(lia) ltac:(cbn; lia) ltac:(cbn; lia) ltac:(split; reflexivity) 0)
    as (m & g1 & E & _).
  exists m, g1. split; [exact E|].
  exact (@MLP_forward_out_features ZNumerics 4 (Some 6%Z) None (1 # 2) 0 g1 m [2; 3]
           (full (NM := ZNumerics) [2; 3; 4] 1%Z) E (shaped_tabulate _ _)).
Defined.

(** X5. A block built by [Block.__init__] has a feed-forward network whose
    hidden width is [int(dim * mlp_ratio)], except that a ratio for which
    this is 0 gives, through [hidden_features or in_features], a hidden
    layer of width [dim]; a block is never built with a negative hidden
    width.  Its two normalisations are over [dim] features and its
    attention has [head_dim = dim // n_heads]. *)
Theorem Block_init_hidden_width {NM : Numerics}
        (dim n_heads : Z) (mlp_ratio : Q) (qkv_bias : bool) (p attn_p proj_p : Q)
        (g0 g1 : RNG) (b : Block.t) :
  Block.init dim n_heads mlp_ratio qkv_bias p attn_p proj_p g0 = (inr b, g1) ->
  let h := py_int_mul dim mlp_ratio in
  let hidden := if (h =? 0)%Z then dim else h in
  (0 <= hidden)%Z /\
  shaped [Z.to_nat hidden; Z.to_nat dim] (Linear.weight (MLP.fc1 (Block.mlp b))) /\
  shaped [Z.to_nat dim; Z.to_nat hidden] (Linear.weight (MLP.fc2 (Block.mlp b))) /\
  LayerNorm.normalized_shape (Block.norm1 b) = dim /\
  LayerNorm.normalized_shape (Block.norm2 b) = dim /\
  Attention.dim (Block.attn b) = dim /\
  Attention.n_heads (Block.attn b) = n_heads /\
  Attention.head_dim (Block.attn b) = (dim / n_heads)%Z.
Proof.
  intros E h hidden.
  apply Block_init_parts in E. cbv zeta in E.
  change (py_or (Some (py_int_mul dim mlp_ratio)) dim) with hidden in E.
  destruct E as (Hd & _ & _ & _ & _ & Hh & (Hn1 & _) & (Hn2 & _) & Had & Han & Hah
                 & _ & _ & (Hf1 & _) & (Hf2 & _)).
  rewrite Hn1, Hn2, Z2Nat.id by lia. tauto.
Qed.

(** Width 4 with a ratio of 1/8: [int(4 * 0.125)] is 0 and the hidden
    layer has width 4. *)
Lemma Block_init_hidden_width_witness :
  exists b g1,
    Block.init (NM := ZNumerics) 4 2 (1 # 8) true 0 0 0 0 = (inr b, g1) /\
    shaped [4; 4] (Linear.weight (MLP.fc1 (Block.mlp b))) /\
    shaped [4; 4] (Linear.weight (MLP.fc2 (Block.mlp b))).
Proof.
  destruct (@Block_init_succeeds ZNumerics 4 2 (1 # 8) true 0 0 0
              ltac:(lia) ltac:(lia) ltac:(vm_compute; congruence)
              ltac:(split; reflexivity) ltac:(split; reflexivity)
              ltac:(vm_compute; congruence) 0)
    as (b & g1 & E & _).
  exists b, g1. split; [exact E|].
  pose proof (@Block_init_hidden_width ZNumerics 4 2 (1 # 8) true 0 0 0 0 g1 b E) as H.
  cbv zeta in H. split; [exact (proj1 (proj2 H)) | exact (proj1 (proj2 (proj2 H)))].
Defined.

(** X6. Every model that [VisionTransformer.__init__] returns has a class
    token of shape [(1, 1, embed_dim)], a position table with one row for
    each patch that [patch_embed.n_patches] counts and one more, a
    convolution whose kernel and stride are [patch_size], exactly [depth]
    blocks (none if [depth] is negative), each with
    [head_dim = embed_dim // n_heads], and a head of shape
    [(n_classes, embed_dim)]. *)
Theorem VisionTransformer_init_structure {NM : Numerics}
        (c : VisionTransformer.config) (g0 g1 : RNG) (m : VisionTransformer.t) :
  VisionTransformer.init c g0 = (inr m, g1) ->
  let E := Z.to_nat (VisionTransformer.embed_dim c) in
  let pe := VisionTransformer.patch_embed m in
  PatchEmbedding.n_patches pe
    = ((VisionTransformer.img_size c / VisionTransformer.patch_size c) ^ 2)%Z /\
  shaped [E; Z.to_nat (VisionTransformer.in_channels c);
          Z.to_nat (VisionTransformer.patch_size c);
          Z.to_nat (VisionTransformer.patch_size c)]
         (Conv2d.weight (PatchEmbedding.projection pe)) /\
  Conv2d.stride (PatchEmbedding.projection pe) = VisionTransformer.patch_size c /\
  shaped [1; 1; E] (VisionTransformer.cls_token m) /\
  shaped [1; Z.to_nat (PatchEmbedding.n_patches pe + 1); E]
         (VisionTransformer.pos_embed m) /\
  length (VisionTransformer.blocks m) = Z.to_nat (VisionTransformer.depth c) /\
  Forall (fun b =>
            Attention.dim (Block.attn b) = VisionTransformer.embed_dim c /\
            Attention.n_heads (Block.attn b) = VisionTransformer.n_heads c /\
            Attention.head_dim (Block.attn b)
              = (VisionTransformer.embed_dim c / VisionTransformer.n_heads c)%Z)
         (VisionTransformer.blocks m) /\
  shaped [Z.to_nat (VisionTransformer.n_classes c); E]
         (Linear.weight (VisionTransformer.head m)).
Proof.
  intros E0 E pe.
  pose proof (VisionTransformer_init_constructible _ _ E0) as (Hk & _).
  apply VisionTransformer_init_parts in E0. cbv zeta in E0.
  destruct E0 as ((Hw & _ & Hst) & _ & _ & Hn & Hcls & Hpos & _ & Hlen & Hbs & _ & Hhd & _).
  fold pe in Hw, Hst, Hn. fold E in Hw, Hcls, Hpos, Hhd.
  rewrite Hn. rewrite Z2Nat.id in Hst by lia.
  split; [reflexivity|].
  repeat (split; [assumption|]). split; [|assumption].
  eapply Forall_impl; [|exact Hbs].
  intros b (gb & gb' & Eb). apply Block_init_parts in Eb. cbv zeta in Eb. tauto.
Qed.

(** The model of [small_config]: images of side 4, patches of side 2. *)
Lemma VisionTransformer_init_structure_witness :
  exists m g1,
    VisionTransformer.init (NM := ZNumerics) small_config 0 = (inr m, g1) /\
    PatchEmbedding.n_patches (VisionTransformer.patch_embed m) = 4%Z /\
    shaped [1; 1; 4] (VisionTransformer.cls_token m) /\
    shaped [1; Z.to_nat (PatchEmbedding.n_patches (VisionTransformer.patch_embed m) + 1); 4]
           (VisionTransformer.pos_embed m) /\
    length (VisionTransformer.blocks m) = 1.
Proof.
  destruct (VisionTransformer_init_returns (proj1 (valid_config_sane small_config_valid)) 0)
    as (m & g1 & E & _).
  exists m, g1. split; [exact E|].
  pose proof (@VisionTransformer_init_structure ZNumerics small_config 0 g1 m E) as H.
  cbv zeta in H. destruct H as (Hn & _ & _ & Hcls & Hpos & Hlen & _).
  split; [exact Hn|]. split; [exact Hcls|]. split; [exact Hpos | exact Hlen].
Defined.

(** X7. [forward] is bound to the configured number of patches, not to the
    configured image size.  On a model built from a valid configuration, a
    batch of images of height [h] and width [w], both at least
    [patch_size], is mapped to logits of shape [(B, n_classes)] when
    [(h // patch_size) * (w // patch_size)] equals [patch_embed.n_patches];
    for every other size [forward] raises a [RuntimeError], where the
    position table is added. *)
Theorem forward_depends_on_patch_count {NM : Numerics}
        (c : VisionTransformer.config) (g0 g1 : RNG) (m : VisionTransformer.t)
        (mode : bool) (B h w : nat) (x : tensor) :
  valid_config c ->
  VisionTransformer.init c g0 = (inr m, g1) ->
  (VisionTransformer.patch_size c <= Z.of_nat h)%Z ->
  (VisionTransformer.patch_size c <= Z.of_nat w)%Z ->
  shaped [B; Z.to_nat (VisionTransformer.in_channels c); h; w] x ->
  let k := Z.to_nat (VisionTransformer.patch_size c) in
  let n := Z.to_nat (PatchEmbedding.n_patches (VisionTransformer.patch_embed m)) in
  ((h / k) * (w / k) = n ->
   returns (VisionTransformer.forward (VisionTransformer.train mode m) x)
           (shaped [B; Z.to_nat (VisionTransformer.n_classes c)])) /\
  ((h / k) * (w / k) <> n ->
   raises (VisionTransformer.forward (VisionTransformer.train mode m) x) RuntimeError).
Proof.
  intros Hv E Hh Hw Hx k n.
  apply valid_config_sane in Hv as (Hs & Hle & Hdiv).
  assert (Hb : built_from c m) by (eapply VisionTransformer_init_built; eassumption).
  unfold n. rewrite (@VisionTransformer_init_n_patches NM c g0 g1 m E).
  destruct Hs as (Hk & Hi & HC & HN & [HH HE] & _).
  rewrite patches_of_config by lia.
  fold k. set (s := Z.to_nat (VisionTransformer.img_size c)).
  assert (Hgrid : 0 < s / k) by (apply Nat.div_str_pos; unfold s, k; lia).
  destruct (@VisionTransformer_forward_grid NM (VisionTransformer.train mode m) x
              (Z.to_nat (VisionTransformer.in_channels c))
              (Z.to_nat (VisionTransformer.embed_dim c)) k
              (Z.to_nat ((VisionTransformer.img_size c
                          / VisionTransformer.patch_size c) ^ 2 + 1))
              (Z.to_nat (VisionTransformer.n_heads c))
              (Z.to_nat (VisionTransformer.n_classes c)) B h w)
    as [Hret Hraise].
  - apply VisionTransformer_train_ok. exact Hb.
  - unfold k; lia.
  - unfold k; lia.
  - unfold k; lia.
  - apply divides_nat; lia.
  - exact Hx.
  - rewrite tokens_of_config in Hret, Hraise by lia. fold k s in Hret, Hraise.
    split.
    + intros Heq. apply Hret. now rewrite Heq.
    + intros Hne. apply Hraise.
      * intros Heq. apply Hne. now injection Heq.
      * pose proof (Nat.mul_pos_pos _ _ Hgrid Hgrid) as Hpos.
        intros Heq. injection Heq as Heq. rewrite Heq in Hpos.
        exact (Nat.lt_irrefl _ Hpos).
Qed.

(** The model of [small_config] expects four patches: images of height 2
    and width 8 have them, images of side 6 have nine. *)
Lemma forward_depends_on_patch_count_witness :
  exists m g1,
    VisionTransformer.init (NM := ZNumerics) small_config 0 = (inr m, g1) /\
    returns (VisionTransformer.forward (VisionTransformer.train false m)
               (full (NM := ZNumerics) [2; 1; 2; 8] 1%Z))
            (shaped [2; 3]) /\
    raises (VisionTransformer.forward (VisionTransformer.train false m)
              (full (NM := ZNumerics) [2; 1; 6; 6] 1%Z))
           RuntimeError.
Proof.
  destruct (VisionTransformer_init_returns (proj1 (valid_config_sane small_config_valid)) 0)
    as (m & g1 & E & _).
  exists m, g1. split; [exact E|].
  pose proof (@VisionTransformer_init_n_patches ZNumerics small_config 0 g1 m E) as Hn.
  split.
  - apply (@forward_depends_on_patch_count ZNumerics small_config 0 g1 m false 2 2 8
             (full (NM := ZNumerics) [2; 1; 2; 8] 1%Z) small_config_valid E
             ltac:(cbn; lia) ltac:(cbn; lia) (shaped_tabulate _ _)).
    rewrite Hn. reflexivity.
  - apply (@forward_depends_on_patch_count ZNumerics small_config 0 g1 m false 2 6 6
             (full (NM := ZNumerics) [2; 1; 6; 6] 1%Z) small_config_valid E
             ltac:(cbn; lia) ltac:(cbn; lia) (shaped_tabulate _ _)).
    rewrite Hn. vm_compute. congruence.
Defined.

(** X8. [forward] refuses an input that is not a batch of images for the
    model, before anything is computed or drawn: a tensor without
    dimensions raises [IndexError] at [x.shape[0]]; a tensor of rank 1, 2
    or more than 4, a batch with another number of channels than
    [in_channels], and a batch of images lower or narrower than
    [patch_size] raise [RuntimeError] in the convolution. *)
Theorem forward_rejects_malformed_input {NM : Numerics}
        (c : VisionTransformer.config) (g0 g1 : RNG) (m : VisionTransformer.t)
        (mode : bool) (x : tensor) :
  VisionTransformer.init c g0 = (inr m, g1) ->
  (rank x = 0 ->
   fails (VisionTransformer.forward (VisionTransformer.train mode m) x) IndexError) /\
  (rank x <> 0 -> rank x <> 3 -> rank x <> 4 ->
   fails (VisionTransformer.forward (VisionTransformer.train mode m) x) RuntimeError) /\
  (forall B C' h w,
      shape x = [B; C'; h; w] ->
      C' <> Z.to_nat (VisionTransformer.in_channels c)
      \/ (Z.of_nat h < VisionTransformer.patch_size c)%Z
      \/ (Z.of_nat w < VisionTransformer.patch_size c)%Z ->
      fails (VisionTransformer.forward (VisionTransformer.train mode m) x) RuntimeError).
Proof.
  intros E. apply VisionTransformer_init_parts in E. cbv zeta in E.
  destruct E as (Hpe & _).
  unfold VisionTransformer.forward, PatchEmbedding.forward.
  cbn [VisionTransformer.train VisionTransformer.patch_embed].
  split; [|split].
  - unfold rank. intros Hr. destruct (shape x); [|discriminate].
    apply fails_bind_left, fails_raise.
  - unfold rank. intros H0 H3 H4.
    destruct (shape x) as [|n sh] eqn:Hs; [contradiction|]. rewrite bind_ret_l.
    apply fails_bind_left, fails_bind_left. apply Conv2d_forward_rank; unfold rank;
      now rewrite Hs.
  - intros B C' h w Hs Hbad. rewrite Hs, bind_ret_l.
    apply fails_bind_left, fails_bind_left.
    destruct Hbad as [HC | Hsmall].
    + eapply Conv2d_forward_channels; [exact Hpe | exact HC | exact Hs].
    + eapply Conv2d_forward_narrow; [exact Hpe | | exact Hs]. lia.
Qed.

(** The model of [small_config], made for one channel, given three. *)
Lemma forward_rejects_malformed_input_witness :
  exists m g1,
    VisionTransformer.init (NM := ZNumerics) small_config 0 = (inr m, g1) /\
    fails (VisionTransformer.forward (VisionTransformer.train true m)
             (full (NM := ZNumerics) [2; 3; 4; 4] 1%Z))
          RuntimeError.
Proof.
  destruct (VisionTransformer_init_returns (proj1 (valid_config_sane small_config_valid)) 0)
    as (m & g1 & E & _).
  exists m, g1. split; [exact E|].
  apply (proj2 (proj2 (@forward_rejects_malformed_input ZNumerics small_config 0 g1 m true
                         (full (NM := ZNumerics) [2; 3; 4; 4] 1%Z) E))
           2 3 4 4 eq_refl).
  left. cbn. lia.
Defined.



(** X10. For a module that [Attention.__init__] returned, [forward] raises
    [ValueError] exactly on the inputs whose shape is not [(B, T, dim)] for
    some [B] and [T]: a tensor of another rank fails at the unpacking of
    [x.shape], one of rank 3 and another width at the explicit check.  The
    generator is untouched when it does. *)
Theorem Attention_forward_value_error_iff {NM : Numerics}
        (dim n_heads : Z) (qkv_bias : bool) (attn_p proj_p : Q) (g0 g1 : RNG)
        (a : Attention.t) (x : tensor) (g : RNG) :
  Attention.init dim n_heads qkv_bias attn_p proj_p g0 = (inr a, g1) ->
  ((exists g', Attention.forward a x g = (inl ValueError, g'))
   <-> forall B T, shape x <> [B; T; Z.to_nat dim]) /\
  (Attention.forward a x g = (inl ValueError, g)
   <-> forall B T, shape x <> [B; T; Z.to_nat dim]).
Proof.
  intros E.
  apply Attention_init_inv in E
    as (Hd0 & _ & _ & Hd & _ & _ & _ & _ & (Hd1 & _) & (Hd2 & _) & _).
  assert (Hfail : (forall B T, shape x <> [B; T; Z.to_nat dim]) ->
                  Attention.forward a x g = (inl ValueError, g)).
  { intros Hne. unfold Attention.forward.
    destruct (shape x) as [|B [|T [|d [|? ?]]]] eqn:Hs; try reflexivity.
    destruct (Z.eqb_spec (Z.of_nat d) (Attention.dim a)) as [Heq | _]; [|reflexivity].
    exfalso. apply (Hne B T). rewrite <- Hd, <- Heq, Nat2Z.id. reflexivity. }
  assert (Hsome : (exists g', Attention.forward a x g = (inl ValueError, g')) ->
                  forall B T, shape x <> [B; T; Z.to_nat dim]).
  { intros [g' Eg] B T Hs.
    eapply (@Attention_forward_avoids NM a x B T (Z.to_nat dim)); eauto.
    rewrite Z2Nat.id by exact Hd0. now symmetry. }
  split; split.
  - exact Hsome.
  - intros H. exists g. now apply Hfail.
  - intros H. apply Hsome. now exists g.
  - exact Hfail.
Qed.

(** An attention module of width 4 given a matrix. *)
Lemma Attention_forward_value_error_iff_witness :
  exists a g1,
    Attention.init (NM := ZNumerics) 4 2 true 0 0 0 = (inr a, g1) /\
    Attention.forward a (full (NM := ZNumerics) [3; 4] 1%Z) 7 = (inl ValueError, 7).
Proof.
  destruct (@Attention_init_returns ZNumerics 4 2 true 0 0) with (g := 0)
    as (a & g1 & E & _); try (split; reflexivity); try lia.
  exists a, g1. split; [exact E|].
  apply (proj2 (@Attention_forward_value_error_iff ZNumerics 4 2 true 0 0 0 g1 a
                  (full (NM := ZNumerics) [3; 4] 1%Z) 7 E)).
  intros B T. discriminate.
Defined.

(** X11. What lies beyond the last whole patch does not reach the output.
    For a model built with [0 < patch_size <= img_size], two batches of
    images that agree on the rows and columns below
    [(img_size // patch_size) * patch_size] get the same patch embeddings
    and, from the same generator state and in the same mode, the same
    result of [forward]. *)
Theorem forward_ignores_truncated_border {NM : Numerics}
        (c : VisionTransformer.config) (g0 g1 : RNG) (m : VisionTransformer.t)
        (mode : bool) (B : nat) (x x' : tensor) :
  VisionTransformer.init c g0 = (inr m, g1) ->
  (VisionTransformer.patch_size c <= VisionTransformer.img_size c)%Z ->
  let C := Z.to_nat (VisionTransformer.in_channels c) in
  let sz := Z.to_nat (VisionTransformer.img_size c) in
  let k := Z.to_nat (VisionTransformer.patch_size c) in
  shape x = [B; C; sz; sz] -> shape x' = [B; C; sz; sz] ->
  (forall b ch u v, b < B -> ch < C -> u < (sz / k) * k -> v < (sz / k) * k ->
     get x [b; ch; u; v] = get x' [b; ch; u; v]) ->
  PatchEmbedding.forward (VisionTransformer.patch_embed m) x
  = PatchEmbedding.forward (VisionTransformer.patch_embed m) x' /\
  VisionTransformer.forward (VisionTransformer.train mode m) x
  = VisionTransformer.forward (VisionTransformer.train mode m) x'.
Proof.
  intros E Hle C sz k Hs Hs' Hin.
  pose proof (VisionTransformer_init_constructible _ _ E) as (Hk & _).
  apply VisionTransformer_init_parts in E. cbv zeta in E. destruct E as (Hpe & _).
  assert (Heq : PatchEmbedding.forward (VisionTransformer.patch_embed m) x
                = PatchEmbedding.forward (VisionTransformer.patch_embed m) x').
  { apply (@PatchEmbedding_forward_ext NM (VisionTransformer.patch_embed m) x x'
             C (Z.to_nat (VisionTransformer.embed_dim c)) k B sz Hpe);
      try assumption; unfold k, sz; lia. }
  split; [exact Heq|].
  unfold VisionTransformer.forward.
  cbn [VisionTransformer.train VisionTransformer.patch_embed].
  now rewrite Hs, Hs', Heq.
Qed.

(** Images of side 5 and patches of side 2: the fifth row and the fifth
    column are not read. *)
Lemma forward_ignores_truncated_border_witness :
  exists m g1,
    VisionTransformer.init (NM := ZNumerics) truncating_config 0 = (inr m, g1) /\
    VisionTransformer.forward (VisionTransformer.train true m)
      (full (NM := ZNumerics) [2; 1; 5; 5] 1%Z)
    = VisionTransformer.forward (VisionTransformer.train true m)
        (tabulate (NM := ZNumerics) [2; 1; 5; 5]
           (fun idx => if (nth 2 idx 0 <? 4) && (nth 3 idx 0 <? 4) then 1%Z else 9%Z)).
Proof.
  destruct (VisionTransformer_init_returns truncating_config_sane 0) as (m & g1 & E & _).
  exists m, g1. split; [exact E|].
  apply (@forward_ignores_truncated_border ZNumerics truncating_config 0 g1 m true 2
           (full (NM := ZNumerics) [2; 1; 5; 5] 1%Z)
           (tabulate (NM := ZNumerics) [2; 1; 5; 5]
              (fun idx => if (nth 2 idx 0 <? 4) && (nth 3 idx 0 <? 4) then 1%Z else 9%Z))
           E ltac:(cbn; lia) eq_refl eq_refl).
  intros b ch u v Hb Hc Hu Hv.
  change (ch < 1) in Hc. change (u < 4) in Hu. change (v < 4) in Hv.
  unfold full.
  rewrite !get_tabulate by (apply in_bounds_4; lia).
  cbn [nth].
  apply Nat.ltb_lt in Hu, Hv. now rewrite Hu, Hv.
Defined.

(** X12. With [p], [attn_p] and [proj_p] equal to 0, as by default, the
    mode makes no difference: for every input, [forward] has in training
    mode the outcome it has in evaluation mode, the same from every state
    of the random generator, and leaves the generator as it was. *)
Theorem forward_without_dropout_ignores_mode {NM : Numerics}
        (c : VisionTransformer.config) (g0 g1 : RNG) (m : VisionTransformer.t)
        (x : tensor) :
  VisionTransformer.init c g0 = (inr m, g1) ->
  Qeq_bool (VisionTransformer.p c) 0 = true ->
  Qeq_bool (VisionTransformer.attn_p c) 0 = true ->
  Qeq_bool (VisionTransformer.proj_p c) 0 = true ->
  exists r, forall (mode : bool) (g : RNG),
    VisionTransformer.forward (VisionTransformer.train mode m) x g = (r, g).
Proof.
  intros E Hp Ha Hpr.
  apply VisionTransformer_init_dropouts in E as (Hpd & _ & Hbs & _).
  assert (Hzero : Forall (fun b =>
            Qeq_bool (Dropout.p (Attention.attn_drop (Block.attn b))) 0 = true /\
            Qeq_bool (Dropout.p (Attention.proj_drop (Block.attn b))) 0 = true /\
            Qeq_bool (Dropout.p (MLP.drop (Block.mlp b))) 0 = true)
           (VisionTransformer.blocks m)).
  { eapply Forall_impl; [|exact Hbs].
    intros b (-> & -> & -> & _). repeat split; assumption || reflexivity. }
  assert (Hinf : inference_mode m).
  { split.
    - right. now rewrite Hpd.
    - eapply Forall_impl; [|exact Hzero].
      intros b (H1 & H2 & H3). split; [split|]; now right. }
  destruct (VisionTransformer_forward_pure x Hinf) as [r Hr].
  exists r. intros mode g.
  rewrite VisionTransformer_forward_train_zero; [apply Hr | now rewrite Hpd | exact Hzero].
Qed.

(** Scenario B of the specification has all three probabilities at 0. *)
Lemma forward_without_dropout_ignores_mode_witness :
  exists m g1 r,
    VisionTransformer.init (NM := ZNumerics) scenario_B 0 = (inr m, g1) /\
    VisionTransformer.forward (VisionTransformer.train true m)
      (full (NM := ZNumerics) [4; 3; 32; 32] 1%Z) 5 = (r, 5) /\
    VisionTransformer.forward (VisionTransformer.train false m)
      (full (NM := ZNumerics) [4; 3; 32; 32] 1%Z) 8 = (r, 8).
Proof.
  destruct (VisionTransformer_init_returns (proj1 (valid_config_sane scenario_B_valid)) 0)
    as (m & g1 & E & _).
  destruct (@forward_without_dropout_ignores_mode ZNumerics scenario_B 0 g1 m
              (full (NM := ZNumerics) [4; 3; 32; 32] 1%Z) E eq_refl eq_refl eq_refl)
    as [r Hr].
  exists m, g1, r. split; [exact E|]. split; apply Hr.
Defined.

(** X13. The feed-forward network of a block works on every token by
    itself.  If two inputs of one shape hold the same token at a position,
    the two results of [MLP.forward] hold the same token there, whatever
    the other tokens of the two inputs; and [MLP.forward] returns in
    training mode what it returns in evaluation mode, without drawing from
    the generator. *)
Theorem Block_mlp_acts_per_token {NM : Numerics}
        (dim n_heads : Z) (mlp_ratio : Q) (qkv_bias : bool) (p attn_p proj_p : Q)
        (g0 g1 : RNG) (b : Block.t)
        (B T : nat) (x x' : tensor) (i t : nat) :
  Block.init dim n_heads mlp_ratio qkv_bias p attn_p proj_p g0 = (inr b, g1) ->
  shape x = [B; T; Z.to_nat dim] -> shape x' = [B; T; Z.to_nat dim] ->
  i < B -> t < T ->
  same_row (Z.to_nat dim) [i; t] x x' ->
  exists y y',
    (forall mode, MLP.forward (MLP.train mode (Block.mlp b)) x = ret y) /\
    (forall mode, MLP.forward (MLP.train mode (Block.mlp b)) x' = ret y') /\
    shaped [B; T; Z.to_nat dim] y /\ shaped [B; T; Z.to_nat dim] y' /\
    same_row (Z.to_nat dim) [i; t] y y'.
Proof.
  intros E Hs Hs' Hi Ht Hrow.
  pose proof (Block_init_dropouts _ _ _ _ _ _ _ _ E) as (_ & _ & Hp & _).
  apply Block_init_parts in E. cbv zeta in E.
  destruct E as (_ & _ & _ & _ & _ & _ & _ & _ & _ & _ & _ & _ & _ & H1 & H2).
  assert (Hin : in_bounds [B; T] [i; t]) by (repeat constructor; assumption).
  assert (Hrows : forall mode,
    exists y y',
      MLP.forward (MLP.train mode (Block.mlp b)) x = ret y /\
      MLP.forward (MLP.train mode (Block.mlp b)) x' = ret y' /\
      shaped ([B; T] ++ [Z.to_nat dim]) y /\ shaped ([B; T] ++ [Z.to_nat dim]) y' /\
      same_row (Z.to_nat dim) [i; t] y y').
  { intros mode.
    apply (@MLP_forward_rows NM (MLP.train mode (Block.mlp b)) x x' (Z.to_nat dim)
             _ (Z.to_nat dim) [B; T] [i; t] H1 H2
             (fun z => Dropout_forward_zero (MLP.drop (MLP.train mode (Block.mlp b))) z Hp)
             Hs Hs' Hin Hrow). }
  destruct (Hrows true) as (y & y' & Ey & Ey' & Hy & Hy' & Hr).
  exists y, y'.
  assert (Hmode : forall mode z,
            MLP.forward (MLP.train mode (Block.mlp b)) z
            = MLP.forward (MLP.train true (Block.mlp b)) z).
  { intros mode z. unfold MLP.forward, MLP.train. cbn [MLP.fc1 MLP.fc2 MLP.drop].
    unfold Dropout.forward, Dropout.train. cbn [Dropout.p Dropout.training].
    rewrite Hp. change (Qeq_bool 0 0) with true. now rewrite !orb_true_r. }
  split; [intros mode; now rewrite Hmode|].
  split; [intros mode; now rewrite Hmode|].
  split; [exact Hy|]. split; [exact Hy' | exact Hr].
Qed.

(** Two inputs of shape [(2, 3, 4)] that have the last token of the second
    sequence in common and differ in all the others. *)
Lemma Block_mlp_acts_per_token_witness :
  exists b g1 y y',
    Block.init (NM := ZNumerics) 4 2 2 true (1 # 2) (1 # 4) (1 # 8) 0 = (inr b, g1) /\
    let x := tabulate (NM := ZNumerics) [2; 3; 4]
               (fun idx => Z.of_nat (ravel [2; 3; 4] idx)) in
    let x' := tabulate (NM := ZNumerics) [2; 3; 4]
                (fun idx => if (nth 0 idx 0 =? 1) && (nth 1 idx 0 =? 2)
                            then Z.of_nat (ravel [2; 3; 4] idx) else (-1)%Z) in
    get x [0; 1; 2] = 6%Z /\ get x' [0; 1; 2] = (-1)%Z /\
    (forall mode, MLP.forward (MLP.train mode (Block.mlp b)) x = ret y) /\
    (forall mode, MLP.forward (MLP.train mode (Block.mlp b)) x' = ret y') /\
    same_row 4 [1; 2] y y'.
Proof.
  destruct example_block_built as (b & g1 & E).
  destruct (@Block_mlp_acts_per_token ZNumerics 4 2 2 true (1 # 2) (1 # 4) (1 # 8)
              0 g1 b 2 3
              (tabulate (NM := ZNumerics) [2; 3; 4]
                 (fun idx => Z.of_nat (ravel [2; 3; 4] idx)))
              (tabulate (NM := ZNumerics) [2; 3; 4]
                 (fun idx => if (nth 0 idx 0 =? 1) && (nth 1 idx 0 =? 2)
                             then Z.of_nat (ravel [2; 3; 4] idx) else (-1)%Z))
              1 2 E eq_refl eq_refl ltac:(lia) ltac:(lia))
    as (y & y' & Ey & Ey' & _ & _ & Hr).
  - intros n Hn. change (n < 4) in Hn. cbn [app].
    rewrite !(@get_tabulate ZNumerics [2; 3; 4]) by (apply in_bounds_3; lia).
    reflexivity.
  - exists b, g1, y, y'. split; [exact E|]. cbv zeta.
    split; [reflexivity|]. split; [reflexivity|].
    split; [exact Ey|]. split; [exact Ey' | exact Hr].
Defined.

(** X14. In evaluation mode no image of a batch reaches the logits of
    another.  For a model built from a valid configuration and two batches
    of one size that hold the same image at position [b], the logits
    [forward] returns at position [b] are the same, whatever the other
    images of the two batches; both calls return, without drawing from the
    generator. *)
Theorem forward_handles_samples_separately {NM : Numerics}
        (c : VisionTransformer.config) (g0 g1 : RNG) (m : VisionTransformer.t)
        (B b : nat) (x x' : tensor) :
  valid_config c ->
  VisionTransformer.init c g0 = (inr m, g1) ->
  b < B ->
  let C := Z.to_nat (VisionTransformer.in_channels c) in
  let sz := Z.to_nat (VisionTransformer.img_size c) in
  let NC := Z.to_nat (VisionTransformer.n_classes c) in
  shaped [B; C; sz; sz] x -> shaped [B; C; sz; sz] x' ->
  same_sample [C; sz; sz] b x x' ->
  exists y y',
    VisionTransformer.forward (VisionTransformer.eval m) x = ret y /\
    VisionTransformer.forward (VisionTransformer.eval m) x' = ret y' /\
    shaped [B; NC] y /\ shaped [B; NC] y' /\
    forall j, j < NC -> get y [b; j] = get y' [b; j].
Proof.
  intros Hv E Hb C sz NC Hx Hx' Hsame.
  apply valid_config_sane in Hv as (Hs & Hle & Hdiv).
  assert (Hbuilt : built_from c m) by (eapply VisionTransformer_init_built; eassumption).
  destruct Hs as (Hk & Hi & HC & HN & [HH HE] & _).
  destruct (@VisionTransformer_sample_wise NM B b Hb (VisionTransformer.eval m)
              x x' C (Z.to_nat (VisionTransformer.embed_dim c))
              (Z.to_nat (VisionTransformer.patch_size c))
              (Z.to_nat ((VisionTransformer.img_size c
                          / VisionTransformer.patch_size c) ^ 2 + 1))
              (Z.to_nat (VisionTransformer.n_heads c)) NC sz)
    as (y & y' & Ey & Ey' & Hy & Hy' & Hsy); try assumption.
  - apply VisionTransformer_train_ok. exact Hbuilt.
  - apply eval_inference_mode.
  - apply tokens_of_config; lia.
  - lia.
  - unfold sz. lia.
  - apply divides_nat; lia.
  - exists y, y'. repeat (split; [assumption|]).
    intros j Hj. apply Hsy. now apply in_bounds_1.
Qed.

(** Two batches of two images of side 4 with the second image in common
    and different first images. *)
Lemma forward_handles_samples_separately_witness :
  exists m g1 y y',
    VisionTransformer.init (NM := ZNumerics) small_config 0 = (inr m, g1) /\
    let x := tabulate (NM := ZNumerics) [2; 1; 4; 4]
               (fun idx => Z.of_nat (ravel [2; 1; 4; 4] idx)) in
    let x' := tabulate (NM := ZNumerics) [2; 1; 4; 4]
                (fun idx => if nth 0 idx 0 =? 1
                            then Z.of_nat (ravel [2; 1; 4; 4] idx) else (-1)%Z) in
    get x [0; 0; 1; 2] = 6%Z /\ get x' [0; 0; 1; 2] = (-1)%Z /\
    VisionTransformer.forward (VisionTransformer.eval m) x = ret y /\
    VisionTransformer.forward (VisionTransformer.eval m) x' = ret y' /\
    forall j, j < 3 -> get y [1; j] = get y' [1; j].
Proof.
  destruct (VisionTransformer_init_returns (proj1 (valid_config_sane small_config_valid)) 0)
    as (m & g1 & E & _).
  destruct (@forward_handles_samples_separately ZNumerics small_config 0 g1 m 2 1
              (tabulate (NM := ZNumerics) [2; 1; 4; 4]
                 (fun idx => Z.of_nat (ravel [2; 1; 4; 4] idx)))
              (tabulate (NM := ZNumerics) [2; 1; 4; 4]
                 (fun idx => if nth 0 idx 0 =? 1
                             then Z.of_nat (ravel [2; 1; 4; 4] idx) else (-1)%Z))
              small_config_valid E ltac:(lia)
              (shaped_tabulate _ _) (shaped_tabulate _ _))
    as (y & y' & Ey & Ey' & _ & _ & Hy).
  - intros idx Hin.
    rewrite !(@get_tabulate ZNumerics [2; 1; 4; 4])
      by (apply in_bounds_cons; [lia | exact Hin]).
    reflexivity.
  - exists m, g1, y, y'. split; [exact E|]. cbv zeta.
    split; [reflexivity|]. split; [reflexivity|].
    split; [exact Ey|]. split; [exact Ey' | exact Hy].
Defined.

(** X15. In evaluation mode the attention and the block as a whole work
    inside one sample: tokens attend to the tokens of their own sequence
    only.  For a block built for width [D] and [H] heads with [H] dividing
    [D], and two batches of one shape that hold the same sequence at
    position [b], [Attention.forward] and [Block.forward] both return on
    the two batches, and the two results hold the same sequence at
    position [b]. *)
Theorem Block_handles_samples_separately {NM : Numerics}
        (D H : nat) (mlp_ratio : Q) (qkv_bias : bool) (p attn_p proj_p : Q)
        (g0 g1 : RNG) (blk : Block.t) (B T b : nat) (x x' : tensor) :
  Block.init (Z.of_nat D) (Z.of_nat H) mlp_ratio qkv_bias p attn_p proj_p g0
    = (inr blk, g1) ->
  D mod H = 0 ->
  b < B ->
  shaped [B; T; D] x -> shaped [B; T; D] x' ->
  same_sample [T; D] b x x' ->
  sample_wise B b [T; D]
    (Attention.forward (Attention.train false (Block.attn blk)) x)
    (Attention.forward (Attention.train false (Block.attn blk)) x') /\
  sample_wise B b [T; D]
    (Block.forward (Block.train false blk) x)
    (Block.forward (Block.train false blk) x').
Proof.
  intros E Hmod Hb Hx Hx' Hsame.
  apply Block_init_inv in E as (Hok & HH & HD).
  assert (Hdiv : D = H * (D / H)) by (apply Nat.Div0.div_exact; exact Hmod).
  pose proof Hok as (_ & Ha & _).
  pose proof Ha as (_ & _ & _ & _ & _ & Hoa & _ & Hop).
  split.
  - apply Attention_sample_wise with (H := H); try assumption.
    + intros z. apply Dropout_forward_inert; [exact Hoa | now left].
    + intros z. apply Dropout_forward_inert; [exact Hop | now left].
  - apply Block_sample_wise with (H := H); try assumption.
    split; [split|]; now left.
Qed.

(** Two batches of two sequences of three tokens with the second sequence
    in common and different first sequences. *)
Lemma Block_handles_samples_separately_witness :
  exists blk g1,
    Block.init (NM := ZNumerics) 4 2 2 true (1 # 2) (1 # 4) (1 # 8) 0 = (inr blk, g1) /\
    let x := tabulate (NM := ZNumerics) [2; 3; 4]
               (fun idx => Z.of_nat (ravel [2; 3; 4] idx)) in
    let x' := tabulate (NM := ZNumerics) [2; 3; 4]
                (fun idx => if nth 0 idx 0 =? 1
                            then Z.of_nat (ravel [2; 3; 4] idx) else (-1)%Z) in
    get x [0; 1; 2] = 6%Z /\ get x' [0; 1; 2] = (-1)%Z /\
    sample_wise 2 1 [3; 4]
      (Attention.forward (Attention.train false (Block.attn blk)) x)
      (Attention.forward (Attention.train false (Block.attn blk)) x') /\
    sample_wise 2 1 [3; 4]
      (Block.forward (Block.train false blk) x)
      (Block.forward (Block.train false blk) x').
Proof.
  destruct example_block_built as (blk & g1 & E).
  exists blk, g1. split; [exact E|]. cbv zeta.
  split; [reflexivity|]. split; [reflexivity|].
  apply (@Block_handles_samples_separately ZNumerics 4 2 2 true (1 # 2) (1 # 4) (1 # 8)
           0 g1 blk 2 3 1
           (tabulate (NM := ZNumerics) [2; 3; 4]
              (fun idx => Z.of_nat (ravel [2; 3; 4] idx)))
           (tabulate (NM := ZNumerics) [2; 3; 4]
              (fun idx => if nth 0 idx 0 =? 1
                          then Z.of_nat (ravel [2; 3; 4] idx) else (-1)%Z))
           E eq_refl ltac:(lia) (shaped_tabulate _ _) (shaped_tabulate _ _)).
  intros idx Hin.
  rewrite !(@get_tabulate ZNumerics [2; 3; 4])
    by (apply in_bounds_cons; [lia | exact Hin]).
  reflexivity.
Defined.
